(** * cruisereplay: replay scheduling engine and feed ingestors

    A shallow embedding of the Go packages [feeds] (the Emitter
    interface and its four feeds: Evt, Sfl, Underway, SeaLog) and [cmd]
    (the scheduler of the root command), followed by the properties of the
    replay engine stated in the design document.

    Conventions.
    - A [time.Time] is the number of nanoseconds since Go's zero Time
      (January 1, year 1, 00:00:00 UTC); a [time.Duration] is a count of
      nanoseconds in the int64 range.
    - Go's [int] (the cursor [i], [len]) is an integer in [Z].
    - A Go [error] is [option string]; [None] is [nil].
    - A pointer receiver is a record passed in and returned.
    - A call that might not return takes a [fuel : nat] and answers [None]
      when the fuel is spent.
    - What the system and the network refuse (a directory, a file, a
      write, a datagram) is a parameter, [os.Faults] and [net.Faults]; a
      property that names neither is about the system and the network
      that refuse nothing. *)

From Stdlib Require Import ZArith List String Ascii Bool Lia.
From Stdlib Require Import Sorted Permutation.
From Stdlib Require Import SpecFloat DecimalString.
Import ListNotations.
Local Open Scope Z_scope.

(** ** Go built-ins *)

Definition error := option string.

Definition len {A : Type} (l : list A) : Z := Z.of_nat (List.length l).

(** Sequencing of steps that may fail. *)
Definition bind {A B : Type} (o : option A) (k : A -> option B) : option B :=
  match o with
  | Some a => k a
  | None => None
  end.

Notation "'do' x <- e ; k" := (bind e (fun x => k))
  (at level 10, x name, e at level 100, k at level 200).
Notation "'do' ' p <- e ; k" := (bind e (fun p => k))
  (at level 10, p pattern, e at level 100, k at level 200).

Definition guard (b : bool) : option unit := if b then Some tt else None.

(** Byte constants that a Rocq string literal cannot escape. *)
Definition TAB : ascii := "009"%char.
Definition LF : ascii := "010"%char.
Definition CR : ascii := "013"%char.
Definition CRLF : string := String CR (String LF EmptyString).

(** [s[a:b]] on a byte string, for [a <= b <= len(s)]. *)
Definition slice (s : string) (a b : nat) : string := substring a (b - a) s.

(** [s[a:]] *)
Definition slice_from (s : string) (a : nat) : string :=
  substring a (String.length s - a) s.

Definition isDigit (c : ascii) : bool :=
  (48 <=? nat_of_ascii c)%nat && (nat_of_ascii c <=? 57)%nat.

Fixpoint allDigits (s : string) : bool :=
  match s with
  | EmptyString => true
  | String c s' => isDigit c && allDigits s'
  end.

(** Value of a string of decimal digits. *)
Fixpoint atoi_acc (s : string) (acc : Z) : Z :=
  match s with
  | EmptyString => acc
  | String c s' => atoi_acc s' (10 * acc + (Z.of_nat (nat_of_ascii c) - 48))
  end.

Definition atoi (s : string) : Z := atoi_acc s 0.

(** [fmt.Sprintf("%d", n)] *)
Definition itoa (n : Z) : string := NilZero.string_of_int (Z.to_int n).

Fixpoint zeros (n : nat) : string :=
  match n with
  | O => EmptyString
  | S n' => String "0" (zeros n')
  end.

(** [fmt.Sprintf("%0<width>d", n)] for [0 <= n]. *)
Definition pad (width : nat) (n : Z) : string :=
  let d := itoa n in (zeros (width - String.length d) ++ d)%string.

(** An integer result reduced to int64, two's complement. *)
Definition wrap64 (x : Z) : Z := (x + 2 ^ 63) mod 2 ^ 64 - 2 ^ 63.

(** ** Package [strings] *)

Module strings.

(** [strings.Split(s, sep)] for a one-byte separator, the only kind this
    program passes. *)
Fixpoint Split (s : string) (sep : ascii) : list string :=
  match s with
  | EmptyString => [EmptyString]
  | String c s' =>
      if Ascii.eqb c sep then EmptyString :: Split s' sep
      else match Split s' sep with
           | f :: fs => String c f :: fs
           | [] => [String c EmptyString]
           end
  end.

(** [strings.Join(elems, sep)] *)
Definition Join (elems : list string) (sep : string) : string :=
  String.concat sep elems.

End strings.

(** ** Package [bufio]: the tokens of a Scanner with the default
    [ScanLines] split function and the default buffer. *)

Module bufio.

(** [bufio.MaxScanTokenSize]: the most the buffer of a Scanner grows to. *)
Definition MaxScanTokenSize : Z := 64 * 1024.

Fixpoint dropCR (s : string) : string :=
  match s with
  | EmptyString => EmptyString
  | String c EmptyString => if Ascii.eqb c CR then EmptyString else s
  | String c s' => String c (dropCR s')
  end.

(** The lines of [text] as the split function looks for them: the
    bytes between line feeds, and the bytes after the last line feed when
    there are any. *)
Definition rawLines (text : string) : list string :=
  let parts := strings.Split text LF in
  match last parts EmptyString with
  | EmptyString => removelast parts
  | _ => parts
  end.

(** A line the buffer can hold: the split function finds a token only
    when the line and its line feed are in the buffer together (a last
    line without line feed, when the buffer is not full at the end of the
    input), so the line has fewer bytes than the buffer. *)
Definition fits (raw : string) : bool :=
  Z.of_nat (String.length raw) <? MaxScanTokenSize.

(** The lines before the first one that does not fit: there [Scan]
    answers false, with [ErrTooLong], and the rest of the input is not
    read. *)
Fixpoint delivered (raws : list string) : list string :=
  match raws with
  | [] => []
  | raw :: rest => if fits raw then raw :: delivered rest else []
  end.

(** The tokens of the calls of [Scan] that answer true. *)
Definition ScanLines (text : string) : list string :=
  map dropCR (delivered (rawLines text)).

(** [sc.Err()] after [Scan] has answered false. *)
Definition Err (text : string) : error :=
  if forallb fits (rawLines text) then None
  else Some "bufio.Scanner: token too long"%string.

End bufio.

(** ** Package [unicode/utf8] *)

Module utf8.

(** [utf8.RuneError], U+FFFD. *)
Definition RuneError : Z := 65533.

Definition byte (c : ascii) : Z := Z.of_nat (nat_of_ascii c).

(** The table [first] and the accept ranges: for a lead byte, the size
    of its sequence and the range of the second byte; [None] for an ASCII
    byte and for a byte that starts no sequence. *)
Definition lead (s0 : Z) : option (nat * Z * Z) :=
  if s0 <? 194 then None
  else if s0 <=? 223 then Some (2%nat, 128, 191)
  else if s0 =? 224 then Some (3%nat, 160, 191)
  else if s0 <=? 236 then Some (3%nat, 128, 191)
  else if s0 =? 237 then Some (3%nat, 128, 159)
  else if s0 <=? 239 then Some (3%nat, 128, 191)
  else if s0 =? 240 then Some (4%nat, 144, 191)
  else if s0 <=? 243 then Some (4%nat, 128, 191)
  else if s0 =? 244 then Some (4%nat, 128, 143)
  else None.

(** A continuation byte, 0x80 to 0xBF. *)
Definition cont (b : Z) : bool := (128 <=? b) && (b <=? 191).

(** [utf8.DecodeRuneInString(s)]: the first rune of [s] and its width in
    bytes; [(RuneError, 1)] for a byte that is not the start of a valid
    sequence, [(RuneError, 0)] for the empty string. *)
Definition DecodeRuneInString (s : string) : Z * nat :=
  match s with
  | EmptyString => (RuneError, 0%nat)
  | String c0 t0 =>
      let s0 := byte c0 in
      match lead s0 with
      | None => (if s0 <? 128 then s0 else RuneError, 1%nat)
      | Some (sz, lo, hi) =>
          if (String.length s <? sz)%nat then (RuneError, 1%nat)
          else
            match t0 with
            | EmptyString => (RuneError, 1%nat)
            | String c1 t1 =>
                let s1 := byte c1 in
                if (s1 <? lo) || (hi <? s1) then (RuneError, 1%nat)
                else if (sz <=? 2)%nat
                then (Z.lor (Z.shiftl (Z.land s0 31) 6) (Z.land s1 63), 2%nat)
                else
                  match t1 with
                  | EmptyString => (RuneError, 1%nat)
                  | String c2 t2 =>
                      let s2 := byte c2 in
                      if negb (cont s2) then (RuneError, 1%nat)
                      else if (sz <=? 3)%nat
                      then (Z.lor (Z.lor (Z.shiftl (Z.land s0 15) 12)
                                         (Z.shiftl (Z.land s1 63) 6))
                                  (Z.land s2 63), 3%nat)
                      else
                        match t2 with
                        | EmptyString => (RuneError, 1%nat)
                        | String c3 _ =>
                            let s3 := byte c3 in
                            if negb (cont s3) then (RuneError, 1%nat)
                            else (Z.lor (Z.lor (Z.lor (Z.shiftl (Z.land s0 7) 18)
                                                      (Z.shiftl (Z.land s1 63) 12))
                                               (Z.shiftl (Z.land s2 63) 6))
                                        (Z.land s3 63), 4%nat)
                        end
                  end
            end
      end
  end.

End utf8.

(** ** Package [filepath] (Unix separators) *)

Module filepath.

Fixpoint stripTrailingSlashes (s : string) : string :=
  match s with
  | EmptyString => EmptyString
  | String c s' =>
      match stripTrailingSlashes s' with
      | EmptyString => if Ascii.eqb c "/" then EmptyString else String c EmptyString
      | r => String c r
      end
  end.

(** The text after the last slash. *)
Fixpoint lastElement (s : string) : string :=
  match s with
  | EmptyString => EmptyString
  | String c s' =>
      if existsb (Ascii.eqb "/"%char) (list_ascii_of_string s') then lastElement s'
      else if Ascii.eqb c "/" then s' else s
  end.

(** [filepath.Base(path)] *)
Definition Base (path : string) : string :=
  match path with
  | EmptyString => "."%string
  | _ =>
      match stripTrailingSlashes path with
      | EmptyString => "/"%string
      | p => lastElement p
      end
  end.

(** The loop of [Clean] over the elements of a path, the text between
    its slashes; [out] holds the elements kept so far, the last one first.
    An empty element and [.] are dropped; [..] takes back the element
    before it when there is one that is not [..] itself, is dropped at the
    root, and is kept at the start of a path that is not rooted. *)
Fixpoint cleanElems (rooted : bool) (elems out : list string) : list string :=
  match elems with
  | [] => rev out
  | e :: rest =>
      if String.eqb e EmptyString || String.eqb e "." then cleanElems rooted rest out
      else if String.eqb e ".." then
        match out with
        | top :: out' =>
            if String.eqb top ".." then cleanElems rooted rest (e :: out)
            else cleanElems rooted rest out'
        | [] => if rooted then cleanElems rooted rest out else cleanElems rooted rest [e]
        end
      else cleanElems rooted rest (e :: out)
  end.

(** [filepath.Clean(path)]: the shortest path name equivalent to [path]
    by purely lexical processing. *)
Definition Clean (path : string) : string :=
  match path with
  | EmptyString => "."%string
  | String c _ =>
      let rooted := Ascii.eqb c "/" in
      let body := String.concat "/" (cleanElems rooted (strings.Split path "/") []) in
      if rooted then String "/" body
      else match body with
           | EmptyString => "."%string
           | _ => body
           end
  end.

(** [filepath.Join(elem...)]: the elements from the first that is not
    empty on, joined by slashes and cleaned; the empty string when every
    element is empty. *)
Fixpoint Join (elem : list string) : string :=
  match elem with
  | [] => EmptyString
  | e :: rest =>
      if String.eqb e EmptyString then Join rest else Clean (strings.Join elem "/")
  end.

(** [filepath.Separator] *)
Definition Separator : ascii := "/".

(** [getEsc] gets a possibly escaped character from the chunk of a
    character class; [None] is [ErrBadPattern]. *)
Definition getEsc (chunk : string) : option (Z * string) :=
  match chunk with
  | EmptyString => None
  | String c t =>
      if Ascii.eqb c "-" || Ascii.eqb c "]" then None
      else
        let chunk := if Ascii.eqb c "\" then t else chunk in
        match chunk with
        | EmptyString => None
        | _ =>
            let '(r, n) := utf8.DecodeRuneInString chunk in
            let nchunk := slice_from chunk n in
            if ((r =? utf8.RuneError) && (n =? 1)%nat) || (String.length nchunk =? 0)%nat
            then None
            else Some (r, nchunk)
        end
  end.

(** The loop of [matchChunk] over the ranges of a character class, for
    the rune [r]; [nrange] ranges were read and [matched] tells whether one
    of them holds [r]. It answers [matched] and the chunk after the closing
    bracket; [None] is [ErrBadPattern]. Every turn takes a byte of the
    chunk at least: with [fuel] above the length of the chunk the fuel
    is not spent. *)
Fixpoint classRanges (fuel : nat) (chunk : string) (r : Z) (nrange : nat) (matched : bool)
  : option (bool * string) :=
  match fuel with
  | O => None
  | S fuel' =>
      let closing :=
        match chunk with
        | String c _ => Ascii.eqb c "]" && (0 <? nrange)%nat
        | EmptyString => false
        end in
      if closing then Some (matched, slice_from chunk 1)
      else
        match getEsc chunk with
        | None => None
        | Some (lo, chunk) =>
            match chunk with
            | String "-" t =>
                match getEsc t with
                | None => None
                | Some (hi, chunk) =>
                    classRanges fuel' chunk r (S nrange)
                      (matched || ((lo <=? r) && (r <=? hi)))
                end
            | _ =>
                classRanges fuel' chunk r (S nrange)
                  (matched || ((lo <=? r) && (r <=? lo)))
            end
        end
  end.

(** [matchChunk(chunk, s)]: whether [chunk], a pattern without [*],
    matches at the start of [s], and the rest of [s] then. [failed]
    records that the match has failed; the loop goes on over the chunk to
    check that the pattern is well formed. [Some (Some rest)]: a match;
    [Some None]: no match; [None]: [ErrBadPattern]. *)
Fixpoint matchChunk (fuel : nat) (chunk s : string) (failed : bool)
  : option (option string) :=
  match fuel with
  | O => None
  | S fuel' =>
      match chunk with
      | EmptyString => Some (if failed then None else Some s)
      | String c t =>
          let failed := failed || (String.length s =? 0)%nat in
          if Ascii.eqb c "[" then
            let '(r, s) :=
              if failed then (0, s)
              else let '(r, n) := utf8.DecodeRuneInString s in (r, slice_from s n) in
            let '(negated, chunk) :=
              match t with
              | String "^" t' => (true, t')
              | _ => (false, t)
              end in
            match classRanges (S (String.length chunk)) chunk r 0 false with
            | None => None
            | Some (matched, chunk) =>
                matchChunk fuel' chunk s (failed || Bool.eqb matched negated)
            end
          else if Ascii.eqb c "?" then
            if failed then matchChunk fuel' t s failed
            else
              let '(_, n) := utf8.DecodeRuneInString s in
              matchChunk fuel' t (slice_from s n)
                (match s with String s0 _ => Ascii.eqb s0 Separator | EmptyString => false end)
          else
            let chunk := if Ascii.eqb c "\" then t else chunk in
            match chunk with
            | EmptyString => None
            | String c t =>
                if failed then matchChunk fuel' t s failed
                else
                  matchChunk fuel' t (slice_from s 1)
                    (match s with
                     | String s0 _ => negb (Ascii.eqb c s0)
                     | EmptyString => false
                     end)
            end
      end
  end.

(** [filepath.Match(pattern, name)] for a pattern without [*], the only
    kind this program passes: the pattern is one chunk, and it must match
    the whole name. [None] is [ErrBadPattern]. *)
Definition Match (pattern name : string) : option bool :=
  match pattern with
  | EmptyString => Some (String.length name =? 0)%nat
  | _ =>
      match matchChunk (S (String.length pattern)) pattern name false with
      | None => None
      | Some None => Some false
      | Some (Some t) => Some (String.length t =? 0)%nat
      end
  end.

End filepath.

(** ** Package [time] *)

Module time.

Definition Time := Z.
Definition Duration := Z.

Definition Second : Duration := 1000000000.
Definition maxDuration : Duration := 2 ^ 63 - 1.
Definition minDuration : Duration := - 2 ^ 63.

(** [time.Time{}] *)
Definition zero : Time := 0.

Definition Before (t u : Time) : bool := t <? u.
Definition Equal (t u : Time) : bool := t =? u.
Definition IsZero (t : Time) : bool := t =? 0.

(** [t.Truncate(d)]: round down to a multiple of [d] since the zero Time;
    [t] itself when [d <= 0]. *)
Definition Truncate (t : Time) (d : Duration) : Time :=
  if d <=? 0 then t else t - t mod d.

(** [t.Sub(u)]: the difference, saturated to the Duration range. *)
Definition Sub (t u : Time) : Duration :=
  let d := t - u in
  if (minDuration <=? d) && (d <=? maxDuration) then d
  else if Before t u then minDuration else maxDuration.

Definition Add (t : Time) (d : Duration) : Time := t + d.

(** *** Calendar (proleptic Gregorian, UTC) *)

Definition isLeap (year : Z) : bool :=
  (year mod 4 =? 0) && (negb (year mod 100 =? 0) || (year mod 400 =? 0)).

(** Days from January 1, year 1 to January 1 of [year]. *)
Definition daysBeforeYear (year : Z) : Z :=
  let y := year - 1 in 365 * y + y / 4 - y / 100 + y / 400.

(** Days of a non-leap year before the first of [month]. *)
Definition daysBefore (month : Z) : Z :=
  nth (Z.to_nat (month - 1)) [0; 31; 59; 90; 120; 151; 181; 212; 243; 273; 304; 334] 0.

Definition daysIn (month year : Z) : Z :=
  if (month =? 2) && isLeap year then 29
  else nth (Z.to_nat (month - 1)) [31; 28; 31; 30; 31; 30; 31; 31; 30; 31; 30; 31] 0.

(** [time.Date(year, month, day, hour, min, sec, nsec, time.UTC)] for
    arguments in their usual ranges. *)
Definition Date (year month day hour min sec nsec : Z) : Time :=
  let days :=
    daysBeforeYear year + daysBefore month
    + (if isLeap year && (3 <=? month) then 1 else 0) + (day - 1) in
  (days * 86400 + hour * 3600 + min * 60 + sec) * Second + nsec.

(** Days since January 1, year 1. *)
Definition absDays (t : Time) : Z := t / (86400 * Second).

(** Year and zero-based day of the year of an instant. *)
Definition absDate (t : Time) : Z * Z :=
  let d := absDays t in
  let n400 := d / 146097 in
  let d := d mod 146097 in
  let n100 := Z.min (d / 36524) 3 in
  let d := d - 36524 * n100 in
  let n4 := d / 1461 in
  let d := d mod 1461 in
  let n1 := Z.min (d / 365) 3 in
  (400 * n400 + 100 * n100 + 4 * n4 + n1 + 1, d - 365 * n1).

Definition Year (t : Time) : Z := fst (absDate t).
Definition YearDay (t : Time) : Z := snd (absDate t) + 1.

(** *** [time.Parse(time.RFC3339, value)]

    The layout is [2006-01-02T15:04:05Z07:00]. As in Go, the hour may
    have one or two digits, a fraction of a second may follow the
    seconds, and the zone is [Z] or a signed [hh:mm] offset. A failed
    parse answers the zero Time and an error. *)

(** Exactly [n] leading digits. *)
Definition digits (n : nat) (s : string) : option (Z * string) :=
  let p := substring 0 n s in
  if (String.length p =? n)%nat && allDigits p
  then Some (atoi p, slice_from s n) else None.

(** [getnum(s, false)]: one or two leading digits. *)
Definition getnum (s : string) : option (Z * string) :=
  match digits 2 s with
  | Some r => Some r
  | None => digits 1 s
  end.

Definition expect (c : ascii) (s : string) : option string :=
  match s with
  | String a s' => if Ascii.eqb a c then Some s' else None
  | EmptyString => None
  end.

(** The maximal run of leading digits. *)
Fixpoint spanDigits (s : string) : string * string :=
  match s with
  | String c s' =>
      if isDigit c then let (d, r) := spanDigits s' in (String c d, r)
      else (EmptyString, s)
  | EmptyString => (EmptyString, EmptyString)
  end.

Fixpoint scale10 (n : nat) (x : Z) : Z :=
  match n with
  | O => x
  | S n' => scale10 n' (10 * x)
  end.

(** An optional fraction of a second, in nanoseconds: a period and at
    least one digit, of which the first nine count. *)
Definition fraction (s : string) : Z * string :=
  match s with
  | String "." s' =>
      match spanDigits s' with
      | (EmptyString, _) => (0, s)
      | (d, r) =>
          let d9 := substring 0 9 d in
          (scale10 (9 - String.length d9) (atoi d9), r)
      end
  | _ => (0, s)
  end.

(** The zone, in seconds east of UTC. *)
Definition zone (s : string) : option (Z * string) :=
  match s with
  | String "Z" s' => Some (0, s')
  | String sg s' =>
      do _ <- guard (Ascii.eqb sg "+" || Ascii.eqb sg "-");
      do '(hr, s1) <- digits 2 s';
      do s2 <- expect ":" s1;
      do '(mm, s3) <- digits 2 s2;
      let off := (hr * 60 + mm) * 60 in
      Some (if Ascii.eqb sg "-" then - off else off, s3)
  | EmptyString => None
  end.

Definition parseRFC3339 (value : string) : option Time :=
  do '(year, s) <- digits 4 value;
  do s <- expect "-" s;
  do '(month, s) <- digits 2 s;
  do _ <- guard ((1 <=? month) && (month <=? 12));
  do s <- expect "-" s;
  do '(day, s) <- digits 2 s;
  do s <- expect "T" s;
  do '(hour, s) <- getnum s;
  do _ <- guard (hour <? 24);
  do s <- expect ":" s;
  do '(min, s) <- digits 2 s;
  do _ <- guard (min <? 60);
  do s <- expect ":" s;
  do '(sec, s) <- digits 2 s;
  do _ <- guard (sec <? 60);
  let '(nsec, s) := fraction s in
  do '(off, s) <- zone s;
  do _ <- guard (String.eqb s EmptyString);
  do _ <- guard ((1 <=? day) && (day <=? daysIn month year));
  Some (Date year month day hour min sec nsec - off * Second).

(** Month and day of the month of day [yday] (from zero) of a year whose
    months have the lengths [months]. *)
Fixpoint monthDay (months : list Z) (month yday : Z) : Z * Z :=
  match months with
  | [] => (month, yday + 1)
  | n :: rest =>
      if yday <? n then (month, yday + 1) else monthDay rest (month + 1) (yday - n)
  end.

(** [t.UTC().Format(time.RFC3339)], for the years 0 to 9999. *)
Definition Format_RFC3339 (t : Time) : string :=
  let '(year, yday) := absDate t in
  let '(month, day) :=
    monthDay (map (fun m => daysIn m year) [1; 2; 3; 4; 5; 6; 7; 8; 9; 10; 11; 12]) 1 yday in
  let secs := (t / Second) mod 86400 in
  (pad 4 year ++ "-" ++ pad 2 month ++ "-" ++ pad 2 day ++ "T"
   ++ pad 2 (secs / 3600) ++ ":" ++ pad 2 (secs mod 3600 / 60) ++ ":"
   ++ pad 2 (secs mod 60) ++ "Z")%string.

Definition Parse_RFC3339 (value : string) : Time * error :=
  match parseRFC3339 value with
  | Some t => (t, None)
  | None => (zero, Some ("parsing time " ++ value)%string)
  end.

End time.

(** ** [float64] (IEEE 754 binary64) and its conversions to and from int64 *)

Module float64.

Definition t := spec_float.
Definition prec : Z := 53.
Definition emax : Z := 1024.

(** [float64(n)], rounding to nearest even. *)
Definition of_int64 (n : Z) : t := binary_normalize prec emax n 0 false.

Definition div (x y : t) : t := SFdiv prec emax x y.

(** The integer part of a finite value, toward zero. *)
Definition trunc (x : t) : option Z :=
  match x with
  | S754_zero _ => Some 0
  | S754_finite sg m e =>
      let a := if 0 <=? e then Zpos m * 2 ^ e else Zpos m / 2 ^ (- e) in
      Some (if sg then - a else a)
  | _ => None
  end.

Definition fits_int64 (z : Z) : bool := (- 2 ^ 63 <=? z) && (z <=? 2 ^ 63 - 1).

(** Go leaves the conversion of a NaN, an infinity or an out-of-range
    value to the implementation. build.sh compiles for GOARCH=amd64 only,
    where the conversion instruction answers the "integer indefinite"
    value 0x8000000000000000. *)
Definition int64_indefinite : Z := - 2 ^ 63.

(** [int64(x)] *)
Definition to_int64 (x : t) : Z :=
  match trunc x with
  | Some z => if fits_int64 z then z else int64_indefinite
  | None => int64_indefinite
  end.

(** A finite value greater than zero. *)
Definition positive_finite (x : t) : bool :=
  match x with
  | S754_finite false _ _ => valid_binary prec emax x
  | _ => false
  end.

End float64.

(** ** Package [sort] *)

Module sort.

Section SliceStable.
Context {A : Type} (less : A -> A -> bool).

Fixpoint insert (x : A) (l : list A) : list A :=
  match l with
  | [] => [x]
  | y :: l' => if less y x then y :: insert x l' else x :: l
  end.

(** [sort.SliceStable(l, less)], by its contract: a stable sort. An
    insertion sort that puts an element in front of the later elements it
    is not greater than; on a strict weak order every stable sort,
    including Go's block insertion sort with in-place merging, computes
    this list. *)
Definition SliceStable (l : list A) : list A := fold_right insert [] l.

End SliceStable.

End sort.

(** ** Package [os] and the outside world

    Files are a list of (path, content), the first entry of a path being
    the file; directories are not kept. A file is known by the spelling
    of its path: there are no links, and no two spellings of one path.
    The files listed are the ones that can be opened for reading; opening
    any other fails. Whether the system refuses to make a directory, to
    open or create a file for writing, or to go on with a copy or a write
    does not follow from the files: it is asked of [Faults]. *)

Module os.

Record File := { Name : string; closed : bool }.

Definition FS := list (string * string).

(** What the system refuses. [MkdirAll_err], [OpenFile_err] and
    [Create_err] answer the error of the call on a path, with the disk as
    it is, [None] when the call succeeds. [Copy_err disk src dst] tells
    where [io.Copy] from [src] to [dst] stops: [None] when it copies
    everything, [Some (n, err)] when it answers [err] after [n] bytes.
    [WriteString_n disk path text] tells where a write of [text] to the
    open file [path] stops: [None] when all of it is written, [Some n]
    when the write fails after [n] bytes. *)
Class Faults := {
  MkdirAll_err : FS -> string -> error;
  OpenFile_err : FS -> string -> error;
  Create_err : FS -> string -> error;
  Copy_err : FS -> string -> string -> option (nat * string);
  WriteString_n : FS -> string -> string -> option nat
}.

(** The system that refuses nothing: where no other is given, this is
    the one meant. *)
#[global] Instance reliable : Faults := {|
  MkdirAll_err := fun _ _ => None;
  OpenFile_err := fun _ _ => None;
  Create_err := fun _ _ => None;
  Copy_err := fun _ _ _ => None;
  WriteString_n := fun _ _ _ => None
|}.

Fixpoint ReadFile (fs : FS) (path : string) : option string :=
  match fs with
  | [] => None
  | (p, c) :: fs' => if String.eqb p path then Some c else ReadFile fs' path
  end.

(** The disk after [os.Create(path)] has succeeded and [content] was
    written to the file: the file is created, or truncated first. *)
Fixpoint Create (fs : FS) (path content : string) : FS :=
  match fs with
  | [] => [(path, content)]
  | (p, c) :: fs' =>
      if String.eqb p path then (p, content) :: fs' else (p, c) :: Create fs' path content
  end.

Fixpoint Append (fs : FS) (path text : string) : FS :=
  match fs with
  | [] => [(path, text)]
  | (p, c) :: fs' =>
      if String.eqb p path then (p, (c ++ text)%string) :: fs' else (p, c) :: Append fs' path text
  end.

(** [os.OpenFile(path, O_CREATE|O_APPEND|O_WRONLY, perm)] when it
    succeeds. *)
Definition OpenFile (fs : FS) (path : string) : File * FS :=
  ({| Name := path; closed := false |}, Append fs path EmptyString).

(** [f.WriteString(text)]; a closed file takes nothing, a write that
    fails leaves what it wrote. (The callers drop the error of the
    write.) *)
Definition WriteString {F : Faults} (f : File) (fs : FS) (text : string) : FS :=
  if closed f then fs
  else
    match WriteString_n fs (Name f) text with
    | Some n => Append fs (Name f) (substring 0 n text)
    | None => Append fs (Name f) text
    end.

(** [f.Close()]: an error if the file is closed already. *)
Definition Close (f : File) : error * File :=
  if closed f then (Some ("close " ++ Name f ++ ": file already closed")%string, f)
  else (None, {| Name := Name f; closed := true |}).

End os.

(** ** Package [net]: a connected UDP socket *)

Module net.

Record Conn := { closed : bool }.

(** What the network refuses: [Write_err sent b] is the error of
    [conn.Write(b)] on an open connection after the datagrams [sent]
    (a datagram too long for the protocol, a destination that cannot be
    reached), [None] when the datagram is sent. *)
Class Faults := {
  Write_err : list string -> string -> error
}.

(** The network that refuses nothing: where no other is given, this is
    the one meant. *)
#[global] Instance reliable : Faults := {|
  Write_err := fun _ _ => None
|}.

(** [c.Close()]: an error if the connection is closed already. *)
Definition Close (c : Conn) : error * Conn :=
  if closed c then (Some "use of closed network connection"%string, c)
  else (None, {| closed := true |}).

End net.

(** What a replay leaves behind: the files on disk and the datagrams sent. *)
Record World := { fs : os.FS; sent : list string }.

(** ** Package [feeds] *)

Module Warning.
Record t := { err : string }.
End Warning.

(** [fmt.Sprintf("%d_%03d", t.Year(), t.YearDay())] *)
Definition doyDir (t : time.Time) : string :=
  (itoa (time.Year t) ++ "_" ++ pad 3 (time.YearDay t))%string.

(** *** feeds.go *)

(** The submatches of
    [^(\d{4}-\d{2}-\d{2}T\d{2})-(\d{2})-(\d{2}(?:\.\d+)?)(?:.+)?$]
    on [s]: three groups, the third with the longest fraction; the rest of
    the name is free but holds no line feed. *)
Definition FindStringSubmatch (s : string) : option (string * string * string) :=
  let g1 := slice s 0 13 in
  let g2 := slice s 14 16 in
  let g3 := slice s 17 19 in
  let rest := slice_from s 19 in
  let shape :=
    (String.length g1 =? 13)%nat
    && allDigits (slice s 0 4) && String.eqb (slice s 4 5) "-"
    && allDigits (slice s 5 7) && String.eqb (slice s 7 8) "-"
    && allDigits (slice s 8 10) && String.eqb (slice s 10 11) "T"
    && allDigits (slice s 11 13) && String.eqb (slice s 13 14) "-"
    && (String.length g2 =? 2)%nat && allDigits g2
    && String.eqb (slice s 16 17) "-"
    && (String.length g3 =? 2)%nat && allDigits g3 in
  if negb shape then None
  else
    let '(g3, rest) :=
      match rest with
      | String "." r =>
          match time.spanDigits r with
          | (EmptyString, _) => (g3, rest)
          | (d, r') => ((g3 ++ "." ++ d)%string, r')
          end
      | _ => (g3, rest)
      end in
    if existsb (Ascii.eqb LF) (list_ascii_of_string rest) then None
    else Some (g1, g2, g3).

(** timeFromFilename parses a SeaFlow timestamped filename, taking every
    time as UTC whatever zone designator follows. *)
Definition timeFromFilename (fn : string) : time.Time * error :=
  let fnbase := filepath.Base fn in
  match FindStringSubmatch fnbase with
  | None => (time.zero, Some ("file timtestamp could not be parsed for " ++ fn)%string)
  | Some (s1, s2, s3) =>
      let ts := (s1 ++ ":" ++ s2 ++ ":" ++ s3 ++ "+00:00")%string in
      time.Parse_RFC3339 ts
  end.

(** *** Finding the files

    [filepath.WalkDir] is taken as the calls it makes of the function it
    is given, one [visit] per call: the path, the directory entry ([None]
    for a nil entry) and the error. *)

Module fs.
Record DirEntry := { Name : string; IsDir : bool }.
End fs.

Record visit := { walkPath : string; d : option fs.DirEntry; walkErr : error }.

(** [filepath.WalkDir]: the walk ends at the first call that answers an
    error, with that error. [None]: a call has panicked. *)
Fixpoint WalkDir (visits : list visit)
    (fn : visit -> list string -> option (list string * error)) (files : list string)
  : option (list string * error) :=
  match visits with
  | [] => Some (files, None)
  | v :: rest =>
      match fn v files with
      | None => None
      | Some (files, Some err) => Some (files, Some err)
      | Some (files, None) => WalkDir rest fn files
      end
  end.

Definition evtPattern : string := "????-??-??T??-??-??[\-\+]??-??".
Definition evtPatterngz : string := (evtPattern ++ ".gz")%string.
Definition sflPattern : string := "????-??-??T??-??-??[\-\+]??-??.sfl".

(** The function FindEVTFiles passes to WalkDir. [None]: a panic, on a
    bad pattern or on a nil entry. *)
Definition FindEVTFiles_fn (v : visit) (files : list string) : option (list string * error) :=
  match walkErr v with
  | Some err =>
      match d v with
      | None => Some (files, Some err)
      | Some _ => Some (files, None)
      end
  | None =>
      do entry <- d v;
      if negb (fs.IsDir entry) then
        do found <- filepath.Match evtPattern (fs.Name entry);
        if found then Some (files ++ [walkPath v], None)
        else
          do found <- filepath.Match evtPatterngz (fs.Name entry);
          if found then Some (files ++ [walkPath v], None) else Some (files, None)
      else Some (files, None)
  end.

(** [FindEVTFiles(dir)], for the calls WalkDir makes on [dir]. *)
Definition FindEVTFiles (visits : list visit) : option (list string * error) :=
  WalkDir visits FindEVTFiles_fn [].

(** The function FindSFLFiles passes to WalkDir. *)
Definition FindSFLFiles_fn (v : visit) (files : list string) : option (list string * error) :=
  match walkErr v with
  | Some err =>
      match d v with
      | None => Some (files, Some err)
      | Some _ => Some (files, None)
      end
  | None =>
      do entry <- d v;
      if negb (fs.IsDir entry) then
        do found <- filepath.Match sflPattern (fs.Name entry);
        if found then Some (files ++ [walkPath v], None) else Some (files, None)
      else Some (files, None)
  end.

(** [FindSFLFiles(dir)], for the calls WalkDir makes on [dir]. *)
Definition FindSFLFiles (visits : list visit) : option (list string * error) :=
  WalkDir visits FindSFLFiles_fn [].

(** *** The EVT feed: [Evt] *)

Module evtFile.
Record t := { time : time.Time; path : string }.
End evtFile.

Module Evt.

Record t := {
  i : Z;
  data : list evtFile.t;
  outDir : string;
  warnings : list Warning.t
}.

Definition set_i (e : t) (n : Z) : t :=
  {| i := n; data := data e; outDir := outDir e; warnings := warnings e |}.

Definition less (a b : evtFile.t) : bool :=
  time.Before (evtFile.time a) (evtFile.time b).

(** The loop of NewEvt over [files]. *)
Fixpoint ingest (files : list string) (e : t) : t :=
  match files with
  | [] => e
  | f :: rest =>
      let '(t0, err) := timeFromFilename f in
      let ws :=
        match err with
        | Some msg =>
            warnings e ++ [ {| Warning.err := "evt: bad timestamp in " ++ f ++ ": " ++ msg |} ]
        | None => warnings e
        end in
      let ef := {| evtFile.path := f; evtFile.time := t0 |} in
      ingest rest {| i := i e; data := data e ++ [ef]; outDir := outDir e; warnings := ws |}
  end.

Definition NewEvt (files : list string) (outDir0 : string) : t * error :=
  let e := ingest files {| i := -1; data := []; outDir := outDir0; warnings := [] |} in
  ({| i := i e; data := sort.SliceStable less (data e);
      outDir := outDir e; warnings := warnings e |}, None).

Definition Close (e : t) : error * t := (None, e).

Definition Earliest (e : t) : time.Time :=
  match data e with
  | r :: _ => evtFile.time r
  | [] => time.zero
  end.

(** [None]: indexing past the data, a run-time panic. (In [Time] below
    the same index answers the zero Time instead; the cursor never gets
    there, see [Next].) *)
Definition Emit {F : os.Faults} (e : t) (w : World) : option (error * t * World) :=
  if i e <? 0 then Some (None, e, w)
  else
    match nth_error (data e) (Z.to_nat (i e)) with
    | None => None
    | Some r =>
        let dir := filepath.Join [outDir e; "datafiles"; "evt"; doyDir (evtFile.time r)]%string in
        match os.MkdirAll_err (fs w) dir with
        | Some err => Some (Some ("evt: " ++ err)%string, e, w)
        | None =>
            let outPath := filepath.Join [dir; filepath.Base (evtFile.path r)] in
            (* src, err := os.Open(e.data[e.i].path) *)
            match os.ReadFile (fs w) (evtFile.path r) with
            | None =>
                Some (Some ("evt: open " ++ evtFile.path r
                            ++ ": no such file or directory")%string, e, w)
            | Some _ =>
                (* dst, err := os.Create(outPath): the file is truncated *)
                match os.Create_err (fs w) outPath with
                | Some err => Some (Some ("evt: " ++ err)%string, e, w)
                | None =>
                    let disk := os.Create (fs w) outPath EmptyString in
                    (* io.Copy(dst, src) reads the source as it is now *)
                    let bytes :=
                      match os.ReadFile disk (evtFile.path r) with
                      | Some b => b
                      | None => EmptyString
                      end in
                    match os.Copy_err disk (evtFile.path r) outPath with
                    | Some (n, err) =>
                        Some (Some ("evt: " ++ err)%string, e,
                              {| fs := os.Create disk outPath (substring 0 n bytes);
                                 sent := sent w |})
                    | None =>
                        Some (None, e, {| fs := os.Create disk outPath bytes; sent := sent w |})
                    end
                end
            end
        end
    end.

Definition Time (e : t) : time.Time :=
  if (0 <=? i e) && (0 <? len (data e))
  then match nth_error (data e) (Z.to_nat (i e)) with
       | Some r => evtFile.time r
       | None => time.zero
       end
  else time.zero.

Definition Next (e : t) : bool * t :=
  if i e + 1 <? len (data e) then (true, set_i e (i e + 1)) else (false, e).

Definition Warnings (e : t) : list Warning.t := warnings e.

Definition Name (e : t) : string := "evt".

Definition Len (e : t) : Z := len (data e).

End Evt.

(** *** The SFL feed: [Sfl] *)

Module sflRecord.
Record t := { time : time.Time; idx : Z; data : string }.
End sflRecord.

Module Sfl.

Record t := {
  i : Z;
  data : list sflRecord.t;
  paths : list string;
  outDir : string;
  file : option os.File;
  warnings : list Warning.t
}.

Definition set_i (s : t) (n : Z) : t :=
  {| i := n; data := data s; paths := paths s; outDir := outDir s;
     file := file s; warnings := warnings s |}.

Definition set_file (s : t) (f : option os.File) : t :=
  {| i := i s; data := data s; paths := paths s; outDir := outDir s;
     file := f; warnings := warnings s |}.

Definition add_path (s : t) (f : string) : t :=
  {| i := i s; data := data s; paths := paths s ++ [f]; outDir := outDir s;
     file := file s; warnings := warnings s |}.

Definition add_data (s : t) (r : sflRecord.t) : t :=
  {| i := i s; data := data s ++ [r]; paths := paths s; outDir := outDir s;
     file := file s; warnings := warnings s |}.

Definition add_warning (s : t) (msg : string) : t :=
  {| i := i s; data := data s; paths := paths s; outDir := outDir s;
     file := file s; warnings := warnings s ++ [ {| Warning.err := msg |} ] |}.

Definition less (a b : sflRecord.t) : bool :=
  time.Before (sflRecord.time a) (sflRecord.time b).

(** The scanner loop of NewSfl over the lines of file [f], number [idx]
    of the list; [lineNum] lines were read before. *)
Fixpoint scanFile (f : string) (idx : Z) (lines : list string)
    (lineNum : Z) (header : string) (s : t) : t :=
  match lines with
  | [] => s
  | lineText :: rest =>
      let lineNum := lineNum + 1 in
      if lineNum =? 1 then scanFile f idx rest lineNum lineText (add_path s f)
      else
        let cols := strings.Split lineText TAB in
        let col0 := nth 0 cols EmptyString in
        if (1 <? len cols) && (String.length col0 =? 25)%nat then
          let tstamp := (slice col0 0 19 ++ "+00:00")%string in
          let tstamp :=
            (slice tstamp 0 13 ++ ":" ++ slice tstamp 14 16 ++ ":" ++ slice_from tstamp 17)%string in
          match time.Parse_RFC3339 tstamp with
          | (_, Some err) =>
              scanFile f idx rest lineNum header
                (add_warning s
                   ("sfl: could not parse timestamp " ++ f ++ ":" ++ itoa lineNum ++ " " ++ err))
          | (lineTime, None) =>
              let lineText :=
                if lineNum =? 2 then (header ++ CRLF ++ lineText)%string else lineText in
              scanFile f idx rest lineNum header
                (add_data s {| sflRecord.time := lineTime; sflRecord.data := lineText;
                               sflRecord.idx := idx |})
          end
        else
          scanFile f idx rest lineNum header
            (add_warning s ("sfl: unparsable line " ++ f ++ ":" ++ itoa lineNum))
  end.

(** The loop of NewSfl over [files], from index [idx]; an unreadable
    file ends it with an error. *)
Fixpoint ingest (disk : os.FS) (files : list string) (idx : Z) (s : t) : t * error :=
  match files with
  | [] => (s, None)
  | f :: rest =>
      match os.ReadFile disk f with
      | None => (s, Some ("open " ++ f ++ ": no such file or directory")%string)
      | Some fileText =>
          ingest disk rest (idx + 1)
            (scanFile f idx (bufio.ScanLines fileText) 0 EmptyString s)
      end
  end.

Definition NewSfl (disk : os.FS) (files : list string) (outDir0 : string) : t * error :=
  let s0 := {| i := -1; data := []; paths := []; outDir := outDir0;
               file := None; warnings := [] |} in
  match ingest disk files 0 s0 with
  | (s, Some err) => (s, Some err)
  | (s, None) =>
      ({| i := i s; data := sort.SliceStable less (data s); paths := paths s;
          outDir := outDir s; file := file s; warnings := warnings s |}, None)
  end.

(** Close calls itself while a file is held. [None]: the fuel is spent. *)
Fixpoint Close (fuel : nat) (s : t) : option (error * t) :=
  match fuel with
  | O => None
  | S fuel' =>
      match file s with
      | Some _ =>
          match Close fuel' s with
          | Some (err, s') => Some (err, s')
          | None => None
          end
      | None => Some (None, s)
      end
  end.

Definition Earliest (s : t) : time.Time :=
  match data s with
  | r :: _ => sflRecord.time r
  | [] => time.zero
  end.

(** [None]: an index out of range, or the fuel is spent. *)
Definition Emit {F : os.Faults} (fuel : nat) (s : t) (w : World)
  : option (error * t * World) :=
  if i s <? 0 then Some (None, s, w)
  else
    do rec <- nth_error (data s) (Z.to_nat (i s));
    do _ <- (if sflRecord.idx rec <? 0 then None else Some tt);
    do path <- nth_error (paths s) (Z.to_nat (sflRecord.idx rec));
    match timeFromFilename path with
    | (_, Some err) => Some (Some ("sfl: " ++ err)%string, s, w)
    | (outFileTime, None) =>
        let dir := filepath.Join [outDir s; "datafiles"; "evt"; doyDir outFileTime]%string in
        match os.MkdirAll_err (fs w) dir with
        | Some err => Some (Some ("sfl: " ++ err)%string, s, w)
        | None =>
            let outPath := filepath.Join [dir; filepath.Base path] in
            let reopen :=
              match file s with
              | None => true
              | Some f => negb (String.eqb (os.Name f) outPath)
              end in
            let text := (sflRecord.data rec ++ CRLF)%string in
            if reopen then
              do '(err, s1) <- Close fuel s;
              match err with
              | Some msg => Some (Some ("sfl: " ++ msg)%string, s1, w)
              | None =>
                  match os.OpenFile_err (fs w) outPath with
                  | Some err => Some (Some ("sfl: " ++ err)%string, set_file s1 None, w)
                  | None =>
                      let '(f, disk) := os.OpenFile (fs w) outPath in
                      Some (None, set_file s1 (Some f),
                            {| fs := os.WriteString f disk text; sent := sent w |})
                  end
              end
            else
              match file s with
              | Some f =>
                  Some (None, s, {| fs := os.WriteString f (fs w) text; sent := sent w |})
              | None => None
              end
        end
    end.

Definition Time (s : t) : time.Time :=
  if (0 <=? i s) && (0 <? len (data s))
  then match nth_error (data s) (Z.to_nat (i s)) with
       | Some r => sflRecord.time r
       | None => time.zero
       end
  else time.zero.

Definition Next (s : t) : bool * t :=
  if i s + 1 <? len (data s) then (true, set_i s (i s + 1)) else (false, s).

Definition Warnings (s : t) : list Warning.t := warnings s.

Definition Name (s : t) : string := "sfl".

Definition Len (s : t) : Z := len (data s).

End Sfl.

(** *** The underway feed: [Underway] (underway.go) *)

(** Package [github.com/ctberthiaume/cruisemic/parse], outside this
    repository: the byte whitelist and a line parser that keeps state
    between lines (its rate limiter). *)
Module parse.

Record Data := { OK : bool; Time : time.Time }.

Record Package := {
  Parser : Type;
  parserFact : string -> time.Duration -> Parser;
  ParseLine : Parser -> string -> Parser * (Data * error);
  Whitelist : string -> string
}.

End parse.

Module underwayRecord.
Record t := { time : time.Time; data : string }.
End underwayRecord.

Module Underway.

Record t := {
  i : Z;
  data : list underwayRecord.t;
  conn : option net.Conn;
  warnings : list Warning.t
}.

Definition set_i (u : t) (n : Z) : t :=
  {| i := n; data := data u; conn := conn u; warnings := warnings u |}.

Definition set_data (u : t) (d : list underwayRecord.t) : t :=
  {| i := i u; data := d; conn := conn u; warnings := warnings u |}.

Definition less (a b : underwayRecord.t) : bool :=
  time.Before (underwayRecord.time a) (underwayRecord.time b).

Definition LFs : string := String LF EmptyString.

(** The scanner loop of NewUnderway; [n] lines were read before. *)
Fixpoint scanLines (P : parse.Package) (parser : parse.Parser P)
    (lines : list string) (n : Z) (u : t) : t :=
  match lines with
  | [] => u
  | b :: rest =>
      let n := n + 1 in
      let line := parse.Whitelist P b in
      let '(parser, (d, err)) := parse.ParseLine P parser line in
      match err with
      | Some msg =>
          scanLines P parser rest n
            {| i := i u; data := data u; conn := conn u;
               warnings := warnings u
                 ++ [ {| Warning.err := "underway: line " ++ itoa n ++ ": " ++ msg |} ] |}
      | None =>
          if parse.OK d then
            scanLines P parser rest n
              (set_data u (data u ++ [ {| underwayRecord.time := parse.Time d;
                                          underwayRecord.data := line |} ]))
          else scanLines P parser rest n u
      end
  end.

(** The loop that gathers the records following the first one: [t0] is
    the truncated second of the group being gathered, [lines] its lines so
    far, [newdata] the groups already closed. *)
Fixpoint coalesce_from (rest : list underwayRecord.t) (t0 : time.Time)
    (lines : list string) (newdata : list underwayRecord.t) : list underwayRecord.t :=
  match rest with
  | [] =>
      newdata ++ [ {| underwayRecord.time := t0;
                      underwayRecord.data := strings.Join lines LFs |} ]
  | r :: rest' =>
      if time.Equal (time.Truncate (underwayRecord.time r) time.Second) t0
      then coalesce_from rest' t0 (lines ++ [underwayRecord.data r]) newdata
      else
        coalesce_from rest' (time.Truncate (underwayRecord.time r) time.Second)
          [underwayRecord.data r]
          (newdata ++ [ {| underwayRecord.time := t0;
                           underwayRecord.data := strings.Join lines LFs |} ])
  end.

(** Coalesce records with identical times to the second. *)
Definition coalesce (data0 : list underwayRecord.t) : list underwayRecord.t :=
  match data0 with
  | [] => data0
  | r :: rest =>
      coalesce_from rest (time.Truncate (underwayRecord.time r) time.Second)
        [underwayRecord.data r] []
  end.

(** [dial]: the connection [net.Dial] answers, [None] when it fails.
    Input files are plain text (the gzip reader is not modelled). *)
Definition NewUnderway (P : parse.Package) (dial : option net.Conn) (disk : os.FS)
    (file host : string) (port : Z) (throttleSec : Z) : t * error :=
  let u := {| i := -1; data := []; conn := dial; warnings := [] |} in
  match dial with
  | None => (u, Some "underway: dial udp"%string)
  | Some _ =>
      let throttle := wrap64 (throttleSec * time.Second) in
      let parser := parse.parserFact P EmptyString throttle in
      match os.ReadFile disk file with
      | None => (u, Some ("open " ++ file ++ ": no such file or directory")%string)
      | Some text =>
          let u := scanLines P parser (bufio.ScanLines text) 0 u in
          match bufio.Err text with
          | Some msg => (u, Some ("underway: " ++ msg)%string)
          | None =>
              let u := set_data u (sort.SliceStable less (data u)) in
              (set_data u (coalesce (data u)), None)
          end
      end
  end.

Definition Close (u : t) : error * t :=
  match conn u with
  | Some c =>
      match net.Close c with
      | (Some msg, c') =>
          (Some ("underway: " ++ msg)%string,
           {| i := i u; data := data u; conn := Some c'; warnings := warnings u |})
      | (None, c') =>
          (None, {| i := i u; data := data u; conn := Some c'; warnings := warnings u |})
      end
  | None => (None, u)
  end.

Definition Earliest (u : t) : time.Time :=
  match data u with
  | r :: _ => underwayRecord.time r
  | [] => time.zero
  end.

(** [None]: an index out of range or a nil connection, run-time panics. *)
Definition Emit {N : net.Faults} (u : t) (w : World) : option (error * t * World) :=
  if i u <? 0 then Some (None, u, w)
  else
    do r <- nth_error (data u) (Z.to_nat (i u));
    do c <- conn u;
    let b := (underwayRecord.data r ++ LFs)%string in
    if net.closed c
    then Some (Some "underway: use of closed network connection"%string, u, w)
    else
      match net.Write_err (sent w) b with
      | Some err => Some (Some ("underway: " ++ err)%string, u, w)
      | None => Some (None, u, {| fs := fs w; sent := sent w ++ [b] |})
      end.

Definition Time (u : t) : time.Time :=
  if (0 <=? i u) && (0 <? len (data u))
  then match nth_error (data u) (Z.to_nat (i u)) with
       | Some r => underwayRecord.time r
       | None => time.zero
       end
  else time.zero.

Definition Next (u : t) : bool * t :=
  if i u + 1 <? len (data u) then (true, set_i u (i u + 1)) else (false, u).

Definition Warnings (u : t) : list Warning.t := warnings u.

Definition Name (u : t) : string := "underway".

Definition Len (u : t) : Z := len (data u).

End Underway.

(** *** The instrument log feed: [SeaLog] *)

(** Package [github.com/seaflow-uw/seaflog], outside this repository:
    the events its scanner yields for a log text, and the scanner's final
    error. *)
Module seaflog.

Record Event := { Name : string; Time : time.Time; Line : string; LineNumber : Z }.

Definition EventScanner := string -> list Event * error.

End seaflog.

Module seaLogRecord.

Record t := { time : time.Time; data : string }.

Definition logTime (sr : t) : string :=
  let tstr := time.Format_RFC3339 (time sr) in
  (slice tstr 0 13 ++ "-" ++ slice tstr 14 16 ++ "-"
   ++ slice tstr 17 (String.length tstr - 1) ++ "+00:00")%string.

Definition String (sr : t) : string := (logTime sr ++ CRLF ++ data sr)%string.

End seaLogRecord.

Module SeaLog.

Record t := {
  i : Z;
  data : list seaLogRecord.t;
  outDir : string;
  file : option os.File;
  warnings : list Warning.t
}.

Definition set_i (s : t) (n : Z) : t :=
  {| i := n; data := data s; outDir := outDir s; file := file s; warnings := warnings s |}.

Definition set_file (s : t) (f : option os.File) : t :=
  {| i := i s; data := data s; outDir := outDir s; file := f; warnings := warnings s |}.

Definition less (a b : seaLogRecord.t) : bool :=
  time.Before (seaLogRecord.time a) (seaLogRecord.time b).

(** The scanner loop of NewSeaLog over the events. *)
Fixpoint ingest (events : list seaflog.Event) (s : t) : t :=
  match events with
  | [] => s
  | event :: rest =>
      if negb (String.eqb (seaflog.Name event) "unhandled") then
        ingest rest
          {| i := i s;
             data := data s ++ [ {| seaLogRecord.time := seaflog.Time event;
                                    seaLogRecord.data := seaflog.Line event |} ];
             outDir := outDir s; file := file s; warnings := warnings s |}
      else
        ingest rest
          {| i := i s; data := data s; outDir := outDir s; file := file s;
             warnings := warnings s
               ++ [ {| Warning.err := "seaflowlog: unhandled event at line "
                                      ++ itoa (seaflog.LineNumber event) ++ ": "
                                      ++ seaflog.Line event |} ] |}
  end.

Definition NewSeaLog (scan : seaflog.EventScanner) (disk : os.FS)
    (file0 outDir0 : string) : t * error :=
  let s := {| i := -1; data := []; outDir := outDir0; file := None; warnings := [] |} in
  match os.ReadFile disk file0 with
  | None => (s, Some ("seaflowlog: open " ++ file0 ++ ": no such file or directory")%string)
  | Some text =>
      let '(events, err) := scan text in
      let s := ingest events s in
      match err with
      | Some msg => (s, Some ("seaflowlog: " ++ msg)%string)
      | None =>
          ({| i := i s; data := sort.SliceStable less (data s); outDir := outDir s;
              file := file s; warnings := warnings s |}, None)
      end
  end.

(** The assignment [s = nil] changes the receiver variable only: the
    field [file] keeps the closed handle. *)
Definition Close (s : t) : error * t :=
  match file s with
  | Some f => let '(err, f') := os.Close f in (err, set_file s (Some f'))
  | None => (None, s)
  end.

Definition Earliest (s : t) : time.Time :=
  match data s with
  | r :: _ => seaLogRecord.time r
  | [] => time.zero
  end.

(** [None]: an index out of range, a run-time panic. *)
Definition Emit {F : os.Faults} (s : t) (w : World) : option (error * t * World) :=
  if i s <? 0 then Some (None, s, w)
  else
    do rec <- nth_error (data s) (Z.to_nat (i s));
    let dir := filepath.Join [outDir s; "logs"]%string in
    match os.MkdirAll_err (fs w) dir with
    | Some err => Some (Some ("seaflowlog: " ++ err)%string, s, w)
    | None =>
        let outPath := filepath.Join [dir; "SFlog.txt"]%string in
        let text := (seaLogRecord.String rec ++ CRLF)%string in
        match file s with
        | Some f =>
            Some (None, set_file s (Some f),
                  {| fs := os.WriteString f (fs w) text; sent := sent w |})
        | None =>
            match os.OpenFile_err (fs w) outPath with
            | Some err => Some (Some ("seaflowlog: " ++ err)%string, set_file s None, w)
            | None =>
                let '(f, disk) := os.OpenFile (fs w) outPath in
                Some (None, set_file s (Some f),
                      {| fs := os.WriteString f disk text; sent := sent w |})
            end
        end
    end.

Definition Time (s : t) : time.Time :=
  if (0 <=? i s) && (0 <? len (data s))
  then match nth_error (data s) (Z.to_nat (i s)) with
       | Some r => seaLogRecord.time r
       | None => time.zero
       end
  else time.zero.

Definition Next (s : t) : bool * t :=
  if i s + 1 <? len (data s) then (true, set_i s (i s + 1)) else (false, s).

Definition Warnings (s : t) : list Warning.t := warnings s.

Definition Name (s : t) : string := "seaflowlog".

Definition Len (s : t) : Z := len (data s).

End SeaLog.

(** *** The interface [feeds.Emitter]

    [Emit] and [Close] answer [None] when the call does not return
    (a run-time panic, or recursion without end). The four
    implementations are what the feed types give on a system [F] and a
    network [N]. *)

Module Emitter.

Class ops (E : Type) := {
  Name : E -> string;
  Earliest : E -> time.Time;
  Next : E -> bool * E;
  Time : E -> time.Time;
  Emit : nat -> E -> World -> option (error * E * World);
  Close : nat -> E -> option (error * E);
  Len : E -> Z
}.

(** A value of the interface type: an implementation and its receiver. *)
Record value := pack { carrier : Type; impl : ops carrier; self : carrier }.

End Emitter.

#[export] Instance Evt_Emitter {F : os.Faults} : Emitter.ops Evt.t := {|
  Emitter.Name := Evt.Name;
  Emitter.Earliest := Evt.Earliest;
  Emitter.Next := Evt.Next;
  Emitter.Time := Evt.Time;
  Emitter.Emit := fun _ => Evt.Emit;
  Emitter.Close := fun _ e => Some (Evt.Close e);
  Emitter.Len := Evt.Len
|}.

#[export] Instance Sfl_Emitter {F : os.Faults} : Emitter.ops Sfl.t := {|
  Emitter.Name := Sfl.Name;
  Emitter.Earliest := Sfl.Earliest;
  Emitter.Next := Sfl.Next;
  Emitter.Time := Sfl.Time;
  Emitter.Emit := Sfl.Emit;
  Emitter.Close := Sfl.Close;
  Emitter.Len := Sfl.Len
|}.

#[export] Instance Underway_Emitter {N : net.Faults} : Emitter.ops Underway.t := {|
  Emitter.Name := Underway.Name;
  Emitter.Earliest := Underway.Earliest;
  Emitter.Next := Underway.Next;
  Emitter.Time := Underway.Time;
  Emitter.Emit := fun _ => Underway.Emit;
  Emitter.Close := fun _ u => Some (Underway.Close u);
  Emitter.Len := Underway.Len
|}.

#[export] Instance SeaLog_Emitter {F : os.Faults} : Emitter.ops SeaLog.t := {|
  Emitter.Name := SeaLog.Name;
  Emitter.Earliest := SeaLog.Earliest;
  Emitter.Next := SeaLog.Next;
  Emitter.Time := SeaLog.Time;
  Emitter.Emit := fun _ => SeaLog.Emit;
  Emitter.Close := fun _ s => Some (SeaLog.Close s);
  Emitter.Len := SeaLog.Len
|}.

(** ** Package [cmd]: the root command *)

Module cmd.

(** The loop of minTime; [first] is the result so far. *)
Fixpoint minTime_from (es : list Emitter.value) (first : time.Time) : time.Time :=
  match es with
  | [] => first
  | e :: rest =>
      let earliest := @Emitter.Earliest _ (Emitter.impl e) (Emitter.self e) in
      minTime_from rest
        (if time.IsZero first || time.Before earliest first then earliest else first)
  end.

Definition minTime (es : list Emitter.value) : time.Time := minTime_from es time.zero.

(** What one driver does that can be seen from outside: [Fired name
    emitTime recTime err] stands for the timer set for [emitTime], its
    firing, and the call of Emit on the record of time [recTime], which
    answered [err]. A skipped record leaves nothing. *)
Inductive event :=
| Fired (name : string) (emitTime recTime : time.Time) (err : error).

(** How a driver ends: [Done] sends on the channel; [Panicked] is the
    [delta < 0] panic; [Stuck] is an Emit that does not return;
    [OutOfFuel] belongs to the model only. *)
Inductive exit :=
| Done
| Panicked (delta : time.Duration) (recTime : time.Time)
| Stuck
| OutOfFuel.

(** [time.Duration(float64(delta.Nanoseconds()) / warp)] *)
Definition warped (delta : time.Duration) (warp : float64.t) : time.Duration :=
  float64.to_int64 (float64.div (float64.of_int64 delta) warp).

Section Driver.
Context {E : Type} {impl : Emitter.ops E}.
Variables (cruiseStart replayStart : time.Time) (warp : float64.t).

Fixpoint startEmitter (fuel : nat) (e : E) (w : World) : list event * exit * E * World :=
  match fuel with
  | O => ([], OutOfFuel, e, w)
  | S fuel' =>
      let '(more, e) := Emitter.Next e in
      if negb more then ([], Done, e, w)
      else if time.Before (Emitter.Time e) cruiseStart then startEmitter fuel' e w
      else
        let delta := time.Sub (Emitter.Time e) cruiseStart in
        let delta := warped delta warp in
        if delta <? 0 then ([], Panicked delta (Emitter.Time e), e, w)
        else
          let emitTime := time.Add replayStart delta in
          match Emitter.Emit fuel' e w with
          | None => ([], Stuck, e, w)
          | Some (err, e', w') =>
              let '(evs, x, e'', w'') := startEmitter fuel' e' w' in
              (Fired (Emitter.Name e) emitTime (Emitter.Time e) err :: evs, x, e'', w'')
          end
  end.

End Driver.

(** [emitters := []feeds.Emitter{evtData, sflData, underwayData, seaflogData}] *)
Definition emitters {F : os.Faults} {N : net.Faults}
    (evtData : Evt.t) (sflData : Sfl.t) (underwayData : Underway.t)
    (seaflogData : SeaLog.t) : list Emitter.value :=
  [ Emitter.pack Evt.t _ evtData; Emitter.pack Sfl.t _ sflData;
    Emitter.pack Underway.t _ underwayData; Emitter.pack SeaLog.t _ seaflogData ].

(** The time translation of [rootCmd.Run]: the cruise-time start (the
    parsed [--start] flag, or the earliest feed time when the flag is
    unset and the parsed value zero) and the replay-time start, five
    seconds after [now]. *)
Definition timeTranslation (now cruiseStart : time.Time) (emitters : list Emitter.value)
    : time.Time * time.Time :=
  let cruiseStart :=
    if time.IsZero cruiseStart then minTime emitters else cruiseStart in
  let delay := 5 * time.Second in
  let replayStart := time.Add now delay in
  (cruiseStart, replayStart).

(** [rootCmd.Run] from the emitters on, up to the last driver's end:
    one driver per emitter, each on its own receiver; drivers share no
    sink, and each is run here against the world [w] the replay starts in.
    The deferred Close calls that follow are not part of it. *)
Definition Run (fuel : nat) (now cruiseStart : time.Time) (warp : float64.t)
    (emitters : list Emitter.value) (w : World) : list (list event * exit) :=
  let '(cruiseStart, replayStart) := timeTranslation now cruiseStart emitters in
  map (fun e =>
         let '(evs, x, _, _) :=
           @startEmitter _ (Emitter.impl e) cruiseStart replayStart warp fuel
             (Emitter.self e) w in
         (evs, x))
      emitters.

End cmd.

(** * Specification vocabulary

    The words the properties below are stated in. *)

(** [n] calls of Next in a row: their answers and the receiver left. *)
Fixpoint nexts {E : Type} {impl : Emitter.ops E} (n : nat) (e : E) : list bool * E :=
  match n with
  | O => ([], e)
  | S n' =>
      let '(b, e1) := Emitter.Next e in
      let '(bs, e2) := nexts n' e1 in
      (b :: bs, e2)
  end.

(** What the design document asks of Next, for a feed type [E] whose
    cursor is read by [pos]. *)
Definition cursor_spec {E : Type} {impl : Emitter.ops E} (pos : E -> Z) : Prop :=
  (forall e b e', Emitter.Next e = (b, e') ->
     Emitter.Len e' = Emitter.Len e
     /\ (b = true -> pos e' = pos e + 1 /\ pos e' < Emitter.Len e)
     /\ (b = false -> e' = e /\ Emitter.Len e <= pos e + 1
                      /\ Emitter.Next e' = (false, e')))
  /\ (forall e n, pos e = -1 ->
        let total := Z.to_nat (Emitter.Len e) in
        fst (nexts n e) = repeat true (Nat.min n total) ++ repeat false (n - total)
        /\ -1 <= pos (snd (nexts n e)) <= Emitter.Len e - 1
        /\ (total <= n -> count_occ bool_dec (fst (nexts n e)) true = total)%nat).

(** [output] is the stable sort of [input] by [key]: non-decreasing, the
    same records, and records of equal key in the order they had. *)
Definition stable_sort_of {A : Type} (key : A -> Z) (input output : list A) : Prop :=
  StronglySorted (fun a b => key a <= key b) output
  /\ Permutation input output
  /\ forall k, filter (fun r => key r =? k) output = filter (fun r => key r =? k) input.

(** The whole second a record falls in. *)
Definition trunc (r : underwayRecord.t) : time.Time :=
  time.Truncate (underwayRecord.time r) time.Second.

(** A record moved to the start of its second. *)
Definition truncated (r : underwayRecord.t) : underwayRecord.t :=
  {| underwayRecord.time := trunc r; underwayRecord.data := underwayRecord.data r |}.

(** The record a group of lines becomes. *)
Definition merged (s : time.Time) (run : list underwayRecord.t) : underwayRecord.t :=
  {| underwayRecord.time := s;
     underwayRecord.data := strings.Join (map underwayRecord.data run) Underway.LFs |}.

(** The records NewEvt gathers, in discovery order. *)
Definition evt_discovered (files : list string) : list evtFile.t :=
  map (fun f => {| evtFile.time := fst (timeFromFilename f); evtFile.path := f |}) files.

(** The records NewSfl gathers, in discovery order. *)
Definition sfl_discovered (disk : os.FS) (files : list string) (outDir : string)
  : list sflRecord.t :=
  Sfl.data (fst (Sfl.ingest disk files 0
                   {| Sfl.i := -1; Sfl.data := []; Sfl.paths := []; Sfl.outDir := outDir;
                      Sfl.file := None; Sfl.warnings := [] |})).

(** The records NewUnderway gathers from the lines of [text]. *)
Definition underway_discovered (P : parse.Package) (throttleSec : Z) (text : string)
  : list underwayRecord.t :=
  Underway.data
    (Underway.scanLines P
       (parse.parserFact P EmptyString (wrap64 (throttleSec * time.Second)))
       (bufio.ScanLines text) 0
       {| Underway.i := -1; Underway.data := []; Underway.conn := None;
          Underway.warnings := [] |}).

(** The records NewSeaLog gathers from the events, in their order. *)
Definition sealog_discovered (events : list seaflog.Event) (outDir : string)
  : list seaLogRecord.t :=
  SeaLog.data
    (SeaLog.ingest events
       {| SeaLog.i := -1; SeaLog.data := []; SeaLog.outDir := outDir;
          SeaLog.file := None; SeaLog.warnings := [] |}).

(** The time a data line yields, when it passes the tests of NewSfl: more
    than one tab-separated field, a first field of 25 bytes, and a
    timestamp that parses. *)
Definition sfl_time (lineText : string) : option time.Time :=
  let cols := strings.Split lineText TAB in
  let col0 := nth 0 cols EmptyString in
  if (1 <? len cols) && (String.length col0 =? 25)%nat then
    let tstamp := (slice col0 0 19 ++ "+00:00")%string in
    let tstamp :=
      (slice tstamp 0 13 ++ ":" ++ slice tstamp 14 16 ++ ":" ++ slice_from tstamp 17)%string in
    match time.Parse_RFC3339 tstamp with
    | (t, None) => Some t
    | (_, Some _) => None
    end
  else None.

(** The record of a line that is not the second of its file. *)
Definition sfl_plain (idx : Z) (lineText : string) : list sflRecord.t :=
  match sfl_time lineText with
  | Some t => [ {| sflRecord.time := t; sflRecord.idx := idx; sflRecord.data := lineText |} ]
  | None => []
  end.

(** The record of the second line of a file. *)
Definition sfl_second (header : string) (idx : Z) (lineText : string) : list sflRecord.t :=
  match sfl_time lineText with
  | Some t =>
      [ {| sflRecord.time := t; sflRecord.idx := idx;
           sflRecord.data := (header ++ CRLF ++ lineText)%string |} ]
  | None => []
  end.

(** What a file holds after an append. *)
Definition content (disk : os.FS) (path : string) : string :=
  match os.ReadFile disk path with
  | Some c => c
  | None => EmptyString
  end.

(** Where Sfl.Emit writes the records of the source file [path], whose
    name gives the time [t0]. *)
Definition sfl_outPath (outDir path : string) (t0 : time.Time) : string :=
  filepath.Join [filepath.Join [outDir; "datafiles"; "evt"; doyDir t0]%string;
                 filepath.Base path].

(** The time of the record an event passed to Emit, and the time its
    timer was set for. *)
Definition recTime (ev : cmd.event) : time.Time :=
  match ev with cmd.Fired _ _ t _ => t end.

Definition emitTime (ev : cmd.event) : time.Time :=
  match ev with cmd.Fired _ t _ _ => t end.

(** The quotient [float64(delta) / warp] fits an int64. *)
Definition quotient_fits (delta : time.Duration) (warp : float64.t) : bool :=
  match float64.trunc (float64.div (float64.of_int64 delta) warp) with
  | Some z => float64.fits_int64 z
  | None => false
  end.

(** Zero or a finite value, of positive sign. *)
Definition nonneg (x : float64.t) : Prop :=
  match x with
  | S754_zero s => s = false
  | S754_finite s _ _ => s = false
  | _ => True
  end.

(** For a feed whose cursor is read by [pos] and whose record times by
    [times]: from a cursor at or after -1, the records the driver passes to
    Emit are, in order, the records after the cursor that are not before
    the cruise start; all of them when the driver ends with [Done], the
    first ones otherwise. With more fuel than records left, the driver
    ends by itself. *)
Definition emits_from_origin {E : Type} {impl : Emitter.ops E}
    (pos : E -> Z) (times : E -> list time.Time) : Prop :=
  forall cruiseStart replayStart warp fuel e w,
    -1 <= pos e ->
    let '(evs, x, _, _) := cmd.startEmitter cruiseStart replayStart warp fuel e w in
    exists rest,
      filter (fun t => negb (time.Before t cruiseStart))
        (skipn (Z.to_nat (pos e + 1)) (times e))
      = map recTime evs ++ rest
      /\ (x = cmd.Done -> rest = [])
      /\ ((Z.to_nat (len (times e) - (pos e + 1)) < fuel)%nat -> x <> cmd.OutOfFuel).

(** [e.Earliest()] on a value of the interface type. *)
Definition earliest (e : Emitter.value) : time.Time :=
  @Emitter.Earliest _ (Emitter.impl e) (Emitter.self e).

(** The least of a list of instants; the zero Time for no instant. *)
Definition minimum (ts : list time.Time) : time.Time :=
  match ts with
  | [] => time.zero
  | t :: rest => fold_left Z.min rest t
  end.

(** The names NewEvt warns about. *)
Definition evt_rejected (files : list string) : list string :=
  filter (fun f => match snd (timeFromFilename f) with Some _ => true | None => false end)
    files.

(** The records of one SFL file that is read as file number [idx]. *)
Definition sfl_file_records (idx : Z) (lines : list string) : list sflRecord.t :=
  match lines with
  | header :: line2 :: later =>
      sfl_second header idx line2 ++ flat_map (sfl_plain idx) later
  | _ => []
  end.

(** The records of the files from number [idx] on, in discovery order. *)
Fixpoint sfl_all_records (disk : os.FS) (files : list string) (idx : Z)
  : list sflRecord.t :=
  match files with
  | [] => []
  | f :: rest =>
      match os.ReadFile disk f with
      | Some text => sfl_file_records idx (bufio.ScanLines text)
      | None => []
      end ++ sfl_all_records disk rest (idx + 1)
  end.

(** The data lines of the files: of the lines the scanner delivers,
    every one but the first of each file. *)
Fixpoint sfl_data_lines (disk : os.FS) (files : list string) : nat :=
  match files with
  | [] => 0
  | f :: rest =>
      match os.ReadFile disk f with
      | Some text => Nat.pred (List.length (bufio.ScanLines text))
      | None => 0
      end + sfl_data_lines disk rest
  end.

(** The files of which the scanner delivers a line. *)
Definition sfl_with_header (disk : os.FS) (files : list string) : list string :=
  filter (fun f => match os.ReadFile disk f with
                   | Some text => negb (Nat.eqb (List.length (bufio.ScanLines text)) 0)
                   | None => false
                   end) files.

(** The warnings of a data line read as line [lineNum] of file [f]. *)
Definition sfl_line_warnings (f : string) (lineNum : Z) (lineText : string)
  : list Warning.t :=
  let cols := strings.Split lineText TAB in
  let col0 := nth 0 cols EmptyString in
  if (1 <? len cols) && (String.length col0 =? 25)%nat then
    let tstamp := (slice col0 0 19 ++ "+00:00")%string in
    let tstamp :=
      (slice tstamp 0 13 ++ ":" ++ slice tstamp 14 16 ++ ":" ++ slice_from tstamp 17)%string in
    match time.Parse_RFC3339 tstamp with
    | (_, Some err) =>
        [ {| Warning.err := "sfl: could not parse timestamp " ++ f ++ ":"
                            ++ itoa lineNum ++ " " ++ err |} ]
    | (_, None) => []
    end
  else [ {| Warning.err := "sfl: unparsable line " ++ f ++ ":" ++ itoa lineNum |} ].

(** The warnings of the lines of file [f] that follow its first
    [lineNum] lines. *)
Fixpoint sfl_warnings_from (f : string) (lineNum : Z) (lines : list string)
  : list Warning.t :=
  match lines with
  | [] => []
  | l :: rest => sfl_line_warnings f (lineNum + 1) l ++ sfl_warnings_from f (lineNum + 1) rest
  end.

(** The warnings of the data lines of one file. *)
Definition sfl_file_warnings (f : string) (lines : list string) : list Warning.t :=
  match lines with
  | [] => []
  | _ :: later => sfl_warnings_from f 1 later
  end.

(** The warnings of the files, in discovery order. *)
Definition sfl_all_warnings (disk : os.FS) (files : list string) : list Warning.t :=
  flat_map (fun f => match os.ReadFile disk f with
                     | Some text => sfl_file_warnings f (bufio.ScanLines text)
                     | None => []
                     end) files.

(** What Underway.Emit sends for a record. *)
Definition datagram (r : underwayRecord.t) : string :=
  (underwayRecord.data r ++ Underway.LFs)%string.

(** The bytes a list of records sends, one datagram after the other. *)
Definition stream (l : list underwayRecord.t) : string :=
  fold_right (fun r acc => (datagram r ++ acc)%string) EmptyString l.

(** The records after the cursor position [pos] that are not before the
    cruise start: the ones a driver emits. *)
Definition due {R : Type} (rtime : R -> time.Time) (cruiseStart : time.Time)
    (pos : Z) (recs : list R) : list R :=
  filter (fun r => negb (time.Before (rtime r) cruiseStart))
    (skipn (Z.to_nat (pos + 1)) recs).

(** The file SeaLog.Emit writes. *)
Definition sealog_outPath (outDir : string) : string :=
  filepath.Join [filepath.Join [outDir; "logs"]%string; "SFlog.txt"%string].

(** The output file as the feed holds it once Emit has opened it. *)
Definition sealog_file (outDir : string) : os.File :=
  {| os.Name := sealog_outPath outDir; os.closed := false |}.

(** What SeaLog.Emit writes for a list of records. *)
Definition log_text (l : list seaLogRecord.t) : string :=
  fold_right (fun r acc => (seaLogRecord.String r ++ CRLF ++ acc)%string) EmptyString l.

(** Where Evt.Emit copies the file of record [r]. *)
Definition evt_outPath (outDir : string) (r : evtFile.t) : string :=
  filepath.Join [filepath.Join [outDir; "datafiles"; "evt"; doyDir (evtFile.time r)]%string;
                 filepath.Base (evtFile.path r)].

(** The directory Evt.Emit makes for the file of record [r]. *)
Definition evt_outDir (outDir : string) (r : evtFile.t) : string :=
  filepath.Join [outDir; "datafiles"; "evt"; doyDir (evtFile.time r)]%string.

(** What the Emit of an event answered. *)
Definition firedErr (ev : cmd.event) : error :=
  match ev with cmd.Fired _ _ _ err => err end.

(** One Emit after the other: [put r o] is what the Emit of record [r]
    answers in the state [o], and the state it leaves. *)
Fixpoint outcomes {R O : Type} (put : R -> O -> error * O) (l : list R) (o : O)
    : list error * O :=
  match l with
  | [] => ([], o)
  | r :: rest =>
      let '(err, o1) := put r o in
      let '(errs, o2) := outcomes put rest o1 in
      (err :: errs, o2)
  end.

(** The records of [l] whose Emit answered no error, [errs] being the
    answers in order. *)
Fixpoint accepted {R : Type} (l : list R) (errs : list error) : list R :=
  match l, errs with
  | r :: l', None :: errs' => r :: accepted l' errs'
  | _ :: l', Some _ :: errs' => accepted l' errs'
  | _, _ => []
  end.

(** What the Emit of record [r] does on an open connection: the
    datagram is sent, or the network refuses it. *)
Definition underway_put {N : net.Faults} (r : underwayRecord.t) (w : World)
    : error * World :=
  match net.Write_err (sent w) (datagram r) with
  | Some err => (Some ("underway: " ++ err)%string, w)
  | None => (None, {| fs := fs w; sent := sent w ++ [datagram r] |})
  end.

(** What the Emit of record [r] does to the file the feed holds and to
    the world: the directory is made, the output file opened unless one is
    held, the record written. *)
Definition sealog_put {F : os.Faults} (outDir : string) (r : seaLogRecord.t)
    (o : option os.File * World) : error * (option os.File * World) :=
  let '(file, w) := o in
  let text := (seaLogRecord.String r ++ CRLF)%string in
  match os.MkdirAll_err (fs w) (filepath.Join [outDir; "logs"]%string) with
  | Some err => (Some ("seaflowlog: " ++ err)%string, (file, w))
  | None =>
      match file with
      | Some f => (None, (Some f, {| fs := os.WriteString f (fs w) text; sent := sent w |}))
      | None =>
          match os.OpenFile_err (fs w) (sealog_outPath outDir) with
          | Some err => (Some ("seaflowlog: " ++ err)%string, (None, w))
          | None =>
              let '(f, disk) := os.OpenFile (fs w) (sealog_outPath outDir) in
              (None, (Some f, {| fs := os.WriteString f disk text; sent := sent w |}))
          end
      end
  end.

(** The instants after the last zero Time of a list; the whole list
    when none is zero. *)
Fixpoint after_last_zero (ts : list time.Time) : list time.Time :=
  match ts with
  | [] => []
  | t :: rest =>
      if existsb time.IsZero rest then after_last_zero rest
      else if time.IsZero t then rest else t :: rest
  end.

(** The record of an event, and the warning of an unhandled one. *)
Definition sealog_record (event : seaflog.Event) : seaLogRecord.t :=
  {| seaLogRecord.time := seaflog.Time event; seaLogRecord.data := seaflog.Line event |}.

Definition sealog_warning (event : seaflog.Event) : Warning.t :=
  {| Warning.err := ("seaflowlog: unhandled event at line "
                     ++ itoa (seaflog.LineNumber event) ++ ": " ++ seaflog.Line event)%string |}.

Definition unhandled (event : seaflog.Event) : bool :=
  String.eqb (seaflog.Name event) "unhandled".



(** The patterns of FindEVTFiles and FindSFLFiles, element by element:
    [any] for [?], [lit c] for the character [c], [sign] for the class
    of the two signs. *)
Inductive token := any | lit (c : ascii) | sign.

(** A character that stands for itself in a pattern. *)
Definition plain (c : ascii) : bool :=
  negb (Ascii.eqb c "[" || Ascii.eqb c "?" || Ascii.eqb c "\" || Ascii.eqb c "*").

Definition plain_token (k : token) : bool :=
  match k with lit c => plain c | _ => true end.

(** The text of a pattern. *)
Fixpoint render (toks : list token) : string :=
  match toks with
  | [] => EmptyString
  | any :: rest => String "?" (render rest)
  | lit c :: rest => String c (render rest)
  | sign :: rest => ("[\-\+]" ++ render rest)%string
  end.

(** What is left of [s] after the tokens: [any] takes one rune that is
    not a slash, [lit c] the byte [c], [sign] a plus or a minus. [None]:
    [s] does not start as the tokens say. *)
Fixpoint consume (toks : list token) (s : string) : option string :=
  match toks with
  | [] => Some s
  | k :: rest =>
      match s with
      | EmptyString => None
      | String s0 s' =>
          match k with
          | any =>
              if Ascii.eqb s0 filepath.Separator then None
              else consume rest (slice_from s (snd (utf8.DecodeRuneInString s)))
          | lit c => if Ascii.eqb c s0 then consume rest s' else None
          | sign =>
              let '(r, n) := utf8.DecodeRuneInString s in
              if (r =? 45) || (r =? 43) then consume rest (slice_from s n) else None
          end
      end
  end.

(** The tokens match the whole name. *)
Definition accepts (toks : list token) (name : string) : bool :=
  match consume toks name with
  | Some EmptyString => true
  | _ => false
  end.

(** [????-??-??T??-??-??[\-\+]??-??] *)
Definition stamp_tokens : list token :=
  [ any; any; any; any; lit "-"; any; any; lit "-"; any; any; lit "T"; any; any;
    lit "-"; any; any; lit "-"; any; any; sign; any; any; lit "-"; any; any ].

Definition gz_tokens : list token := [ lit "."; lit "g"; lit "z" ].
Definition sfl_tokens : list token := [ lit "."; lit "s"; lit "f"; lit "l" ].

(** The visits of a walk up to the one that ends it, a visit with an
    error and no entry, and the error of that visit. *)
Fixpoint walked (visits : list visit) : list visit * error :=
  match visits with
  | [] => ([], None)
  | v :: rest =>
      match walkErr v, d v with
      | Some err, None => ([], Some err)
      | _, _ => let '(l, err) := walked rest in (v :: l, err)
      end
  end.

(** A visit without error. *)
Definition without_error (v : visit) : bool :=
  match walkErr v with
  | None => true
  | Some _ => false
  end.

(** A visit that WalkDir does not make: no error and no entry. *)
Definition no_entry (v : visit) : bool :=
  match walkErr v, d v with
  | None, None => true
  | _, _ => false
  end.

(** The visit of a file, without error, whose name one of the two EVT
    patterns accepts. *)
Definition is_evt (v : visit) : bool :=
  match walkErr v, d v with
  | None, Some entry =>
      negb (fs.IsDir entry)
      && (accepts stamp_tokens (fs.Name entry)
          || accepts (stamp_tokens ++ gz_tokens) (fs.Name entry))
  | _, _ => false
  end.

(** The visit of a file, without error, whose name the SFL pattern
    accepts. *)
Definition is_sfl (v : visit) : bool :=
  match walkErr v, d v with
  | None, Some entry =>
      negb (fs.IsDir entry) && accepts (stamp_tokens ++ sfl_tokens) (fs.Name entry)
  | _, _ => false
  end.

(** What may follow the seconds in a file name without changing its
    time: text that does not start with a point and holds no line feed. *)
Definition zone_like (rest : string) : bool :=
  match rest with
  | String c _ => negb (Ascii.eqb c ".")
  | EmptyString => true
  end
  && negb (existsb (Ascii.eqb LF) (list_ascii_of_string rest)).

(** * Sample inputs

    Small feeds and a small cruise directory, for the properties that are
    shown on an input. *)

(** A record half a second into second 1. *)
Definition half_past : underwayRecord.t :=
  {| underwayRecord.time := 1500000000; underwayRecord.data := "$GPGGA" |}.

(** Three records of second 2 between one of second 1 and one of second 3. *)
Definition sample_feed : list underwayRecord.t :=
  [ {| underwayRecord.time := 1200000000; underwayRecord.data := "a" |};
    {| underwayRecord.time := 2000000000; underwayRecord.data := "b" |};
    {| underwayRecord.time := 2300000000; underwayRecord.data := "c" |};
    {| underwayRecord.time := 2999999999; underwayRecord.data := "d" |};
    {| underwayRecord.time := 3000000000; underwayRecord.data := "e" |} ].

Definition sample_sfl_path : string := "/cruise/2021-05-01T10-00-00+00-00.sfl".

(** A log of one header and three lines: the second line is good, the
    third is one 25-byte field without a tab, the fourth is good and
    earlier than the second. *)
Definition sample_sfl_text : string :=
  ("FILE" ++ String TAB "DATE" ++ CRLF
   ++ "2021-05-01T10-00-05+00-00" ++ String TAB "a" ++ CRLF
   ++ "2021-05-01T10-00-06+00-00" ++ CRLF
   ++ "2021-05-01T10-00-01+00-00" ++ String TAB "b" ++ CRLF)%string.

Definition sample_sfl : Sfl.t :=
  fst (Sfl.NewSfl [(sample_sfl_path, sample_sfl_text)] [sample_sfl_path] "out").

(** The float64 values 1.0 and 0.5. *)
Definition warp_one : float64.t := float64.of_int64 1.
Definition warp_half : float64.t := S754_finite false 4503599627370496 (-53).

(** Stand-ins for the two packages outside the repository: a line
    parser that accepts nothing, and an event scanner that finds one
    event, of 10:00:07, in any text that is not empty. *)
Definition parse_nothing : parse.Package :=
  {| parse.Parser := unit;
     parse.parserFact := fun _ _ => tt;
     parse.ParseLine :=
       fun p _ => (p, ({| parse.OK := false; parse.Time := time.zero |}, None));
     parse.Whitelist := fun b => b |}.

Definition scan_one : seaflog.EventScanner :=
  fun text =>
    match text with
    | EmptyString => ([], None)
    | _ => ([ {| seaflog.Name := "start"; seaflog.Time := time.Date 2021 5 1 10 0 7 0;
                 seaflog.Line := "start"; seaflog.LineNumber := 1 |} ], None)
    end.

(** A cruise directory with two EVT files and no SFL file, an underway
    file and an instrument log that are empty, and a second instrument log
    with one event. *)
Definition evt_first : string := "/cruise/2021-05-01T10-00-00+00-00".
Definition evt_second : string := "/cruise/2021-05-01T10-00-05+00-00".

Definition cruise_disk : os.FS :=
  [ (evt_first, "A"%string); (evt_second, "B"%string);
    ("/cruise/underway.txt"%string, EmptyString);
    ("/cruise/SFlog-empty.txt"%string, EmptyString);
    ("/cruise/SFlog.txt"%string, "event"%string) ].

Definition cruise_world : World := {| fs := cruise_disk; sent := [] |}.

Definition evt_two : Evt.t := fst (Evt.NewEvt [evt_second; evt_first] "out").

Definition sfl_none : Sfl.t := fst (Sfl.NewSfl cruise_disk [] "out").

Definition underway_none : Underway.t :=
  fst (Underway.NewUnderway parse_nothing (Some {| net.closed := false |}) cruise_disk
         "/cruise/underway.txt" "255.255.255.255" 5555 60).

Definition sealog_none : SeaLog.t :=
  fst (SeaLog.NewSeaLog scan_one cruise_disk "/cruise/SFlog-empty.txt" "out").

Definition sealog_one : SeaLog.t :=
  fst (SeaLog.NewSeaLog scan_one cruise_disk "/cruise/SFlog.txt" "out").

(** The sample SFL feed and the instrument log of one event, each after
    one Next and one Emit. *)
Definition sfl_emitted : option (error * Sfl.t * World) :=
  Sfl.Emit 1 (snd (Sfl.Next sample_sfl)) cruise_world.

Definition sealog_emitted : option (error * SeaLog.t * World) :=
  SeaLog.Emit (snd (SeaLog.Next sealog_one)) cruise_world.

(** A network that takes no datagram of more than four bytes, and a
    system on which no directory can be made. *)
Definition small_datagrams : net.Faults :=
  {| net.Write_err := fun _ b =>
       if (4 <? String.length b)%nat then Some "write: message too long"%string else None |}.

Definition no_directories : os.Faults :=
  {| os.MkdirAll_err := fun _ path => Some ("mkdir " ++ path ++ ": permission denied")%string;
     os.OpenFile_err := fun _ _ => None;
     os.Create_err := fun _ _ => None;
     os.Copy_err := fun _ _ _ => None;
     os.WriteString_n := fun _ _ _ => None |}.

(** An EVT file that lies where its copy goes. *)
Definition evt_in_place : string := "out/datafiles/evt/2021_121/2021-05-01T10-00-00+00-00".

Definition evt_own_output : Evt.t := snd (Evt.Next (fst (Evt.NewEvt [evt_in_place] "out"))).





(** A log whose second line is 65536 zeros, the third a line of one
    field. *)
Definition sfl_long_text : string :=
  ("FILE" ++ String TAB "DATE" ++ String LF (zeros (2 ^ 16)) ++ String LF "x"
   ++ String LF EmptyString)%string.

Definition sfl_long : Sfl.t * error :=
  Sfl.NewSfl [(sample_sfl_path, sfl_long_text)] [sample_sfl_path] "out".

(** A stand-in for the line parser: a line of digits is a record, so
    many tenths of a second after 10:00:00; an empty line is no record and
    no error; any other line is an error. *)
Definition parse_tenths : parse.Package :=
  {| parse.Parser := unit;
     parse.parserFact := fun _ _ => tt;
     parse.ParseLine :=
       fun p line =>
         if allDigits line
         then (p, ({| parse.OK := negb (String.eqb line EmptyString);
                      parse.Time := time.Add (time.Date 2021 5 1 10 0 0 0)
                                      (atoi line * 100000000) |}, None))
         else (p, ({| parse.OK := false; parse.Time := time.zero |},
                   Some "not a number"%string));
     parse.Whitelist := fun b => b |}.

(** Underway lines of 10:00:01.2, 10:00:00.3, a bad line, an empty line
    and 10:00:01.5. *)
Definition underway_text : string :=
  String "1" (String "2" (String LF (String "3" (String LF (String "x" (String LF
    (String LF (String "1" (String "5" (String LF EmptyString)))))))))).

Definition underway_three : Underway.t :=
  fst (Underway.NewUnderway parse_tenths (Some {| net.closed := false |})
         [("/cruise/underway.txt"%string, underway_text)]
         "/cruise/underway.txt" "255.255.255.255" 5555 60).

(** The calls WalkDir makes on a cruise directory: the directory, two
    EVT files (one compressed), an SFL file, a directory that cannot be
    read (visited twice, the second time with the error) and a file of
    another kind. *)
Definition cruise_walk : list visit :=
  [ {| walkPath := "/cruise"; d := Some {| fs.Name := "cruise"; fs.IsDir := true |};
       walkErr := None |};
    {| walkPath := "/cruise/2021-05-01T10-00-00+00-00";
       d := Some {| fs.Name := "2021-05-01T10-00-00+00-00"; fs.IsDir := false |};
       walkErr := None |};
    {| walkPath := "/cruise/2021-05-01T10-00-00+00-00.sfl";
       d := Some {| fs.Name := "2021-05-01T10-00-00+00-00.sfl"; fs.IsDir := false |};
       walkErr := None |};
    {| walkPath := "/cruise/2021-05-01T10-03-00+00-00.gz";
       d := Some {| fs.Name := "2021-05-01T10-03-00+00-00.gz"; fs.IsDir := false |};
       walkErr := None |};
    {| walkPath := "/cruise/locked"; d := Some {| fs.Name := "locked"; fs.IsDir := true |};
       walkErr := None |};
    {| walkPath := "/cruise/locked"; d := Some {| fs.Name := "locked"; fs.IsDir := true |};
       walkErr := Some "open /cruise/locked: permission denied"%string |};
    {| walkPath := "/cruise/notes.txt";
       d := Some {| fs.Name := "notes.txt"; fs.IsDir := false |}; walkErr := None |} ]%string.

(** * Properties *)

(** ** The cursor: Next *)

Section Cursor.
Context {E : Type} {impl : Emitter.ops E} (pos : E -> Z).

Hypothesis Len_nonneg : forall e, 0 <= Emitter.Len e.

Hypothesis Next_more : forall e, pos e + 1 < Emitter.Len e ->
  exists e', Emitter.Next e = (true, e')
             /\ pos e' = pos e + 1 /\ Emitter.Len e' = Emitter.Len e.

Hypothesis Next_end : forall e, Emitter.Len e <= pos e + 1 ->
  Emitter.Next e = (false, e).

Lemma Next_step e b e' :
  Emitter.Next e = (b, e') ->
  Emitter.Len e' = Emitter.Len e
  /\ (b = true -> pos e' = pos e + 1 /\ pos e' < Emitter.Len e)
  /\ (b = false -> e' = e /\ Emitter.Len e <= pos e + 1
                   /\ Emitter.Next e' = (false, e')).
Proof.
  intros H.
  destruct (Z_lt_le_dec (pos e + 1) (Emitter.Len e)) as [Hlt | Hge].
  - destruct (Next_more e Hlt) as (e1 & H1 & Hp & Hl).
    rewrite H1 in H. injection H as <- <-.
    split; [exact Hl | split; [intros _; lia | discriminate]].
  - rewrite (Next_end e Hge) in H. injection H as <- <-.
    split; [reflexivity | split; [discriminate | intros _]].
    split; [reflexivity | split; [exact Hge | now apply Next_end]].
Qed.

(** The answers of [n] calls from any position: true for each record
    left, false from then on. *)
Lemma nexts_answers n : forall e,
  pos e <= Emitter.Len e - 1 ->
  let left := Z.to_nat (Emitter.Len e - 1 - pos e) in
  fst (nexts n e) = repeat true (Nat.min n left) ++ repeat false (n - left)
  /\ pos (snd (nexts n e)) = pos e + Z.of_nat (Nat.min n left)
  /\ Emitter.Len (snd (nexts n e)) = Emitter.Len e.
Proof.
  induction n as [| n IH]; intros e Hinv left.
  - simpl. repeat split; lia.
  - cbn [nexts].
    destruct (Z_lt_le_dec (pos e + 1) (Emitter.Len e)) as [Hlt | Hge].
    + destruct (Next_more e Hlt) as (e1 & H1 & Hp & Hl). rewrite H1.
      assert (Hinv1 : pos e1 <= Emitter.Len e1 - 1) by lia.
      destruct (IH e1 Hinv1) as (Ha & Hb & Hc).
      destruct (nexts n e1) as [bs e2]. cbn [fst snd] in *.
      assert (Hleft : left = S (Z.to_nat (Emitter.Len e1 - 1 - pos e1))).
      { unfold left. rewrite Hl, Hp. lia. }
      rewrite Hleft. cbn [Nat.min Nat.sub repeat app].
      rewrite Ha. repeat split; [ | lia].
      rewrite Hb. lia.
    + rewrite (Next_end e Hge).
      assert (Hinv1 : pos e <= Emitter.Len e - 1) by lia.
      destruct (IH e Hinv1) as (Ha & Hb & Hc).
      destruct (nexts n e) as [bs e2]. cbn [fst snd] in *.
      assert (Hleft : left = O) by (unfold left; lia).
      fold left in Ha, Hb.
      rewrite Hleft in *. rewrite Nat.min_0_r in *. rewrite Nat.sub_0_r in *.
      cbn [repeat app] in *. rewrite Ha. repeat split; lia.
Qed.

Lemma cursor_spec_holds : cursor_spec pos.
Proof.
  split.
  - intros e b e'. apply Next_step.
  - intros e n Hfresh total.
    assert (Hinv : pos e <= Emitter.Len e - 1) by (specialize (Len_nonneg e); lia).
    destruct (nexts_answers n e Hinv) as (Ha & Hb & Hc).
    assert (Hleft : Z.to_nat (Emitter.Len e - 1 - pos e) = total).
    { unfold total. rewrite Hfresh. f_equal. lia. }
    cbv zeta in Ha, Hb. rewrite Hleft in Ha, Hb.
    repeat split.
    + exact Ha.
    + lia.
    + specialize (Len_nonneg e). unfold total in *. lia.
    + intros Hn. rewrite Ha.
      rewrite count_occ_app.
      rewrite Nat.min_r by lia.
      rewrite count_occ_repeat_eq by reflexivity.
      rewrite count_occ_repeat_neq by discriminate. lia.
Qed.

End Cursor.

Lemma len_nonneg {A : Type} (l : list A) : 0 <= len l.
Proof. unfold len. lia. Qed.

(** The four Next methods are the same three lines; one script proves
    the two laws of [Section Cursor] for each. *)
Ltac next_more set_i :=
  let e := fresh "e" in let H := fresh "H" in
  intros e H; exists (set_i e); cbn in *;
  match goal with
  | |- context [?a <? ?b] => destruct (Z.ltb_spec a b); [auto | lia]
  end.

Ltac next_end :=
  let e := fresh "e" in let H := fresh "H" in
  intros e H; cbn in *;
  match goal with
  | |- context [?a <? ?b] => destruct (Z.ltb_spec a b); [lia | reflexivity]
  end.

Lemma Evt_cursor : cursor_spec Evt.i.
Proof.
  apply cursor_spec_holds.
  - intros e. apply len_nonneg.
  - unfold Emitter.Next, Emitter.Len, Evt_Emitter, Evt.Next, Evt.Len.
    next_more (fun e => Evt.set_i e (Evt.i e + 1)).
  - unfold Emitter.Next, Emitter.Len, Evt_Emitter, Evt.Next, Evt.Len. next_end.
Qed.

Lemma Sfl_cursor : cursor_spec Sfl.i.
Proof.
  apply cursor_spec_holds.
  - intros e. apply len_nonneg.
  - unfold Emitter.Next, Emitter.Len, Sfl_Emitter, Sfl.Next, Sfl.Len.
    next_more (fun e => Sfl.set_i e (Sfl.i e + 1)).
  - unfold Emitter.Next, Emitter.Len, Sfl_Emitter, Sfl.Next, Sfl.Len. next_end.
Qed.

Lemma Underway_cursor : cursor_spec Underway.i.
Proof.
  apply cursor_spec_holds.
  - intros e. apply len_nonneg.
  - unfold Emitter.Next, Emitter.Len, Underway_Emitter, Underway.Next, Underway.Len.
    next_more (fun e => Underway.set_i e (Underway.i e + 1)).
  - unfold Emitter.Next, Emitter.Len, Underway_Emitter, Underway.Next, Underway.Len.
    next_end.
Qed.

Lemma SeaLog_cursor : cursor_spec SeaLog.i.
Proof.
  apply cursor_spec_holds.
  - intros e. apply len_nonneg.
  - unfold Emitter.Next, Emitter.Len, SeaLog_Emitter, SeaLog.Next, SeaLog.Len.
    next_more (fun e => SeaLog.set_i e (SeaLog.i e + 1)).
  - unfold Emitter.Next, Emitter.Len, SeaLog_Emitter, SeaLog.Next, SeaLog.Len.
    next_end.
Qed.

(** Every constructor leaves the cursor before the first record. *)

Lemma Evt_ingest_i files : forall e, Evt.i (Evt.ingest files e) = Evt.i e.
Proof.
  induction files as [| f rest IH]; intros e; cbn [Evt.ingest]; [reflexivity |].
  destruct (timeFromFilename f) as [t0 err]. now rewrite IH.
Qed.

Lemma NewEvt_i files outDir : Evt.i (fst (Evt.NewEvt files outDir)) = -1.
Proof. unfold Evt.NewEvt. cbn [fst Evt.i]. now rewrite Evt_ingest_i. Qed.

Lemma Sfl_scanFile_i f idx lines : forall lineNum header s,
  Sfl.i (Sfl.scanFile f idx lines lineNum header s) = Sfl.i s.
Proof.
  induction lines as [| l rest IH]; intros lineNum header s; cbn [Sfl.scanFile];
    [reflexivity |].
  repeat match goal with
         | |- context [if ?c then _ else _] => destruct c
         | |- context [match ?p with (_, _) => _ end] => destruct p
         | |- context [match ?o with Some _ => _ | None => _ end] => destruct o
         end; now rewrite IH.
Qed.

Lemma Sfl_ingest_i disk files : forall idx s,
  Sfl.i (fst (Sfl.ingest disk files idx s)) = Sfl.i s.
Proof.
  induction files as [| f rest IH]; intros idx s; cbn [Sfl.ingest]; [reflexivity |].
  destruct (os.ReadFile disk f); [| reflexivity].
  rewrite IH. apply Sfl_scanFile_i.
Qed.

Lemma NewSfl_i disk files outDir : Sfl.i (fst (Sfl.NewSfl disk files outDir)) = -1.
Proof.
  unfold Sfl.NewSfl.
  match goal with |- context [Sfl.ingest ?d ?f ?i ?s] =>
    pose proof (Sfl_ingest_i d f i s) as H; destruct (Sfl.ingest d f i s) as [s1 [err|]]
  end; exact H.
Qed.

Lemma Underway_scanLines_i P lines : forall parser n u,
  Underway.i (Underway.scanLines P parser lines n u) = Underway.i u.
Proof.
  induction lines as [| l rest IH]; intros parser n u; cbn [Underway.scanLines];
    [reflexivity |].
  destruct (parse.ParseLine P parser (parse.Whitelist P l)) as [parser' [d [msg|]]].
  - now rewrite IH.
  - destruct (parse.OK d); now rewrite IH.
Qed.

Lemma NewUnderway_i P dial disk file host port throttleSec :
  Underway.i (fst (Underway.NewUnderway P dial disk file host port throttleSec)) = -1.
Proof.
  unfold Underway.NewUnderway.
  destruct dial; [| reflexivity].
  destruct (os.ReadFile disk file) as [text |]; [| reflexivity].
  destruct (bufio.Err text);
    cbn [fst Underway.set_data Underway.i]; now rewrite Underway_scanLines_i.
Qed.

Lemma SeaLog_ingest_i events : forall s, SeaLog.i (SeaLog.ingest events s) = SeaLog.i s.
Proof.
  induction events as [| ev rest IH]; intros s; cbn [SeaLog.ingest]; [reflexivity |].
  destruct (negb _); now rewrite IH.
Qed.

Lemma NewSeaLog_i scan disk file outDir :
  SeaLog.i (fst (SeaLog.NewSeaLog scan disk file outDir)) = -1.
Proof.
  unfold SeaLog.NewSeaLog.
  destruct (os.ReadFile disk file); [| reflexivity].
  destruct (scan s) as [events [msg|]]; cbn [fst SeaLog.i]; now rewrite SeaLog_ingest_i.
Qed.

(** C9. For each of the four feed types: a call of Next that answers
    true moves the cursor forward by exactly one and keeps it below the
    record count; a call that answers false changes nothing, and the next
    call answers false again; from the cursor position the constructors set
    (-1), a run of calls answers true exactly Len times and false from
    then on, and the cursor never passes Len - 1. *)
Theorem C9_next_cursor :
  (cursor_spec Evt.i /\ forall files outDir,
      Evt.i (fst (Evt.NewEvt files outDir)) = -1)
  /\ (cursor_spec Sfl.i /\ forall disk files outDir,
      Sfl.i (fst (Sfl.NewSfl disk files outDir)) = -1)
  /\ (cursor_spec Underway.i /\ forall P dial disk file host port throttleSec,
      Underway.i (fst (Underway.NewUnderway P dial disk file host port throttleSec)) = -1)
  /\ (cursor_spec SeaLog.i /\ forall scan disk file outDir,
      SeaLog.i (fst (SeaLog.NewSeaLog scan disk file outDir)) = -1).
Proof.
  split; [split; [apply Evt_cursor | intros; apply NewEvt_i] |].
  split; [split; [apply Sfl_cursor | intros; apply NewSfl_i] |].
  split; [split; [apply Underway_cursor | intros; apply NewUnderway_i] |].
  split; [apply SeaLog_cursor | intros; apply NewSeaLog_i].
Qed.

(** ** Sorting *)

Section SliceStable.
Context {A : Type} (key : A -> Z).

Let less (a b : A) : bool := time.Before (key a) (key b).
Let le (a b : A) : Prop := key a <= key b.

Lemma insert_perm x l : Permutation (x :: l) (sort.insert less x l).
Proof.
  induction l as [| y l IH]; cbn [sort.insert]; [reflexivity |].
  destruct (less y x); [| reflexivity].
  rewrite perm_swap. now apply perm_skip.
Qed.

Lemma insert_sorted x l :
  StronglySorted le l -> StronglySorted le (sort.insert less x l).
Proof.
  induction 1 as [| y l Hs IH Hall]; cbn [sort.insert].
  - repeat constructor.
  - unfold less at 1, time.Before. destruct (Z.ltb_spec (key y) (key x)) as [Hlt | Hge].
    + constructor; [exact IH |].
      rewrite <- (insert_perm x l). constructor; [unfold le; lia | exact Hall].
    + constructor; [now constructor |].
      constructor; [exact Hge |].
      eapply Forall_impl; [| exact Hall]. unfold le. intros; lia.
Qed.

Lemma insert_stable x l k :
  filter (fun r => key r =? k) (sort.insert less x l)
  = filter (fun r => key r =? k) (x :: l).
Proof.
  induction l as [| y l IH]; cbn [sort.insert]; [reflexivity |].
  unfold less at 1, time.Before. destruct (Z.ltb_spec (key y) (key x)) as [Hlt | Hge];
    [| reflexivity].
  cbn [filter] in *. rewrite IH.
  destruct (Z.eqb_spec (key y) k), (Z.eqb_spec (key x) k); try reflexivity. lia.
Qed.

Lemma SliceStable_stable_sort l : stable_sort_of key l (sort.SliceStable less l).
Proof.
  induction l as [| x l (Hs & Hp & Hf)]; cbn [sort.SliceStable fold_right].
  - repeat split; [constructor | constructor].
  - fold (sort.SliceStable less l). repeat split.
    + now apply insert_sorted.
    + rewrite <- insert_perm. now apply perm_skip.
    + intros k. rewrite insert_stable. cbn [filter]. now rewrite Hf.
Qed.

End SliceStable.

(** ** Coalescing (underway feed) *)

Lemma coalesce_from_acc rest : forall t0 lines newdata,
  Underway.coalesce_from rest t0 lines newdata
  = newdata ++ Underway.coalesce_from rest t0 lines [].
Proof.
  induction rest as [| r rest IH]; intros t0 lines newdata; cbn [Underway.coalesce_from].
  - reflexivity.
  - destruct (time.Equal _ t0).
    + apply IH.
    + rewrite IH. rewrite (IH _ _ ([] ++ _)). now rewrite <- app_assoc.
Qed.

Lemma Equal_true t u : time.Equal t u = true <-> t = u.
Proof. unfold time.Equal. apply Z.eqb_eq. Qed.

Lemma Equal_false t u : time.Equal t u = false <-> t <> u.
Proof. unfold time.Equal. apply Z.eqb_neq. Qed.

(** Truncation keeps the order of instants. *)
Lemma Truncate_mono t u : t <= u ->
  time.Truncate t time.Second <= time.Truncate u time.Second.
Proof.
  intros H. unfold time.Truncate, time.Second. cbn [Z.leb Z.compare].
  pose proof (Z.div_le_mono t u 1000000000 ltac:(lia) H).
  pose proof (Z.div_mod t 1000000000 ltac:(lia)).
  pose proof (Z.div_mod u 1000000000 ltac:(lia)).
  lia.
Qed.

Lemma Truncate_le t : time.Truncate t time.Second <= t.
Proof.
  unfold time.Truncate, time.Second. cbn [Z.leb Z.compare].
  pose proof (Z.mod_pos_bound t 1000000000 ltac:(lia)). lia.
Qed.

(** Records of the second being gathered only add their lines. *)
Lemma coalesce_from_same xs : forall ys t0 lines,
  Forall (fun r => trunc r = t0) xs ->
  Underway.coalesce_from (xs ++ ys) t0 lines []
  = Underway.coalesce_from ys t0 (lines ++ map underwayRecord.data xs) [].
Proof.
  induction xs as [| x xs IH]; intros ys t0 lines Hall; cbn [app map].
  - now rewrite app_nil_r.
  - inversion Hall as [| ? ? Hx Hxs]; subst.
    cbn [Underway.coalesce_from]. fold (trunc x).
    rewrite (proj2 (Equal_true _ _) eq_refl).
    rewrite IH by assumption. now rewrite <- app_assoc.
Qed.

(** A record of another second closes the group. *)
Lemma coalesce_from_cut y ys t0 lines :
  trunc y <> t0 ->
  Underway.coalesce_from (y :: ys) t0 lines []
  = {| underwayRecord.time := t0;
       underwayRecord.data := strings.Join lines Underway.LFs |}
    :: Underway.coalesce (y :: ys).
Proof.
  intros Hne. cbn [Underway.coalesce_from Underway.coalesce]. fold (trunc y).
  rewrite (proj2 (Equal_false _ _) Hne).
  now rewrite coalesce_from_acc.
Qed.

Lemma last_cons {A : Type} (a d : A) l : last (a :: l) d = last l a.
Proof.
  revert a d. induction l as [| b l IH]; intros a d; [reflexivity |].
  change (last (a :: b :: l) d) with (last (b :: l) d).
  now rewrite !IH.
Qed.

(** The list can be cut wherever two neighbours fall in different
    seconds. *)
Lemma coalesce_from_split rest : forall t0 lines y ys,
  last (map trunc rest) t0 <> trunc y ->
  Underway.coalesce_from (rest ++ y :: ys) t0 lines []
  = Underway.coalesce_from rest t0 lines [] ++ Underway.coalesce (y :: ys).
Proof.
  induction rest as [| x rest IH]; intros t0 lines y ys Hne.
  - cbn [map last] in Hne. cbn [app]. rewrite coalesce_from_cut by congruence.
    reflexivity.
  - cbn [map] in Hne. rewrite last_cons in Hne.
    cbn [app Underway.coalesce_from]. fold (trunc x).
    destruct (time.Equal (trunc x) t0) eqn:Heq.
    + apply Equal_true in Heq. subst t0. now apply IH.
    + rewrite coalesce_from_acc. rewrite (coalesce_from_acc rest _ _ (_ :: _)).
      rewrite IH by assumption. now rewrite <- app_assoc.
Qed.

Lemma Join_single d sep : strings.Join [d] sep = d.
Proof. reflexivity. Qed.

(** With one record per second, every group is a single record. *)
Lemma coalesce_from_distinct rest : forall t0 d,
  ~ In t0 (map trunc rest) -> NoDup (map trunc rest) ->
  Underway.coalesce_from rest t0 [d] []
  = {| underwayRecord.time := t0; underwayRecord.data := d |} :: map truncated rest.
Proof.
  induction rest as [| r rest IH]; intros t0 d Hnin Hnd.
  - reflexivity.
  - cbn [map] in Hnin, Hnd. inversion Hnd as [| ? ? Hr Hrest]; subst.
    rewrite coalesce_from_cut by (intros Heq; apply Hnin; left; exact Heq).
    rewrite Join_single. cbn [Underway.coalesce]. fold (trunc r).
    rewrite IH by assumption. reflexivity.
Qed.

Lemma coalesce_distinct l :
  NoDup (map trunc l) -> Underway.coalesce l = map truncated l.
Proof.
  destruct l as [| r rest]; [reflexivity |].
  cbn [map]. intros Hnd. inversion Hnd; subst.
  cbn [Underway.coalesce]. fold (trunc r).
  now rewrite coalesce_from_distinct.
Qed.

Lemma truncated_whole r : trunc r = underwayRecord.time r -> truncated r = r.
Proof. destruct r as [t d]. unfold truncated. cbn. now intros ->. Qed.

(** A maximal run becomes one record, between what its neighbours become. *)
Lemma coalesce_run pre run post s :
  run <> [] ->
  Forall (fun r => trunc r = s) run ->
  Forall (fun r => trunc r <> s) pre ->
  Forall (fun r => trunc r <> s) post ->
  Underway.coalesce (pre ++ run ++ post)
  = Underway.coalesce pre ++ [merged s run] ++ Underway.coalesce post.
Proof.
  intros Hne Hrun Hpre Hpost.
  destruct run as [| r run]; [congruence |]. clear Hne.
  inversion Hrun as [| ? ? Hr Hrun']; subst.
  assert (Hmid : Underway.coalesce ((r :: run) ++ post)
                 = merged (trunc r) (r :: run) :: Underway.coalesce post).
  { cbn [app Underway.coalesce]. fold (trunc r).
    rewrite coalesce_from_same by assumption.
    destruct post as [| y ys].
    - reflexivity.
    - inversion Hpost; subst. rewrite coalesce_from_cut by assumption. reflexivity. }
  destruct pre as [| p pre].
  - cbn [app Underway.coalesce] in *. exact Hmid.
  - change ((p :: pre) ++ (r :: run) ++ post) with (p :: (pre ++ r :: (run ++ post))).
    cbn [Underway.coalesce]. fold (trunc p).
    rewrite coalesce_from_split.
    + change (r :: run ++ post) with ((r :: run) ++ post). rewrite Hmid. reflexivity.
    + assert (Hin : In (last (map trunc pre) (trunc p)) (map trunc (p :: pre))).
      { cbn [map]. rewrite <- last_cons with (d := trunc r).
        destruct (@exists_last _ (trunc p :: map trunc pre)) as (l' & a & Heq);
          [discriminate |].
        rewrite Heq at 1. rewrite last_last. rewrite Heq.
        apply in_or_app. right. now left. }
      apply in_map_iff in Hin. destruct Hin as (q & Hq & Hqin).
      rewrite Forall_forall in Hpre. rewrite <- Hq. now apply Hpre.
Qed.

(** *** Runs of a sorted list *)

Lemma filter_none {A : Type} (f : A -> bool) l :
  Forall (fun x => f x = false) l -> filter f l = [].
Proof.
  induction 1 as [| x l Hx Hl IH]; cbn [filter]; [reflexivity |]. now rewrite Hx.
Qed.

Lemma filter_all {A : Type} (f : A -> bool) l :
  Forall (fun x => f x = true) l -> filter f l = l.
Proof.
  induction 1 as [| x l Hx Hl IH]; cbn [filter]; [reflexivity |]. now rewrite Hx, IH.
Qed.

(** In a list sorted by time the records of one second stand together,
    after those of earlier seconds and before those of later ones. *)
Lemma sorted_three_way l s :
  StronglySorted (fun a b => underwayRecord.time a <= underwayRecord.time b) l ->
  l = filter (fun r => trunc r <? s) l
      ++ filter (fun r => trunc r =? s) l
      ++ filter (fun r => s <? trunc r) l.
Proof.
  induction 1 as [| x l Hs IH Hall]; [reflexivity |].
  assert (Hmono : Forall (fun r => trunc x <= trunc r) l).
  { eapply Forall_impl; [| exact Hall]. intros a Ha. now apply Truncate_mono. }
  cbn [filter].
  destruct (Z.ltb_spec (trunc x) s) as [Hlt | Hge].
  - destruct (Z.eqb_spec (trunc x) s) as [Heq | _]; [lia |].
    destruct (Z.ltb_spec s (trunc x)) as [Hgt | _]; [lia |].
    cbn [app]. now rewrite <- IH.
  - rewrite (filter_none (fun r => trunc r <? s) l).
    2:{ eapply Forall_impl; [| exact Hmono]. intros a Ha. cbn beta in *.
        apply Z.ltb_ge. lia. }
    destruct (Z.eqb_spec (trunc x) s) as [Heq | Hne].
    + destruct (Z.ltb_spec s (trunc x)) as [Hgt | _]; [lia |].
      cbn [app]. f_equal. rewrite IH at 1.
      rewrite (filter_none (fun r => trunc r <? s) l); [reflexivity |].
      eapply Forall_impl; [| exact Hmono]. intros a Ha. cbn beta in *.
      apply Z.ltb_ge. lia.
    + destruct (Z.ltb_spec s (trunc x)) as [Hgt | Hle]; [| lia].
      rewrite (filter_none (fun r => trunc r =? s) l).
      2:{ eapply Forall_impl; [| exact Hmono]. intros a Ha. cbn beta in *.
          apply Z.eqb_neq. lia. }
      rewrite (filter_all (fun r => s <? trunc r) l); [reflexivity |].
      eapply Forall_impl; [| exact Hmono]. intros a Ha. cbn beta in *.
      apply Z.ltb_lt. lia.
Qed.

(** Every coalesced record is timed at the second of a record of the
    list. *)
Lemma coalesce_from_times rest : forall t0 lines,
  Forall (fun r => r.(underwayRecord.time) = t0
                   \/ exists r0, In r0 rest /\ underwayRecord.time r = trunc r0)
    (Underway.coalesce_from rest t0 lines []).
Proof.
  induction rest as [| x rest IH]; intros t0 lines; cbn [Underway.coalesce_from].
  - repeat constructor.
  - fold (trunc x). destruct (time.Equal (trunc x) t0).
    + eapply Forall_impl; [| apply IH]. intros r [Hr | (r0 & Hin & Hr)]; [now left |].
      right. exists r0. split; [now right | exact Hr].
    + rewrite coalesce_from_acc. cbn [app]. constructor; [now left |].
      eapply Forall_impl; [| apply IH]. intros r [Hr | (r0 & Hin & Hr)].
      * right. exists x. split; [now left | exact Hr].
      * right. exists r0. split; [now right | exact Hr].
Qed.

Lemma coalesce_times l :
  Forall (fun r => exists r0, In r0 l /\ underwayRecord.time r = trunc r0)
    (Underway.coalesce l).
Proof.
  destruct l as [| x rest]; [constructor |]. cbn [Underway.coalesce]. fold (trunc x).
  eapply Forall_impl; [| apply coalesce_from_times].
  intros r [Hr | (r0 & Hin & Hr)].
  - exists x. split; [now left | exact Hr].
  - exists r0. split; [now right | exact Hr].
Qed.

Lemma coalesce_filter_other (f : underwayRecord.t -> bool) l s :
  (forall r, f r = true -> trunc r <> s) ->
  filter (fun r => underwayRecord.time r =? s) (Underway.coalesce (filter f l)) = [].
Proof.
  intros Hf. apply filter_none.
  eapply Forall_impl; [| apply coalesce_times].
  intros r (r0 & Hin & Hr). cbn beta. apply Z.eqb_neq. rewrite Hr.
  apply filter_In in Hin. destruct Hin as [_ Hfr]. now apply Hf.
Qed.

(** In a sorted list, the records of a second that has any become
    exactly one record. *)
Lemma coalesce_sorted_run l s :
  StronglySorted (fun a b => underwayRecord.time a <= underwayRecord.time b) l ->
  filter (fun r => trunc r =? s) l <> [] ->
  filter (fun r => underwayRecord.time r =? s) (Underway.coalesce l)
  = [merged s (filter (fun r => trunc r =? s) l)].
Proof.
  intros Hs Hne.
  rewrite (sorted_three_way l s Hs) at 1.
  rewrite (coalesce_run _ _ _ s).
  - rewrite !filter_app.
    rewrite coalesce_filter_other by (intros r Hr; apply Z.ltb_lt in Hr; lia).
    rewrite coalesce_filter_other by (intros r Hr; apply Z.ltb_lt in Hr; lia).
    cbn [filter app merged underwayRecord.time]. now rewrite Z.eqb_refl.
  - exact Hne.
  - apply Forall_forall. intros r Hr. apply filter_In in Hr. now apply Z.eqb_eq.
  - apply Forall_forall. intros r Hr. apply filter_In in Hr.
    destruct Hr as [_ Hr]. apply Z.ltb_lt in Hr. lia.
  - apply Forall_forall. intros r Hr. apply filter_In in Hr.
    destruct Hr as [_ Hr]. apply Z.ltb_lt in Hr. lia.
Qed.

(** After coalescing, times increase strictly. *)
Lemma coalesce_from_sorted rest : forall t0 lines,
  StronglySorted (fun a b => trunc a <= trunc b) rest ->
  Forall (fun r => t0 <= trunc r) rest ->
  StronglySorted (fun a b => underwayRecord.time a < underwayRecord.time b)
    (Underway.coalesce_from rest t0 lines [])
  /\ Forall (fun r => t0 <= underwayRecord.time r)
       (Underway.coalesce_from rest t0 lines []).
Proof.
  induction rest as [| r rest IH]; intros t0 lines Hs Hlb.
  - cbn [Underway.coalesce_from app]. split; repeat constructor.
    cbn [underwayRecord.time]. lia.
  - inversion Hs as [| ? ? Hs' Hall]; subst. inversion Hlb as [| ? ? Hr Hlb']; subst.
    cbn [Underway.coalesce_from]. fold (trunc r).
    destruct (time.Equal (trunc r) t0) eqn:Heq.
    + now apply IH.
    + apply Equal_false in Heq. rewrite coalesce_from_acc. cbn [app].
      destruct (IH (trunc r) [underwayRecord.data r] Hs' Hall) as [Hsorted Hge].
      split.
      * constructor; [exact Hsorted |].
        eapply Forall_impl; [| exact Hge].
        intros a Ha. cbn beta in Ha. cbn [underwayRecord.time]. lia.
      * constructor; [cbn [underwayRecord.time]; lia |].
        eapply Forall_impl; [| exact Hge]. intros a Ha. cbn beta in *. lia.
Qed.

Lemma coalesce_sorted l :
  StronglySorted (fun a b => underwayRecord.time a <= underwayRecord.time b) l ->
  StronglySorted (fun a b => underwayRecord.time a < underwayRecord.time b)
    (Underway.coalesce l).
Proof.
  intros Hs. destruct l as [| r rest]; [constructor |].
  inversion Hs as [| ? ? Hs' Hall]; subst.
  cbn [Underway.coalesce]. fold (trunc r).
  apply coalesce_from_sorted.
  - clear Hall Hs. induction Hs' as [| x l Hl IH Hx]; [constructor |].
    constructor; [exact IH |].
    eapply Forall_impl; [| exact Hx]. intros a Ha. now apply Truncate_mono.
  - eapply Forall_impl; [| exact Hall]. intros a Ha. now apply Truncate_mono.
Qed.

(** *** Coalescing twice *)

Lemma Truncate_idem t :
  time.Truncate (time.Truncate t time.Second) time.Second = time.Truncate t time.Second.
Proof.
  unfold time.Truncate, time.Second. cbn [Z.leb Z.compare].
  pose proof (Z.div_mod t 1000000000 ltac:(lia)) as Hdm.
  replace (t - t mod 1000000000) with (t / 1000000000 * 1000000000) by lia.
  rewrite Z.mod_mul by lia. lia.
Qed.

Lemma strictly_sorted_NoDup (l : list Z) : StronglySorted Z.lt l -> NoDup l.
Proof.
  induction 1 as [| x l Hs IH Hall]; constructor; [| exact IH].
  intros Hin. rewrite Forall_forall in Hall. specialize (Hall _ Hin). lia.
Qed.

Lemma coalesce_whole l :
  Forall (fun r => trunc r = underwayRecord.time r) (Underway.coalesce l).
Proof.
  eapply Forall_impl; [| apply coalesce_times].
  intros r (r0 & _ & Hr). unfold trunc at 1. rewrite Hr. apply Truncate_idem.
Qed.

Lemma map_ext_Forall {A B : Type} (f g : A -> B) l :
  Forall (fun x => f x = g x) l -> map f l = map g l.
Proof. induction 1 as [| x l Hx Hl IH]; cbn [map]; [reflexivity | now rewrite Hx, IH]. Qed.

Lemma whole_no_op l :
  NoDup (map trunc l) -> Forall (fun r => trunc r = underwayRecord.time r) l ->
  Underway.coalesce l = l.
Proof.
  intros Hnd Hwhole. rewrite coalesce_distinct by assumption.
  rewrite <- (map_id l) at 2. apply map_ext_Forall.
  eapply Forall_impl; [| exact Hwhole]. intros r Hr. now apply truncated_whole.
Qed.

(** Coalescing a sorted list a second time changes nothing. *)
Lemma coalesce_idempotent l :
  StronglySorted (fun a b => underwayRecord.time a <= underwayRecord.time b) l ->
  Underway.coalesce (Underway.coalesce l) = Underway.coalesce l.
Proof.
  intros Hs. apply whole_no_op; [| apply coalesce_whole].
  rewrite (map_ext_Forall _ _ _ (coalesce_whole l)).
  apply strictly_sorted_NoDup.
  pose proof (coalesce_sorted l Hs) as Hc.
  induction Hc as [| x c Hc IH Hall]; cbn [map]; constructor; [exact IH |].
  now rewrite Forall_map.
Qed.

(** C1, as stated, fails: a list with one record per second is not left
    as it is when a record carries a fraction of a second; coalescing moves
    the record to the start of its second. *)
Lemma C1_counterexample :
  NoDup (map trunc [half_past])
  /\ Underway.coalesce [half_past]
     = [ {| underwayRecord.time := 1000000000; underwayRecord.data := "$GPGGA" |} ]
  /\ Underway.coalesce [half_past] <> [half_past].
Proof.
  split; [| split].
  - repeat constructor. intros [].
  - reflexivity.
  - discriminate.
Qed.

(** C1 (amended). Coalescing a list with one record per truncated
    second keeps the number, order and payload of the records and moves
    each record's time to the start of its second, so it changes nothing
    when the times are whole seconds; and a run of records that are all the
    records of one truncated second becomes exactly one record, at that
    second, whose payload is the lines of the run joined by a line feed in
    their order, between what the records before and after become; in a
    list sorted by time the records of a second always form such a run, so
    each second that has records has exactly one record afterwards, and
    coalescing the result again changes nothing. *)
Theorem C1_coalesce (l : list underwayRecord.t) :
  (NoDup (map trunc l) ->
     Underway.coalesce l = map truncated l
     /\ (Forall (fun r => trunc r = underwayRecord.time r) l -> Underway.coalesce l = l))
  /\ (forall pre run post s,
        l = pre ++ run ++ post ->
        run <> [] ->
        Forall (fun r => trunc r = s) run ->
        Forall (fun r => trunc r <> s) pre ->
        Forall (fun r => trunc r <> s) post ->
        Underway.coalesce l
        = Underway.coalesce pre
          ++ [ {| underwayRecord.time := s;
                  underwayRecord.data :=
                    strings.Join (map underwayRecord.data run) Underway.LFs |} ]
          ++ Underway.coalesce post)
  /\ (forall s,
        StronglySorted
          (fun a b => underwayRecord.time a <= underwayRecord.time b) l ->
        filter (fun r => trunc r =? s) l <> [] ->
        filter (fun r => underwayRecord.time r =? s) (Underway.coalesce l)
        = [ {| underwayRecord.time := s;
               underwayRecord.data :=
                 strings.Join
                   (map underwayRecord.data (filter (fun r => trunc r =? s) l))
                   Underway.LFs |} ])
  /\ (StronglySorted
        (fun a b => underwayRecord.time a <= underwayRecord.time b) l ->
      Underway.coalesce (Underway.coalesce l) = Underway.coalesce l).
Proof.
  split; [| split; [| split; [intros s; apply coalesce_sorted_run
                             | apply coalesce_idempotent]]].
  - intros Hnd. split; [now apply coalesce_distinct | now apply whole_no_op].
  - intros pre run post s -> Hne Hrun Hpre Hpost.
    now apply coalesce_run.
Qed.

Lemma C1_coalesce_witness :
  Underway.coalesce sample_feed
  = [ {| underwayRecord.time := 1000000000; underwayRecord.data := "a" |};
      {| underwayRecord.time := 2000000000;
         underwayRecord.data := ("b" ++ Underway.LFs ++ "c" ++ Underway.LFs ++ "d")%string |};
      {| underwayRecord.time := 3000000000; underwayRecord.data := "e" |} ].
Proof.
  destruct (C1_coalesce sample_feed) as (_ & Hrun & _ & _).
  rewrite (Hrun (firstn 1 sample_feed) (firstn 3 (skipn 1 sample_feed))
             (skipn 4 sample_feed) 2000000000).
  - reflexivity.
  - reflexivity.
  - discriminate.
  - repeat constructor.
  - repeat constructor. discriminate.
  - repeat constructor. discriminate.
Defined.

(** ** The record list after construction *)

Lemma Evt_ingest_data files : forall e,
  Evt.data (Evt.ingest files e) = Evt.data e ++ evt_discovered files.
Proof.
  induction files as [| f rest IH]; intros e; cbn [Evt.ingest evt_discovered map].
  - now rewrite app_nil_r.
  - destruct (timeFromFilename f) as [t0 err]. rewrite IH. cbn [Evt.data fst].
    now rewrite <- app_assoc.
Qed.

Lemma NewEvt_data files outDir :
  Evt.data (fst (Evt.NewEvt files outDir))
  = sort.SliceStable Evt.less (evt_discovered files).
Proof. unfold Evt.NewEvt. cbn [fst Evt.data]. now rewrite Evt_ingest_data. Qed.

Lemma NewSfl_data disk files outDir s :
  Sfl.NewSfl disk files outDir = (s, None) ->
  Sfl.data s = sort.SliceStable Sfl.less (sfl_discovered disk files outDir).
Proof.
  unfold Sfl.NewSfl, sfl_discovered.
  destruct (Sfl.ingest disk files 0 _) as [s0 [err |]]; [discriminate |].
  intros H. injection H as <-. reflexivity.
Qed.

Lemma Underway_scanLines_data P lines : forall parser n u u',
  Underway.data u = Underway.data u' ->
  Underway.data (Underway.scanLines P parser lines n u)
  = Underway.data (Underway.scanLines P parser lines n u').
Proof.
  induction lines as [| l rest IH]; intros parser n u u' Hd; cbn [Underway.scanLines];
    [exact Hd |].
  destruct (parse.ParseLine P parser (parse.Whitelist P l)) as [parser' [d [msg|]]].
  - apply IH. exact Hd.
  - destruct (parse.OK d); apply IH; cbn [Underway.set_data Underway.data]; congruence.
Qed.

Lemma NewUnderway_data P dial disk file host port throttleSec u :
  Underway.NewUnderway P dial disk file host port throttleSec = (u, None) ->
  exists text, os.ReadFile disk file = Some text
    /\ Underway.data u
       = Underway.coalesce
           (sort.SliceStable Underway.less (underway_discovered P throttleSec text)).
Proof.
  unfold Underway.NewUnderway, underway_discovered.
  destruct dial as [c |]; [| discriminate].
  destruct (os.ReadFile disk file) as [text |]; [| discriminate].
  destruct (bufio.Err text); [discriminate |].
  intros H. injection H as <-. exists text. split; [reflexivity |].
  cbn [Underway.set_data Underway.data]. do 2 f_equal.
  now apply Underway_scanLines_data.
Qed.

Lemma NewSeaLog_data scan disk file outDir s :
  SeaLog.NewSeaLog scan disk file outDir = (s, None) ->
  exists text, os.ReadFile disk file = Some text
    /\ SeaLog.data s
       = sort.SliceStable SeaLog.less (sealog_discovered (fst (scan text)) outDir).
Proof.
  unfold SeaLog.NewSeaLog, sealog_discovered.
  destruct (os.ReadFile disk file) as [text |]; [| discriminate].
  destruct (scan text) as [events [msg |]] eqn:Hscan; [discriminate |].
  intros H. injection H as <-. exists text. rewrite Hscan. split; reflexivity.
Qed.

(** Two sorted lists of instants with the same members are the same
    list. *)
Lemma sorted_perm_eq (a : list Z) : forall b,
  StronglySorted Z.le a -> StronglySorted Z.le b -> Permutation a b -> a = b.
Proof.
  induction a as [| x a IH]; intros b Ha Hb Hp.
  - now apply Permutation_nil in Hp.
  - destruct b as [| y b]; [now apply Permutation_sym, Permutation_nil in Hp |].
    inversion Ha as [| ? ? Ha' Hxa]; subst. inversion Hb as [| ? ? Hb' Hyb]; subst.
    assert (Hxy : x = y).
    { assert (Hx : In x (y :: b)) by (eapply Permutation_in; [exact Hp | now left]).
      assert (Hy : In y (x :: a))
        by (eapply Permutation_in; [apply Permutation_sym; exact Hp | now left]).
      rewrite Forall_forall in Hxa, Hyb.
      destruct Hx as [-> | Hx]; [reflexivity |].
      destruct Hy as [-> | Hy]; [reflexivity |].
      specialize (Hxa _ Hy). specialize (Hyb _ Hx). lia. }
    subst y. f_equal. apply IH; try assumption.
    now apply Permutation_cons_inv in Hp.
Qed.

Lemma sorted_map_key {A : Type} (key : A -> Z) l :
  StronglySorted (fun a b => key a <= key b) l -> StronglySorted Z.le (map key l).
Proof.
  induction 1 as [| x l Hs IH Hall]; cbn [map]; constructor; [exact IH |].
  rewrite Forall_map. exact Hall.
Qed.

(** The times of a sorted list do not depend on the order of discovery. *)
Lemma stable_sort_order_free {A : Type} (key : A -> Z) l1 l2 o1 o2 :
  stable_sort_of key l1 o1 -> stable_sort_of key l2 o2 ->
  Permutation l1 l2 -> map key o1 = map key o2.
Proof.
  intros (Hs1 & Hp1 & _) (Hs2 & Hp2 & _) Hp.
  apply sorted_perm_eq; try now apply sorted_map_key.
  apply Permutation_map.
  rewrite <- Hp1, <- Hp2. exact Hp.
Qed.

Lemma evt_discovered_perm files files' :
  Permutation files files' -> Permutation (evt_discovered files) (evt_discovered files').
Proof. apply Permutation_map. Qed.

(** C7. After a successful construction the record list of every feed
    type is sorted by time, non-decreasing, whatever the order in which the
    files, lines or events were discovered, and the sort is stable: for
    EVT, SFL and the instrument log the list is the stable sort of the
    records in discovery order; for the underway feed the list is what
    coalescing makes of that stable sort, and its times increase strictly.
    The times of a stable sort are the same for every order of discovery;
    so are the times of the EVT feed for every order of its files. *)
Theorem C7_records_sorted :
  (forall files outDir,
     stable_sort_of evtFile.time (evt_discovered files)
       (Evt.data (fst (Evt.NewEvt files outDir))))
  /\ (forall disk files outDir s,
        Sfl.NewSfl disk files outDir = (s, None) ->
        stable_sort_of sflRecord.time (sfl_discovered disk files outDir) (Sfl.data s))
  /\ (forall P dial disk file host port throttleSec u,
        Underway.NewUnderway P dial disk file host port throttleSec = (u, None) ->
        exists text sorted,
          os.ReadFile disk file = Some text
          /\ stable_sort_of underwayRecord.time
               (underway_discovered P throttleSec text) sorted
          /\ Underway.data u = Underway.coalesce sorted
          /\ StronglySorted
               (fun a b => underwayRecord.time a < underwayRecord.time b)
               (Underway.data u))
  /\ (forall scan disk file outDir s,
        SeaLog.NewSeaLog scan disk file outDir = (s, None) ->
        exists text,
          os.ReadFile disk file = Some text
          /\ stable_sort_of seaLogRecord.time
               (sealog_discovered (fst (scan text)) outDir) (SeaLog.data s))
  /\ (forall (A : Type) (key : A -> Z) l1 l2 o1 o2,
        stable_sort_of key l1 o1 -> stable_sort_of key l2 o2 ->
        Permutation l1 l2 -> map key o1 = map key o2)
  /\ (forall files files' outDir,
        Permutation files files' ->
        map evtFile.time (Evt.data (fst (Evt.NewEvt files outDir)))
        = map evtFile.time (Evt.data (fst (Evt.NewEvt files' outDir)))).
Proof.
  split; [| split; [| split; [| split; [| split]]]].
  - intros files outDir. rewrite NewEvt_data.
    apply (SliceStable_stable_sort evtFile.time).
  - intros disk files outDir s H. rewrite (NewSfl_data _ _ _ _ H).
    apply (SliceStable_stable_sort sflRecord.time).
  - intros P dial disk file host port throttleSec u H.
    destruct (NewUnderway_data _ _ _ _ _ _ _ _ H) as (text & Hread & Hdata).
    exists text, (sort.SliceStable Underway.less (underway_discovered P throttleSec text)).
    pose proof (SliceStable_stable_sort underwayRecord.time
                  (underway_discovered P throttleSec text)) as Hsort.
    repeat split; try assumption; try apply Hsort.
    rewrite Hdata. apply coalesce_sorted. apply Hsort.
  - intros scan disk file outDir s H.
    destruct (NewSeaLog_data _ _ _ _ _ H) as (text & Hread & Hdata).
    exists text. split; [exact Hread |]. rewrite Hdata.
    apply (SliceStable_stable_sort seaLogRecord.time).
  - intros A key l1 l2 o1 o2. apply stable_sort_order_free.
  - intros files files' outDir Hp. rewrite !NewEvt_data.
    eapply stable_sort_order_free.
    + apply (SliceStable_stable_sort evtFile.time).
    + apply (SliceStable_stable_sort evtFile.time).
    + now apply evt_discovered_perm.
Qed.

(** ** The delimited-log (SFL) ingestor *)

(** One data line, read as line [lineNum + 1 >= 2]: a record when the
    line yields a time, a warning otherwise. *)
Lemma scanFile_step f idx lineText rest lineNum header s :
  1 <= lineNum ->
  exists s1,
    Sfl.scanFile f idx (lineText :: rest) lineNum header s
    = Sfl.scanFile f idx rest (lineNum + 1) header s1
    /\ Sfl.data s1
       = Sfl.data s ++ (if lineNum =? 1 then sfl_second header idx lineText
                        else sfl_plain idx lineText)
    /\ (sfl_time lineText = None ->
        exists msg, s1 = Sfl.add_warning s msg).
Proof.
  intros Hn. cbn [Sfl.scanFile]. unfold sfl_second, sfl_plain, sfl_time.
  destruct (Z.eqb_spec (lineNum + 1) 1) as [Habs | _]; [lia |].
  destruct ((1 <? len (strings.Split lineText TAB))
            && (String.length (nth 0 (strings.Split lineText TAB) EmptyString) =? 25)%nat).
  - destruct (time.Parse_RFC3339 _) as [t [err |]].
    + eexists. split; [reflexivity |]. split.
      * cbn [Sfl.add_warning Sfl.data]. destruct (lineNum =? 1); now rewrite app_nil_r.
      * intros _. eexists. reflexivity.
    + eexists. split; [reflexivity |]. split.
      * cbn [Sfl.add_data Sfl.data].
        replace (lineNum + 1 =? 2) with (lineNum =? 1); [now destruct (lineNum =? 1) |].
        destruct (Z.eqb_spec lineNum 1), (Z.eqb_spec (lineNum + 1) 2); auto; lia.
      * discriminate.
  - eexists. split; [reflexivity |]. split.
    + cbn [Sfl.add_warning Sfl.data]. destruct (lineNum =? 1); now rewrite app_nil_r.
    + intros _. eexists. reflexivity.
Qed.

(** The records of the lines after the second. *)
Lemma scanFile_later f idx lines : forall lineNum header s,
  2 <= lineNum ->
  Sfl.data (Sfl.scanFile f idx lines lineNum header s)
  = Sfl.data s ++ flat_map (sfl_plain idx) lines.
Proof.
  induction lines as [| l rest IH]; intros lineNum header s Hn.
  - cbn [Sfl.scanFile flat_map]. now rewrite app_nil_r.
  - destruct (scanFile_step f idx l rest lineNum header s ltac:(lia)) as (s1 & -> & Hd & _).
    rewrite IH by lia. rewrite Hd.
    destruct (Z.eqb_spec lineNum 1); [lia |].
    cbn [flat_map]. now rewrite <- app_assoc.
Qed.

(** The records of a whole file. *)
Lemma scanFile_file f idx header line2 later s :
  Sfl.data (Sfl.scanFile f idx (header :: line2 :: later) 0 EmptyString s)
  = Sfl.data s ++ sfl_second header idx line2 ++ flat_map (sfl_plain idx) later.
Proof.
  change (Sfl.scanFile f idx (header :: line2 :: later) 0 EmptyString s)
    with (Sfl.scanFile f idx (line2 :: later) 1 header (Sfl.add_path s f)).
  destruct (scanFile_step f idx line2 later 1 header (Sfl.add_path s f) ltac:(lia))
    as (s1 & -> & Hd & _).
  rewrite scanFile_later by lia. rewrite Hd. cbn [Z.eqb Pos.eqb Sfl.add_path Sfl.data].
  now rewrite <- app_assoc.
Qed.

Lemma string_app_nil_r (s : string) : (s ++ "")%string = s.
Proof. induction s as [| c s IH]; cbn; [reflexivity | now rewrite IH]. Qed.

Lemma string_app_assoc (a b c : string) : ((a ++ b) ++ c)%string = (a ++ b ++ c)%string.
Proof. induction a as [| x a IH]; cbn; [reflexivity | now rewrite IH]. Qed.

Lemma ReadFile_Append disk path text :
  os.ReadFile (os.Append disk path text) path = Some (content disk path ++ text)%string.
Proof.
  unfold content. induction disk as [| [p c] disk IH]; cbn [os.Append os.ReadFile].
  - now rewrite String.eqb_refl.
  - destruct (String.eqb p path) eqn:Heq; cbn [os.ReadFile]; rewrite Heq; auto.
Qed.

(** An Emit that finds no output file open, or finds open the file it
    is to write, appends the payload and a line terminator to that file. *)
Lemma Sfl_Emit_writes fuel s w rec path t0 :
  0 <= Sfl.i s ->
  nth_error (Sfl.data s) (Z.to_nat (Sfl.i s)) = Some rec ->
  0 <= sflRecord.idx rec ->
  nth_error (Sfl.paths s) (Z.to_nat (sflRecord.idx rec)) = Some path ->
  timeFromFilename path = (t0, None) ->
  Sfl.file s = None
  \/ Sfl.file s = Some {| os.Name := sfl_outPath (Sfl.outDir s) path t0;
                         os.closed := false |} ->
  exists s' w',
    Sfl.Emit (S fuel) s w = Some (None, s', w')
    /\ os.ReadFile (fs w') (sfl_outPath (Sfl.outDir s) path t0)
       = Some (content (fs w) (sfl_outPath (Sfl.outDir s) path t0)
               ++ sflRecord.data rec ++ CRLF)%string.
Proof.
  intros Hi Hrec Hidx Hpath Htime Hfile. unfold Sfl.Emit.
  destruct (Z.ltb_spec (Sfl.i s) 0) as [Hneg | _]; [lia |].
  rewrite Hrec. cbn [bind].
  destruct (Z.ltb_spec (sflRecord.idx rec) 0) as [Hneg | _]; [lia |].
  cbn [bind]. rewrite Hpath. cbn [bind]. rewrite Htime.
  fold (sfl_outPath (Sfl.outDir s) path t0).
  destruct Hfile as [Hfile | Hfile]; rewrite Hfile.
  - cbn [Sfl.Close]. rewrite Hfile. cbn [bind os.OpenFile].
    eexists. eexists. split; [reflexivity |].
    cbn [fs]. unfold os.WriteString. cbn [os.closed os.Name os.WriteString_n os.reliable].
    rewrite ReadFile_Append. unfold content at 1. rewrite ReadFile_Append.
    now rewrite string_app_nil_r.
  - cbn [os.Name]. rewrite String.eqb_refl. cbn [negb].
    eexists. eexists. split; [reflexivity |].
    cbn [fs]. unfold os.WriteString. cbn [os.closed os.Name os.WriteString_n os.reliable].
    now rewrite ReadFile_Append.
Qed.

(** C8. The records NewSfl makes of one file: the second line, when it
    yields a time, gives a record whose payload is the header line, a line
    terminator (CR LF) and the line; every later line that yields a time
    gives a record whose payload is the line alone. When Emit writes a
    record, finding no output file open or the record's own output file,
    the payload is appended there whole, the header included, followed by
    a line terminator. *)
Theorem C8_sfl_header :
  (forall f idx header line2 later s,
     Sfl.data (Sfl.scanFile f idx (header :: line2 :: later) 0 EmptyString s)
     = Sfl.data s
       ++ match sfl_time line2 with
          | Some t =>
              [ {| sflRecord.time := t; sflRecord.idx := idx;
                   sflRecord.data := (header ++ CRLF ++ line2)%string |} ]
          | None => []
          end
       ++ flat_map
            (fun lineText =>
               match sfl_time lineText with
               | Some t =>
                   [ {| sflRecord.time := t; sflRecord.idx := idx;
                        sflRecord.data := lineText |} ]
               | None => []
               end) later)
  /\ (forall fuel s w rec path t0,
        0 <= Sfl.i s ->
        nth_error (Sfl.data s) (Z.to_nat (Sfl.i s)) = Some rec ->
        0 <= sflRecord.idx rec ->
        nth_error (Sfl.paths s) (Z.to_nat (sflRecord.idx rec)) = Some path ->
        timeFromFilename path = (t0, None) ->
        Sfl.file s = None
        \/ Sfl.file s = Some {| os.Name := sfl_outPath (Sfl.outDir s) path t0;
                               os.closed := false |} ->
        exists s' w',
          Sfl.Emit (S fuel) s w = Some (None, s', w')
          /\ os.ReadFile (fs w') (sfl_outPath (Sfl.outDir s) path t0)
             = Some (content (fs w) (sfl_outPath (Sfl.outDir s) path t0)
                     ++ sflRecord.data rec ++ CRLF)%string).
Proof.
  split.
  - intros. apply scanFile_file.
  - intros. now apply Sfl_Emit_writes.
Qed.

(** The sample log through NewSfl, Next and Emit: two records sorted by
    time, one warning, and the header written with the second line. *)
Lemma C8_sfl_header_witness :
  Sfl.data sample_sfl
  = [ {| sflRecord.time := time.Date 2021 5 1 10 0 1 0; sflRecord.idx := 0;
         sflRecord.data := ("2021-05-01T10-00-01+00-00" ++ String TAB "b")%string |};
      {| sflRecord.time := time.Date 2021 5 1 10 0 5 0; sflRecord.idx := 0;
         sflRecord.data :=
           ("FILE" ++ String TAB "DATE" ++ CRLF
            ++ "2021-05-01T10-00-05+00-00" ++ String TAB "a")%string |} ]
  /\ List.length (Sfl.warnings sample_sfl) = 1%nat
  /\ exists s' w',
       Sfl.Emit 1 (Sfl.set_i sample_sfl 1) {| fs := []; sent := [] |} = Some (None, s', w')
       /\ os.ReadFile (fs w') "out/datafiles/evt/2021_121/2021-05-01T10-00-00+00-00.sfl"
          = Some ("FILE" ++ String TAB "DATE" ++ CRLF
                  ++ "2021-05-01T10-00-05+00-00" ++ String TAB "a" ++ CRLF)%string.
Proof.
  split; [vm_compute; reflexivity |]. split; [vm_compute; reflexivity |].
  destruct C8_sfl_header as [_ Hemit].
  destruct (Hemit 0%nat (Sfl.set_i sample_sfl 1) {| fs := []; sent := [] |}
              {| sflRecord.time := time.Date 2021 5 1 10 0 5 0; sflRecord.idx := 0;
                 sflRecord.data :=
                   ("FILE" ++ String TAB "DATE" ++ CRLF
                    ++ "2021-05-01T10-00-05+00-00" ++ String TAB "a")%string |}
              sample_sfl_path (time.Date 2021 5 1 10 0 0 0))
    as (s' & w' & Hrun & Hread).
  - vm_compute. discriminate.
  - vm_compute. reflexivity.
  - vm_compute. discriminate.
  - vm_compute. reflexivity.
  - vm_compute. reflexivity.
  - left. vm_compute. reflexivity.
  - exists s', w'. split; [exact Hrun |].
    rewrite <- Hread at 1. f_equal.
Defined.

(** ** The driver: startEmitter *)

Lemma Before_false t u : time.Before t u = false <-> u <= t.
Proof. unfold time.Before. apply Z.ltb_ge. Qed.

Lemma Before_true t u : time.Before t u = true <-> t < u.
Proof. unfold time.Before. apply Z.ltb_lt. Qed.

Section DriverFacts.
Context {E : Type} {impl : Emitter.ops E}.
Variables (cruiseStart replayStart : time.Time) (warp : float64.t).

(** Emit is only ever called with the cursor on a record that is not
    before the cruise start. *)
Lemma startEmitter_recTimes fuel : forall e w,
  Forall (fun ev => cruiseStart <= recTime ev)
    (fst (fst (fst (cmd.startEmitter cruiseStart replayStart warp fuel e w)))).
Proof.
  induction fuel as [| fuel IH]; intros e w; cbn [cmd.startEmitter].
  - constructor.
  - destruct (Emitter.Next e) as [more e1]. destruct more; cbn [negb]; [| constructor].
    destruct (time.Before (Emitter.Time e1) cruiseStart) eqn:Hb; [apply IH |].
    apply Before_false in Hb.
    destruct (_ <? 0); [constructor |].
    destruct (Emitter.Emit fuel e1 w) as [[[err e2] w2] |]; [| constructor].
    specialize (IH e2 w2).
    destruct (cmd.startEmitter cruiseStart replayStart warp fuel e2 w2) as [[[evs x] e3] w3].
    cbn [fst] in *. constructor; [exact Hb | exact IH].
Qed.

(** A record before the cruise start is passed over: no event, and the
    receiver and the world go on as Next left them. *)
Lemma startEmitter_skip fuel e e1 w :
  Emitter.Next e = (true, e1) ->
  Emitter.Time e1 < cruiseStart ->
  cmd.startEmitter cruiseStart replayStart warp (S fuel) e w
  = cmd.startEmitter cruiseStart replayStart warp fuel e1 w.
Proof.
  intros Hnext Hlt. cbn [cmd.startEmitter]. rewrite Hnext. cbn [negb].
  now rewrite (proj2 (Before_true _ _) Hlt).
Qed.

(** The panic is the [delta < 0] test on a record that passed the skip
    test. *)
Lemma startEmitter_panic fuel : forall e w evs delta t e' w',
  cmd.startEmitter cruiseStart replayStart warp fuel e w
  = (evs, cmd.Panicked delta t, e', w') ->
  cruiseStart <= t /\ delta = cmd.warped (time.Sub t cruiseStart) warp /\ delta < 0.
Proof.
  induction fuel as [| fuel IH]; intros e w evs delta t e' w'; cbn [cmd.startEmitter].
  - discriminate.
  - destruct (Emitter.Next e) as [more e1]. destruct more; cbn [negb]; [| discriminate].
    destruct (time.Before (Emitter.Time e1) cruiseStart) eqn:Hb; [apply IH |].
    apply Before_false in Hb.
    destruct (Z.ltb_spec (cmd.warped (time.Sub (Emitter.Time e1) cruiseStart) warp) 0)
      as [Hneg | Hpos].
    + intros H. injection H as <- <- <- <- <-. auto.
    + destruct (Emitter.Emit fuel e1 w) as [[[err e2] w2] |]; [| discriminate].
      specialize (IH e2 w2).
      destruct (cmd.startEmitter cruiseStart replayStart warp fuel e2 w2)
        as [[[evs2 x] e3] w3].
      intros H. injection H as <- -> <- <-. eapply IH. reflexivity.
Qed.

End DriverFacts.

(** *** The warp division *)

Lemma binary_round_aux_nonneg mx ex lx :
  nonneg (binary_round_aux float64.prec float64.emax false mx ex lx).
Proof.
  unfold binary_round_aux.
  destruct (shr_fexp _ _ mx ex lx) as [mrs' e'].
  destruct (shr_fexp _ _ _ e' loc_Exact) as [mrs'' e''].
  destruct (shr_m mrs''); cbn; auto.
  destruct (_ <=? _)%Z; cbn; auto.
Qed.

Lemma of_int64_nonneg d : 0 <= d -> nonneg (float64.of_int64 d).
Proof.
  intros Hd. unfold float64.of_int64, binary_normalize.
  destruct d as [| p | p]; [reflexivity | | lia].
  unfold binary_round. destruct (shl_align _ _ _) as [mz ez].
  apply binary_round_aux_nonneg.
Qed.

Lemma div_nonneg x w :
  nonneg x -> float64.positive_finite w = true -> nonneg (float64.div x w).
Proof.
  intros Hx Hw. destruct w as [| | | [|] mw ew]; try discriminate.
  unfold float64.div, SFdiv.
  destruct x as [s | s | | s mx ex]; cbn in Hx; subst; cbn [xorb nonneg]; auto.
  destruct (SFdiv_core_binary _ _ _ _ _ _) as [[mz ez] lz].
  apply binary_round_aux_nonneg.
Qed.

Lemma trunc_nonneg x z : nonneg x -> float64.trunc x = Some z -> 0 <= z.
Proof.
  destruct x as [s | s | | s m e]; cbn [nonneg float64.trunc]; try discriminate.
  - intros _ H. injection H as <-. lia.
  - intros -> H. injection H as <-.
    destruct (Z.leb_spec 0 e) as [He | He].
    + change (0 <= Z.pos m * 2 ^ e).
      apply Z.mul_nonneg_nonneg; [lia | apply Z.pow_nonneg; lia].
    + change (0 <= Z.pos m / 2 ^ (- e)).
      apply Z.div_pos; [lia |]. apply Z.pow_pos_nonneg; lia.
Qed.

Lemma Sub_nonneg t u : u <= t -> 0 <= time.Sub t u.
Proof.
  intros H. unfold time.Sub.
  destruct ((time.minDuration <=? t - u) && (t - u <=? time.maxDuration)); [lia |].
  rewrite (proj2 (Before_false t u) H). unfold time.maxDuration. lia.
Qed.

Lemma warped_nonneg delta warp :
  0 <= delta -> float64.positive_finite warp = true -> quotient_fits delta warp = true ->
  0 <= cmd.warped delta warp.
Proof.
  intros Hd Hw Hfit. unfold cmd.warped, float64.to_int64. unfold quotient_fits in Hfit.
  destruct (float64.trunc _) as [z |] eqn:Ht; [| discriminate].
  rewrite Hfit. eapply trunc_nonneg; [| exact Ht].
  apply div_nonneg; [now apply of_int64_nonneg | exact Hw].
Qed.

Lemma warped_zero warp : float64.positive_finite warp = true -> cmd.warped 0 warp = 0.
Proof. destruct warp as [| | | [|] m e]; try discriminate. reflexivity. Qed.

Lemma Sub_self t : time.Sub t t = 0.
Proof. unfold time.Sub. now rewrite Z.sub_diag. Qed.

(** *** What a driver emits, for a feed that is a list with a cursor *)

Lemma skipn_nth_cons {A : Type} (l : list A) : forall n x,
  nth_error l n = Some x -> skipn n l = x :: skipn (S n) l.
Proof.
  induction l as [| a l IH]; intros [| n] x H; cbn in *; try discriminate.
  - now injection H as ->.
  - now apply IH.
Qed.

Section SequenceFeed.
Context {E : Type} {impl : Emitter.ops E}.
Variables (pos : E -> Z) (times : E -> list time.Time).

Hypothesis Next_more : forall e, pos e + 1 < len (times e) ->
  exists e', Emitter.Next e = (true, e')
             /\ pos e' = pos e + 1 /\ times e' = times e.

Hypothesis Next_end : forall e, len (times e) <= pos e + 1 ->
  Emitter.Next e = (false, e).

Hypothesis Time_cursor : forall e t,
  0 <= pos e -> nth_error (times e) (Z.to_nat (pos e)) = Some t -> Emitter.Time e = t.

Hypothesis Emit_keeps : forall fuel e w err e' w',
  Emitter.Emit fuel e w = Some (err, e', w') -> pos e' = pos e /\ times e' = times e.

Lemma emits_from_origin_holds : emits_from_origin pos times.
Proof.
  intros cruiseStart replayStart warp fuel.
  induction fuel as [| fuel IH]; intros e w Hpos; cbn [cmd.startEmitter].
  - eexists. split; [reflexivity | split; [discriminate | lia]].
  - destruct (Z_lt_le_dec (pos e + 1) (len (times e))) as [Hlt | Hge].
    + destruct (Next_more e Hlt) as (e1 & -> & Hp1 & Ht1). cbn [negb].
      assert (Hnth : exists t, nth_error (times e) (Z.to_nat (pos e + 1)) = Some t).
      { destruct (nth_error (times e) (Z.to_nat (pos e + 1))) eqn:Hn; [eauto |].
        apply nth_error_None in Hn. unfold len in Hlt. lia. }
      destruct Hnth as (t & Hnth).
      assert (Htime : Emitter.Time e1 = t).
      { apply Time_cursor; [lia |]. now rewrite Hp1, Ht1. }
      rewrite (skipn_nth_cons _ _ _ Hnth). cbn [filter]. rewrite Htime.
      replace (S (Z.to_nat (pos e + 1))) with (Z.to_nat (pos e1 + 1)) by lia.
      rewrite <- Ht1.
      destruct (time.Before t cruiseStart); cbn [negb].
      * specialize (IH e1 w ltac:(lia)).
        destruct (cmd.startEmitter cruiseStart replayStart warp fuel e1 w)
          as [[[evs x] e3] w3].
        destruct IH as (rest & Hrest & Hdone & Hfuel).
        exists rest. split; [exact Hrest | split; [exact Hdone |]].
        intros Hf. apply Hfuel.
        assert (Hlen : len (times e1) = len (times e)) by now rewrite Ht1.
        lia.
      * destruct (_ <? 0).
        { eexists. split; [reflexivity | split; discriminate]. }
        destruct (Emitter.Emit fuel e1 w) as [[[err e2] w2] |] eqn:Hemit.
        2:{ eexists. split; [reflexivity | split; discriminate]. }
        destruct (Emit_keeps _ _ _ _ _ _ Hemit) as [Hp2 Ht2].
        specialize (IH e2 w2 ltac:(lia)).
        destruct (cmd.startEmitter cruiseStart replayStart warp fuel e2 w2)
          as [[[evs x] e3] w3].
        destruct IH as (rest & Hrest & Hdone & Hfuel).
        exists rest. split; [| split; [exact Hdone |]].
        -- cbn [map recTime app]. f_equal. rewrite <- Hrest. now rewrite Hp2, Ht2.
        -- intros Hf. apply Hfuel.
           assert (Hlen1 : len (times e1) = len (times e)) by now rewrite Ht1.
           assert (Hlen2 : len (times e2) = len (times e1)) by now rewrite Ht2.
           lia.
    + rewrite (Next_end e Hge). cbn [negb].
      exists []. split; [| split; [reflexivity | discriminate]].
      rewrite skipn_all2; [reflexivity |]. unfold len in Hge. lia.
Qed.

End SequenceFeed.

(** Sfl.Close, when it returns, returns its receiver. *)
Lemma Sfl_Close_same fuel : forall s err s',
  Sfl.Close fuel s = Some (err, s') -> s' = s.
Proof.
  induction fuel as [| fuel IH]; intros s err s'; cbn [Sfl.Close]; [discriminate |].
  destruct (Sfl.file s).
  - destruct (Sfl.Close fuel s) as [[err1 s1] |] eqn:Hc; [| discriminate].
    intros H. injection H as <- <-. eapply IH. exact Hc.
  - intros H. now injection H as <- <-.
Qed.

Lemma len_map {A B : Type} (f : A -> B) l : len (map f l) = len l.
Proof. unfold len. now rewrite length_map. Qed.

Lemma len_pos_of_nth {A : Type} (l : list A) n x : nth_error l n = Some x -> 0 < len l.
Proof. unfold len. destruct l; [destruct n; discriminate | cbn; lia]. Qed.

(** The three laws of [Section SequenceFeed] that the four feed types
    prove alike: Next while records remain, Next at the end, and Time. *)
Ltac seq_next_more set_i :=
  let e := fresh "e" in let H := fresh "H" in
  intros e; cbn beta; rewrite len_map; intros H; exists (set_i e); cbn;
  split; [| split; reflexivity];
  match goal with |- ?next _ = _ => unfold next end;
  match goal with
  | |- context [?a <? ?b] => destruct (Z.ltb_spec a b); [reflexivity | lia]
  end.

Ltac seq_next_end :=
  let e := fresh "e" in let H := fresh "H" in
  intros e; cbn beta; rewrite len_map; intros H; cbn;
  match goal with |- ?next _ = _ => unfold next end;
  match goal with
  | |- context [?a <? ?b] => destruct (Z.ltb_spec a b); [lia | reflexivity]
  end.

Ltac seq_time :=
  let e := fresh "e" in let t := fresh "t" in
  let Hi := fresh "Hi" in let Hn := fresh "Hn" in
  let r := fresh "r" in let Hr := fresh "Hr" in
  intros e t Hi Hn; cbn beta in Hn; rewrite nth_error_map in Hn;
  match type of Hn with
  | context [nth_error ?l ?n] =>
      destruct (nth_error l n) as [r |] eqn:Hr; [| discriminate];
      pose proof (len_pos_of_nth _ _ _ Hr)
  end;
  cbn in Hn; injection Hn as <-; cbn;
  match goal with |- ?time _ = _ => unfold time end;
  repeat match goal with
         | |- context [?a <=? ?b] => destruct (Z.leb_spec a b); [| lia]
         | |- context [?a <? ?b] => destruct (Z.ltb_spec a b); [| lia]
         end;
  cbn; now rewrite Hr.

Lemma Evt_emits : emits_from_origin Evt.i (fun e => map evtFile.time (Evt.data e)).
Proof.
  apply emits_from_origin_holds.
  - seq_next_more (fun e => Evt.set_i e (Evt.i e + 1)).
  - seq_next_end.
  - seq_time.
  - unfold Emitter.Emit, Evt_Emitter, Evt.Emit. intros fuel e w err e' w'.
    destruct (_ <? 0); [intros H; now injection H as <- <- <- |].
    destruct (nth_error _ _); [| discriminate].
    destruct (os.ReadFile _ _); intros H; now injection H as <- <- <-.
Qed.

Lemma Sfl_emits : emits_from_origin Sfl.i (fun s => map sflRecord.time (Sfl.data s)).
Proof.
  apply emits_from_origin_holds.
  - seq_next_more (fun e => Sfl.set_i e (Sfl.i e + 1)).
  - seq_next_end.
  - seq_time.
  - unfold Emitter.Emit, Sfl_Emitter, Sfl.Emit. intros fuel s w err s' w'.
    destruct (_ <? 0); [intros H; now injection H as <- <- <- |].
    destruct (nth_error (Sfl.data s) _) as [rec |]; [| discriminate]. cbn [bind].
    destruct (_ <? 0); [discriminate |]. cbn [bind].
    destruct (nth_error (Sfl.paths s) _) as [path |]; [| discriminate]. cbn [bind].
    destruct (timeFromFilename path) as [t0 [msg |]];
      [intros H; now injection H as <- <- <- |].
    destruct (match Sfl.file s with Some f => _ | None => true end).
    + destruct (Sfl.Close fuel s) as [[err1 s1] |] eqn:Hc; [| discriminate].
      apply Sfl_Close_same in Hc. subst s1. cbn [bind].
      destruct err1; intros H; now injection H as <- <- <-.
    + destruct (Sfl.file s); [| discriminate].
      intros H; now injection H as <- <- <-.
Qed.

Lemma Underway_emits :
  emits_from_origin Underway.i (fun u => map underwayRecord.time (Underway.data u)).
Proof.
  apply emits_from_origin_holds.
  - seq_next_more (fun e => Underway.set_i e (Underway.i e + 1)).
  - seq_next_end.
  - seq_time.
  - unfold Emitter.Emit, Underway_Emitter, Underway.Emit. intros fuel u w err u' w'.
    destruct (_ <? 0); [intros H; now injection H as <- <- <- |].
    destruct (nth_error _ _); [| discriminate]. cbn [bind].
    destruct (Underway.conn u) as [c |]; [| discriminate]. cbn [bind].
    destruct (net.closed c); intros H; now injection H as <- <- <-.
Qed.

Lemma SeaLog_emits :
  emits_from_origin SeaLog.i (fun s => map seaLogRecord.time (SeaLog.data s)).
Proof.
  apply emits_from_origin_holds.
  - seq_next_more (fun e => SeaLog.set_i e (SeaLog.i e + 1)).
  - seq_next_end.
  - seq_time.
  - unfold Emitter.Emit, SeaLog_Emitter, SeaLog.Emit. intros fuel s w err s' w'.
    destruct (_ <? 0); [intros H; now injection H as <- <- <- |].
    destruct (nth_error _ _); [| discriminate]. cbn [bind].
    cbn [os.MkdirAll_err os.OpenFile_err os.reliable].
    destruct (SeaLog.file s); [intros H; now injection H as <- <- <- |].
    destruct (os.OpenFile _ _) as [f disk]. intros H; now injection H as <- <- <-.
Qed.

(** C3. For every implementation of the Emitter interface, every cruise
    start, replay start and warp: (1) whenever the driver calls Emit, the
    record under the cursor is not before the cruise start; (2) a record
    strictly before the cruise start is passed over in silence: the run is
    the run that continues after it, with no event, no error and no change
    of the world; (3) a record at the cruise start exactly is not passed
    over: with a positive finite warp it is emitted, at the replay start.
    And for each of the four feed types, (4) the records passed to Emit
    are, in order, the records of the list that are not before the cruise
    start: all of them when the driver ends with Done, the first ones when
    it ends otherwise; and the loop ends by itself, within one turn per
    record left and one more. *)
Theorem C3_skip_before_origin :
  (forall (E : Type) (impl : Emitter.ops E)
          (cruiseStart replayStart : time.Time) (warp : float64.t),
     (forall fuel e w,
        Forall (fun ev => cruiseStart <= recTime ev)
          (fst (fst (fst (cmd.startEmitter cruiseStart replayStart warp fuel e w)))))
     /\ (forall fuel e e1 w,
           Emitter.Next e = (true, e1) ->
           Emitter.Time e1 < cruiseStart ->
           cmd.startEmitter cruiseStart replayStart warp (S fuel) e w
           = cmd.startEmitter cruiseStart replayStart warp fuel e1 w)
     /\ (forall fuel e e1 w err e2 w2,
           Emitter.Next e = (true, e1) ->
           Emitter.Time e1 = cruiseStart ->
           float64.positive_finite warp = true ->
           Emitter.Emit fuel e1 w = Some (err, e2, w2) ->
           cmd.startEmitter cruiseStart replayStart warp (S fuel) e w
           = let '(evs, x, e3, w3) :=
               cmd.startEmitter cruiseStart replayStart warp fuel e2 w2 in
             (cmd.Fired (Emitter.Name e1) replayStart cruiseStart err :: evs, x, e3, w3)))
  /\ emits_from_origin Evt.i (fun e => map evtFile.time (Evt.data e))
  /\ emits_from_origin Sfl.i (fun s => map sflRecord.time (Sfl.data s))
  /\ emits_from_origin Underway.i (fun u => map underwayRecord.time (Underway.data u))
  /\ emits_from_origin SeaLog.i (fun s => map seaLogRecord.time (SeaLog.data s)).
Proof.
  split; [| split; [apply Evt_emits | split; [apply Sfl_emits |
            split; [apply Underway_emits | apply SeaLog_emits]]]].
  intros E impl cruiseStart replayStart warp. split; [| split].
  - intros. apply startEmitter_recTimes.
  - intros. now apply startEmitter_skip.
  - intros fuel e e1 w err e2 w2 Hnext Htime Hwarp Hemit.
    cbn [cmd.startEmitter]. rewrite Hnext. cbn [negb]. rewrite Htime.
    rewrite (proj2 (Before_false cruiseStart cruiseStart) (Z.le_refl _)).
    rewrite Sub_self, warped_zero by assumption.
    cbn [Z.ltb Z.compare]. rewrite Hemit. unfold time.Add. now rewrite Z.add_0_r.
Qed.

(** C4, as stated, fails in the build for amd64. With the default warp
    1.0 and a cruise start at the zero Time (what minTime answers when a
    feed has no data), a record of 2021 is not before the cruise start, the
    difference saturates at the longest Duration, its float64 is 2^63, and
    the conversion back answers the least int64: the delay is negative.
    The same happens with a cruise start given as 1800-01-01T00:00:00Z and
    a warp of 0.5, where nothing saturates. *)
Lemma C4_counterexample :
  (time.Before (time.Date 2021 5 1 10 0 0 0) time.zero = false
   /\ float64.positive_finite warp_one = true
   /\ cmd.warped (time.Sub (time.Date 2021 5 1 10 0 0 0) time.zero) warp_one = - 2 ^ 63)
  /\ (time.Before (time.Date 2021 5 1 10 0 0 0) (time.Date 1800 1 1 0 0 0 0) = false
      /\ float64.positive_finite warp_half = true
      /\ time.Sub (time.Date 2021 5 1 10 0 0 0) (time.Date 1800 1 1 0 0 0 0)
         = 6984525600000000000
      /\ cmd.warped (time.Sub (time.Date 2021 5 1 10 0 0 0) (time.Date 1800 1 1 0 0 0 0))
           warp_half = - 2 ^ 63).
Proof. vm_compute. repeat split; reflexivity. Qed.

(** C4 (amended). With a positive finite warp: for a record that is
    not before the cruise start, if the quotient of the float64 of the time
    difference by the warp fits an int64, the delay the driver computes is
    not negative; so a driver can only reach the [delta < 0] panic on a
    record whose quotient does not fit. *)
Theorem C4_delay_nonneg (cruiseStart : time.Time) (warp : float64.t) :
  float64.positive_finite warp = true ->
  (forall t,
     time.Before t cruiseStart = false ->
     quotient_fits (time.Sub t cruiseStart) warp = true ->
     0 <= cmd.warped (time.Sub t cruiseStart) warp)
  /\ (forall (E : Type) (impl : Emitter.ops E) replayStart fuel e w evs delta t e' w',
        cmd.startEmitter cruiseStart replayStart warp fuel e w
        = (evs, cmd.Panicked delta t, e', w') ->
        quotient_fits (time.Sub t cruiseStart) warp = false).
Proof.
  intros Hwarp. split.
  - intros t Hb Hfit. apply Before_false in Hb.
    apply warped_nonneg; [now apply Sub_nonneg | exact Hwarp | exact Hfit].
  - intros E impl replayStart fuel e w evs delta t e' w' Hrun.
    destruct (startEmitter_panic _ _ _ _ _ _ _ _ _ _ _ Hrun) as (Hle & -> & Hneg).
    destruct (quotient_fits (time.Sub t cruiseStart) warp) eqn:Hfit; [| reflexivity].
    pose proof (warped_nonneg _ _ (Sub_nonneg _ _ Hle) Hwarp Hfit). lia.
Qed.

(** A record five seconds after a cruise start of 2021, warp 1.0: the
    delay is five seconds. *)
Lemma C4_delay_nonneg_witness :
  0 <= cmd.warped
         (time.Sub (time.Date 2021 5 1 10 0 5 0) (time.Date 2021 5 1 10 0 0 0)) warp_one.
Proof.
  apply (proj1 (C4_delay_nonneg (time.Date 2021 5 1 10 0 0 0) warp_one eq_refl)).
  - vm_compute. reflexivity.
  - vm_compute. reflexivity.
Defined.

(** ** The cruise-time origin: minTime *)

Lemma minTime_from_nonzero es : forall first,
  first <> time.zero ->
  Forall (fun e => earliest e <> time.zero) es ->
  cmd.minTime_from es first = fold_left Z.min (map earliest es) first.
Proof.
  induction es as [| e es IH]; intros first Hfirst Hall; cbn [cmd.minTime_from map fold_left].
  - reflexivity.
  - inversion Hall as [| ? ? He Hes]; subst. fold (earliest e).
    unfold time.IsZero, time.Before.
    destruct (Z.eqb_spec first 0) as [Hz | _]; [contradiction |]. cbn [orb].
    destruct (Z.ltb_spec (earliest e) first) as [Hlt | Hge].
    + rewrite IH by assumption. now rewrite Z.min_r by lia.
    + rewrite IH by assumption. now rewrite Z.min_l by lia.
Qed.

(** When every feed has data, and none starts at the zero Time, minTime
    is the least of the earliest times. *)
Lemma minTime_nonzero es :
  Forall (fun e => earliest e <> time.zero) es ->
  cmd.minTime es = minimum (map earliest es).
Proof.
  intros Hall. unfold cmd.minTime. destruct es as [| e es]; [reflexivity |].
  inversion Hall as [| ? ? He Hes]; subst.
  cbn [cmd.minTime_from map minimum]. fold (earliest e).
  cbn [time.IsZero time.zero Z.eqb orb]. now apply minTime_from_nonzero.
Qed.

(** *** A replay of two EVT files *)

(** C5 fails on the code. With EVT data from 10:00:00, no SFL and no
    underway data, and an instrument log that starts at 10:00:07, minTime
    answers 10:00:07: not the least of the four earliest times (the zero
    Time of the empty feeds), and not the earliest record either. The
    answer depends on the order of the feeds: examined in the reverse
    order, the same feeds give 10:00:00. *)
Theorem C5_minTime_empty_feed :
  map earliest (cmd.emitters evt_two sfl_none underway_none sealog_one)
  = [ time.Date 2021 5 1 10 0 0 0; time.zero; time.zero; time.Date 2021 5 1 10 0 7 0 ]
  /\ cmd.minTime (cmd.emitters evt_two sfl_none underway_none sealog_one)
     = time.Date 2021 5 1 10 0 7 0
  /\ minimum (map earliest (cmd.emitters evt_two sfl_none underway_none sealog_one))
     = time.zero
  /\ cmd.minTime (rev (cmd.emitters evt_two sfl_none underway_none sealog_one))
     = time.Date 2021 5 1 10 0 0 0.
Proof. vm_compute. repeat split; reflexivity. Qed.

(** The scheduler on the EVT feed alone: the cruise start is the time
    of the first file, the replay start is five seconds from now, and the
    two files fire five and ten seconds from now. *)
Lemma scenario_single_feed (now : time.Time) :
  cmd.timeTranslation now time.zero [Emitter.pack Evt.t _ evt_two]
  = (time.Date 2021 5 1 10 0 0 0, now + 5 * time.Second)
  /\ cmd.Run 3 now time.zero warp_one [Emitter.pack Evt.t _ evt_two] cruise_world
     = [ ([ cmd.Fired "evt" (now + 5 * time.Second) (time.Date 2021 5 1 10 0 0 0) None;
            cmd.Fired "evt" (now + 10 * time.Second) (time.Date 2021 5 1 10 0 5 0) None ],
          cmd.Done) ].
Proof.
  assert (Hmin : cmd.minTime [Emitter.pack Evt.t _ evt_two] = time.Date 2021 5 1 10 0 0 0)
    by (vm_compute; reflexivity).
  assert (Hrun : forall rs,
             (let '(evs, x, _, _) :=
                @cmd.startEmitter _ Evt_Emitter (time.Date 2021 5 1 10 0 0 0) rs warp_one 3
                  evt_two cruise_world in (evs, x))
             = ([ cmd.Fired "evt" (time.Add rs 0) (time.Date 2021 5 1 10 0 0 0) None;
                  cmd.Fired "evt" (time.Add rs (5 * time.Second))
                    (time.Date 2021 5 1 10 0 5 0) None ], cmd.Done))
    by (intros rs; vm_compute; reflexivity).
  unfold cmd.Run, cmd.timeTranslation. rewrite Hmin.
  cbn [time.IsZero time.zero Z.eqb map Emitter.impl Emitter.self].
  split; [reflexivity |].
  rewrite Hrun. unfold time.Add.
  replace (now + 5 * time.Second + 0) with (now + 5 * time.Second) by lia.
  replace (now + 5 * time.Second + 5 * time.Second) with (now + 10 * time.Second)
    by (unfold time.Second; lia).
  reflexivity.
Qed.

(** C6 fails on the code, through the defect of minTime shown for C5.
    The two EVT files are all the data: the cruise directory holds no SFL
    file, and the underway file and the instrument log are empty. The
    replay start is five seconds from now, but the cruise start is the zero
    Time of the empty feeds, not 10:00:00; the first file is then 2020
    years after the cruise start, the difference saturates, and the EVT
    driver ends in the [delta < 0] panic before any timer is set. *)
Theorem C6_scenario_empty_feeds (now : time.Time) (fuel : nat) :
  cmd.timeTranslation now time.zero
    (cmd.emitters evt_two sfl_none underway_none sealog_none)
  = (time.zero, now + 5 * time.Second)
  /\ cmd.Run (S fuel) now time.zero warp_one
       (cmd.emitters evt_two sfl_none underway_none sealog_none) cruise_world
     = [ ([], cmd.Panicked (- 2 ^ 63) (time.Date 2021 5 1 10 0 0 0));
         ([], cmd.Done); ([], cmd.Done); ([], cmd.Done) ].
Proof. vm_compute. split; reflexivity. Qed.

(** ** Close *)

(** While a file is held, Sfl.Close only calls itself: no amount of
    fuel makes it return. *)
Lemma Sfl_Close_diverges fuel : forall s,
  Sfl.file s <> None -> Sfl.Close fuel s = None.
Proof.
  induction fuel as [| fuel IH]; intros s Hfile; cbn [Sfl.Close]; [reflexivity |].
  destruct (Sfl.file s) eqn:Hf; [| congruence].
  rewrite IH; [reflexivity | congruence].
Qed.

(** Before any Emit no feed holds a file, and Close succeeds and
    changes nothing, as often as it is called; Evt.Close never does
    anything. *)
Lemma Close_never_emitted :
  (forall e, Evt.Close e = (None, e))
  /\ (forall fuel s, Sfl.file s = None -> Sfl.Close (S fuel) s = Some (None, s))
  /\ (forall s, SeaLog.file s = None -> SeaLog.Close s = (None, s))
  /\ (forall u, Underway.conn u = None -> Underway.Close u = (None, u)).
Proof.
  repeat split.
  - intros fuel s H. cbn [Sfl.Close]. now rewrite H.
  - intros s H. unfold SeaLog.Close. now rewrite H.
  - intros u H. unfold Underway.Close. now rewrite H.
Qed.

(** C2 fails on the code. (1) After an Emit the SFL feed holds its
    output file, and from then on Sfl.Close never returns, whatever the
    fuel: it calls itself where SeaLog.Close closes the file. (2) After an
    Emit of the instrument log, the first Close succeeds and the second
    answers an error: the handle stays in the receiver, closed. (3) The
    underway feed keeps its connection in the same way: the first Close
    succeeds, the second answers an error. *)
Theorem C2_close_after_emit :
  (exists s w,
     sfl_emitted = Some (None, s, w)
     /\ Sfl.file s
        = Some {| os.Name := "out/datafiles/evt/2021_121/2021-05-01T10-00-00+00-00.sfl";
                  os.closed := false |}
     /\ forall fuel, Sfl.Close fuel s = None)
  /\ (exists s w s1,
        sealog_emitted = Some (None, s, w)
        /\ SeaLog.Close s = (None, s1)
        /\ SeaLog.Close s1
           = (Some "close out/logs/SFlog.txt: file already closed"%string, s1))
  /\ (exists u1,
        Underway.Close underway_none = (None, u1)
        /\ Underway.Close u1
           = (Some "underway: use of closed network connection"%string, u1)).
Proof.
  split; [| split].
  - eexists. eexists. split; [vm_compute; reflexivity |].
    split; [reflexivity |].
    intros fuel. apply Sfl_Close_diverges. discriminate.
  - eexists. eexists. eexists. split; [vm_compute; reflexivity |].
    split; vm_compute; reflexivity.
  - eexists. split; vm_compute; reflexivity.
Qed.

(** ** The sample replay, step by step *)

(** Four calls of Next on the feed of two files. *)
Example evt_two_nexts : fst (nexts 4 evt_two) = [true; true; false; false].
Proof. reflexivity. Qed.

(** With the cruise start given as the time of the second file, the
    first file is passed over and the second fires at the replay start. *)
Example evt_two_late_start :
  fst (fst (fst (cmd.startEmitter (time.Date 2021 5 1 10 0 5 0) 1000 warp_one 3
                   evt_two cruise_world)))
  = [ cmd.Fired "evt" 1000 (time.Date 2021 5 1 10 0 5 0) None ].
Proof. vm_compute. reflexivity. Qed.

(** A warp of 2.0 halves the delay of the second file. *)
Example evt_two_warp_two :
  map emitTime
    (fst (fst (fst (cmd.startEmitter (time.Date 2021 5 1 10 0 0 0) 0
                      (float64.of_int64 2) 3 evt_two cruise_world))))
  = [ 0; 2500000000 ].
Proof. vm_compute. reflexivity. Qed.

(** The replay copies each file under the day directory of its time. *)
Example evt_two_output :
  map fst
    (fs (snd (cmd.startEmitter (time.Date 2021 5 1 10 0 0 0) 0 warp_one 3
                evt_two {| fs := [(evt_first, "A"); (evt_second, "B")]%string;
                           sent := [] |})))
  = [ evt_first; evt_second;
      "out/datafiles/evt/2021_121/2021-05-01T10-00-00+00-00";
      "out/datafiles/evt/2021_121/2021-05-01T10-00-05+00-00" ]%string.
Proof. vm_compute. reflexivity. Qed.

(** The instrument log of one event, as Emit writes it. *)
Example sealog_one_output :
  match sealog_emitted with
  | Some (_, _, w) => os.ReadFile (fs w) "out/logs/SFlog.txt"
  | None => None
  end
  = Some ("2021-05-01T10-00-07+00:00" ++ CRLF ++ "start" ++ CRLF)%string.
Proof. vm_compute. reflexivity. Qed.

(** * Further properties of the feeds *)

(** ** Fresh feeds *)

Lemma Sfl_scanFile_file f idx lines : forall lineNum header s,
  Sfl.file (Sfl.scanFile f idx lines lineNum header s) = Sfl.file s.
Proof.
  induction lines as [| l rest IH]; intros lineNum header s; cbn [Sfl.scanFile];
    [reflexivity |].
  repeat match goal with
         | |- context [if ?c then _ else _] => destruct c
         | |- context [match ?p with (_, _) => _ end] => destruct p
         | |- context [match ?o with Some _ => _ | None => _ end] => destruct o
         end; now rewrite IH.
Qed.

Lemma Sfl_ingest_file disk files : forall idx s,
  Sfl.file (fst (Sfl.ingest disk files idx s)) = Sfl.file s.
Proof.
  induction files as [| f rest IH]; intros idx s; cbn [Sfl.ingest]; [reflexivity |].
  destruct (os.ReadFile disk f); [| reflexivity].
  rewrite IH. apply Sfl_scanFile_file.
Qed.

Lemma NewSfl_file disk files outDir : Sfl.file (fst (Sfl.NewSfl disk files outDir)) = None.
Proof.
  unfold Sfl.NewSfl.
  match goal with |- context [Sfl.ingest ?d ?f ?i ?s] =>
    pose proof (Sfl_ingest_file d f i s) as H; destruct (Sfl.ingest d f i s) as [s1 [err|]]
  end; exact H.
Qed.

Lemma SeaLog_ingest_file events : forall s,
  SeaLog.file (SeaLog.ingest events s) = SeaLog.file s.
Proof.
  induction events as [| ev rest IH]; intros s; cbn [SeaLog.ingest]; [reflexivity |].
  destruct (negb _); now rewrite IH.
Qed.

Lemma NewSeaLog_file scan disk file outDir :
  SeaLog.file (fst (SeaLog.NewSeaLog scan disk file outDir)) = None.
Proof.
  unfold SeaLog.NewSeaLog.
  destruct (os.ReadFile disk file); [| reflexivity].
  destruct (scan s) as [events [msg|]]; cbn [fst SeaLog.file]; now rewrite SeaLog_ingest_file.
Qed.

(** X1. A feed as its constructor returns it (with or without an
    error) is inert. The cursor is before the first record: Time answers
    the zero Time, and Emit does nothing, answering nil and leaving the
    feed and the world as they are. No output file is held: Close of the
    EVT, SFL and instrument-log feeds answers nil and leaves the feed as it
    is, as often as it is called. *)
Theorem X1_fresh_feed_inert :
  (forall files outDir w,
     let e := fst (Evt.NewEvt files outDir) in
     Evt.Emit e w = Some (None, e, w) /\ Evt.Time e = time.zero
     /\ Evt.Close e = (None, e))
  /\ (forall disk files outDir fuel w,
        let s := fst (Sfl.NewSfl disk files outDir) in
        Sfl.Emit fuel s w = Some (None, s, w) /\ Sfl.Time s = time.zero
        /\ Sfl.Close (S fuel) s = Some (None, s))
  /\ (forall P dial disk file host port throttleSec w,
        let u := fst (Underway.NewUnderway P dial disk file host port throttleSec) in
        Underway.Emit u w = Some (None, u, w) /\ Underway.Time u = time.zero)
  /\ (forall scan disk file outDir w,
        let s := fst (SeaLog.NewSeaLog scan disk file outDir) in
        SeaLog.Emit s w = Some (None, s, w) /\ SeaLog.Time s = time.zero
        /\ SeaLog.Close s = (None, s)).
Proof.
  split; [| split; [| split]].
  - intros files outDir w e. unfold Evt.Emit, Evt.Time.
    unfold e. rewrite NewEvt_i. repeat split; reflexivity.
  - intros disk files outDir fuel w s. unfold Sfl.Emit, Sfl.Time.
    unfold s. rewrite NewSfl_i. split; [reflexivity | split; [reflexivity |]].
    cbn [Sfl.Close]. now rewrite NewSfl_file.
  - intros P dial disk file host port throttleSec w u. unfold Underway.Emit, Underway.Time.
    unfold u. rewrite NewUnderway_i. split; reflexivity.
  - intros scan disk file outDir w s. unfold SeaLog.Emit, SeaLog.Time.
    unfold s. rewrite NewSeaLog_i. split; [reflexivity | split; [reflexivity |]].
    unfold SeaLog.Close. now rewrite NewSeaLog_file.
Qed.

(** ** Earliest *)

Lemma sorted_head_least {A : Type} (key : A -> Z) (l : list A) r0 :
  StronglySorted (fun a b => key a <= key b) l ->
  hd_error l = Some r0 -> Forall (fun r => key r0 <= key r) l.
Proof.
  intros Hs Hhd. destruct l as [| x l]; [discriminate |].
  injection Hhd as ->. inversion Hs; subst. constructor; [lia | assumption].
Qed.

(** X2. After a successful construction, Earliest is the least record
    time of the feed: no record is earlier. *)
Theorem X2_earliest_is_least :
  (forall files outDir r,
     let e := fst (Evt.NewEvt files outDir) in
     In r (Evt.data e) -> Evt.Earliest e <= evtFile.time r)
  /\ (forall disk files outDir s r,
        Sfl.NewSfl disk files outDir = (s, None) ->
        In r (Sfl.data s) -> Sfl.Earliest s <= sflRecord.time r)
  /\ (forall P dial disk file host port throttleSec u r,
        Underway.NewUnderway P dial disk file host port throttleSec = (u, None) ->
        In r (Underway.data u) -> Underway.Earliest u <= underwayRecord.time r)
  /\ (forall scan disk file outDir s r,
        SeaLog.NewSeaLog scan disk file outDir = (s, None) ->
        In r (SeaLog.data s) -> SeaLog.Earliest s <= seaLogRecord.time r).
Proof.
  split; [| split; [| split]].
  - intros files outDir r e Hin. unfold Evt.Earliest.
    pose proof (SliceStable_stable_sort evtFile.time (evt_discovered files)) as (Hs & _).
    unfold e in *. rewrite NewEvt_data in *.
    destruct (sort.SliceStable _ _) as [| r0 l] eqn:Hl; [destruct Hin |].
    pose proof (sorted_head_least evtFile.time _ r0 Hs eq_refl) as Hall.
    rewrite Forall_forall in Hall. now apply Hall.
  - intros disk files outDir s r Hnew Hin. unfold Sfl.Earliest.
    pose proof (SliceStable_stable_sort sflRecord.time (sfl_discovered disk files outDir))
      as (Hs & _).
    rewrite (NewSfl_data _ _ _ _ Hnew) in *.
    destruct (sort.SliceStable _ _) as [| r0 l] eqn:Hl; [destruct Hin |].
    pose proof (sorted_head_least sflRecord.time _ r0 Hs eq_refl) as Hall.
    rewrite Forall_forall in Hall. now apply Hall.
  - intros P dial disk file host port throttleSec u r Hnew Hin. unfold Underway.Earliest.
    destruct (NewUnderway_data _ _ _ _ _ _ _ _ Hnew) as (text & _ & Hdata).
    pose proof (SliceStable_stable_sort underwayRecord.time
                  (underway_discovered P throttleSec text)) as (Hs & _).
    assert (Hs' : StronglySorted
                    (fun a b => underwayRecord.time a < underwayRecord.time b)
                    (Underway.data u))
      by (rewrite Hdata; apply coalesce_sorted; exact Hs).
    destruct (Underway.data u) as [| r0 l]; [destruct Hin |].
    inversion Hs' as [| ? ? _ Hall]; subst. destruct Hin as [<- | Hin]; [lia |].
    rewrite Forall_forall in Hall. specialize (Hall _ Hin). lia.
  - intros scan disk file outDir s r Hnew Hin. unfold SeaLog.Earliest.
    destruct (NewSeaLog_data _ _ _ _ _ Hnew) as (text & _ & Hdata).
    pose proof (SliceStable_stable_sort seaLogRecord.time
                  (sealog_discovered (fst (scan text)) outDir)) as (Hs & _).
    rewrite Hdata in *.
    destruct (sort.SliceStable _ _) as [| r0 l] eqn:Hl; [destruct Hin |].
    pose proof (sorted_head_least seaLogRecord.time _ r0 Hs eq_refl) as Hall.
    rewrite Forall_forall in Hall. now apply Hall.
Qed.

(** ** What the constructors keep and what they report *)

(** A file name that timeFromFilename rejects gets the zero Time. *)
Lemma timeFromFilename_error fn msg :
  snd (timeFromFilename fn) = Some msg -> fst (timeFromFilename fn) = time.zero.
Proof.
  unfold timeFromFilename.
  destruct (FindStringSubmatch _) as [[[s1 s2] s3] |]; [| reflexivity].
  unfold time.Parse_RFC3339. destruct (time.parseRFC3339 _); [discriminate | reflexivity].
Qed.

Lemma Evt_ingest_warnings files : forall e,
  List.length (Evt.warnings (Evt.ingest files e))
  = (List.length (Evt.warnings e) + List.length (evt_rejected files))%nat.
Proof.
  induction files as [| f rest IH]; intros e; cbn [Evt.ingest evt_rejected filter].
  - cbn [List.length]. lia.
  - fold (evt_rejected rest).
    destruct (timeFromFilename f) as [t0 [msg |]]; cbn [snd]; rewrite IH;
      cbn [Evt.warnings]; rewrite ?length_app; cbn [List.length]; lia.
Qed.

(** X3. NewEvt never fails and drops no file: the feed has one record
    per file, the records are the files with the times their names give,
    and there is one warning per file whose name does not give a time; such
    a file is kept, with the zero Time. *)
Theorem X3_NewEvt_keeps_every_file files outDir :
  let e := fst (Evt.NewEvt files outDir) in
  snd (Evt.NewEvt files outDir) = None
  /\ Evt.Len e = len files
  /\ Permutation (evt_discovered files) (Evt.data e)
  /\ List.length (Evt.warnings e) = List.length (evt_rejected files)
  /\ (forall f, In f (evt_rejected files) ->
        In {| evtFile.time := time.zero; evtFile.path := f |} (Evt.data e)).
Proof.
  intros e.
  pose proof (SliceStable_stable_sort evtFile.time (evt_discovered files)) as (_ & Hp & _).
  change (sort.SliceStable _ (evt_discovered files))
    with (sort.SliceStable Evt.less (evt_discovered files)) in Hp.
  assert (Hdata : Evt.data e = sort.SliceStable Evt.less (evt_discovered files))
    by apply NewEvt_data.
  split; [reflexivity |]. split; [| split; [| split]].
  - unfold Evt.Len, len. rewrite Hdata. rewrite <- (Permutation_length Hp).
    unfold evt_discovered. now rewrite length_map.
  - rewrite Hdata. exact Hp.
  - unfold e, Evt.NewEvt. cbn [fst Evt.warnings]. now rewrite Evt_ingest_warnings.
  - intros f Hf. apply filter_In in Hf. destruct Hf as [Hin Hbad].
    rewrite Hdata. eapply Permutation_in; [exact Hp |].
    unfold evt_discovered. apply in_map_iff. exists f. split; [| exact Hin].
    destruct (snd (timeFromFilename f)) as [msg |] eqn:Hs; [| discriminate].
    now rewrite (timeFromFilename_error f msg Hs).
Qed.

(** *** The SFL files *)

Lemma scanFile_counts f idx lines : forall lineNum header s,
  1 <= lineNum ->
  let s' := Sfl.scanFile f idx lines lineNum header s in
  (List.length (Sfl.data s') + List.length (Sfl.warnings s')
   = List.length (Sfl.data s) + List.length (Sfl.warnings s) + List.length lines)%nat
  /\ Sfl.paths s' = Sfl.paths s.
Proof.
  induction lines as [| l rest IH]; intros lineNum header s Hn; cbn zeta.
  - cbn [Sfl.scanFile List.length]. split; [lia | reflexivity].
  - cbn [Sfl.scanFile List.length].
    destruct (Z.eqb_spec (lineNum + 1) 1) as [Habs | _]; [lia |].
    destruct (_ && _).
    + destruct (time.Parse_RFC3339 _) as [t [err |]];
        match goal with |- context [Sfl.scanFile f idx rest ?n ?h ?s0] =>
          destruct (IH n h s0 ltac:(lia)) as [Hc Hp]
        end; rewrite Hc, Hp;
        cbn [Sfl.add_warning Sfl.add_data Sfl.data Sfl.warnings Sfl.paths];
        rewrite ?length_app; cbn [List.length]; (split; [lia | reflexivity]).
    + match goal with |- context [Sfl.scanFile f idx rest ?n ?h ?s0] =>
        destruct (IH n h s0 ltac:(lia)) as [Hc Hp]
      end; rewrite Hc, Hp;
      cbn [Sfl.add_warning Sfl.data Sfl.warnings Sfl.paths];
      rewrite ?length_app; cbn [List.length]; (split; [lia | reflexivity]).
Qed.

(** One whole file: its data lines become records or warnings, its
    name becomes a path when it has a line, and its records are
    [sfl_file_records]. *)
Lemma scanFile_whole f idx lines s :
  let s' := Sfl.scanFile f idx lines 0 EmptyString s in
  (List.length (Sfl.data s') + List.length (Sfl.warnings s')
   = List.length (Sfl.data s) + List.length (Sfl.warnings s)
     + Nat.pred (List.length lines))%nat
  /\ Sfl.paths s' = Sfl.paths s ++ (if Nat.eqb (List.length lines) 0 then [] else [f])
  /\ Sfl.data s' = Sfl.data s ++ sfl_file_records idx lines.
Proof.
  cbn zeta. destruct lines as [| header rest].
  - cbn [Sfl.scanFile List.length Nat.pred Nat.eqb sfl_file_records].
    rewrite !app_nil_r. repeat split; lia.
  - split; [| split].
    + change (Sfl.scanFile f idx (header :: rest) 0 EmptyString s)
        with (Sfl.scanFile f idx rest 1 header (Sfl.add_path s f)).
      destruct (scanFile_counts f idx rest 1 header (Sfl.add_path s f) ltac:(lia))
        as [Hc _].
      rewrite Hc. cbn [Sfl.add_path Sfl.data Sfl.warnings List.length Nat.pred]. lia.
    + change (Sfl.scanFile f idx (header :: rest) 0 EmptyString s)
        with (Sfl.scanFile f idx rest 1 header (Sfl.add_path s f)).
      destruct (scanFile_counts f idx rest 1 header (Sfl.add_path s f) ltac:(lia))
        as [_ Hp].
      rewrite Hp. reflexivity.
    + destruct rest as [| line2 later].
      * cbn [Sfl.scanFile sfl_file_records Z.add Z.eqb Pos.eqb Sfl.add_path Sfl.data].
        now rewrite app_nil_r.
      * rewrite scanFile_file. unfold sfl_file_records. reflexivity.
Qed.

Lemma Sfl_ingest_whole disk files : forall idx s s',
  Sfl.ingest disk files idx s = (s', None) ->
  (List.length (Sfl.data s') + List.length (Sfl.warnings s')
   = List.length (Sfl.data s) + List.length (Sfl.warnings s)
     + sfl_data_lines disk files)%nat
  /\ Sfl.paths s' = Sfl.paths s ++ sfl_with_header disk files
  /\ Sfl.data s' = Sfl.data s ++ sfl_all_records disk files idx.
Proof.
  induction files as [| f rest IH]; intros idx s s' H;
    cbn [Sfl.ingest sfl_data_lines sfl_with_header sfl_all_records filter] in *.
  - injection H as <-. rewrite !app_nil_r. repeat split; lia.
  - destruct (os.ReadFile disk f) as [text |]; [| discriminate].
    destruct (IH _ _ _ H) as (Hc & Hp & Hd).
    destruct (scanFile_whole f idx (bufio.ScanLines text) s) as (Hc1 & Hp1 & Hd1).
    cbn zeta in Hc1, Hp1, Hd1. fold (sfl_with_header disk rest).
    split; [lia | split].
    + rewrite Hp, Hp1. rewrite <- app_assoc.
      now destruct (Nat.eqb (List.length (bufio.ScanLines text)) 0).
    + rewrite Hd, Hd1. now rewrite <- app_assoc.
Qed.

Lemma Sfl_ingest_ok disk files : forall idx s,
  snd (Sfl.ingest disk files idx s) = None
  <-> Forall (fun f => os.ReadFile disk f <> None) files.
Proof.
  induction files as [| f rest IH]; intros idx s; cbn [Sfl.ingest].
  - split; [constructor | reflexivity].
  - destruct (os.ReadFile disk f) as [text |] eqn:Hr.
    + rewrite IH. split.
      * intros H. constructor; [congruence | exact H].
      * intros H. now inversion H.
    + cbn [snd]. split; [discriminate |]. intros H. inversion H. congruence.
Qed.

(** *** The lines the scanner delivers *)

(** When every line fits the buffer, every line is delivered. *)
Lemma delivered_all raws : forallb bufio.fits raws = true -> bufio.delivered raws = raws.
Proof.
  induction raws as [| raw rest IH]; cbn [forallb bufio.delivered]; [reflexivity |].
  intros H. apply andb_true_iff in H as [Hfit Hrest]. now rewrite Hfit, IH.
Qed.

(** The scanner delivers the lines before the first that does not fit
    the buffer, and no other. *)
Lemma delivered_prefix raws :
  exists lost,
    raws = bufio.delivered raws ++ lost
    /\ Forall (fun raw => bufio.fits raw = true) (bufio.delivered raws)
    /\ match lost with
       | [] => forallb bufio.fits raws = true
       | raw :: _ => bufio.fits raw = false
       end.
Proof.
  induction raws as [| raw rest IH]; cbn [bufio.delivered forallb].
  - exists []. repeat split. constructor.
  - destruct (bufio.fits raw) eqn:Hfit.
    + destruct IH as (lost & Heq & Hall & Hlost). exists lost.
      split; [cbn [app]; now rewrite <- Heq |]. split; [now constructor |].
      destruct lost; [exact Hlost | exact Hlost].
    + exists (raw :: rest). repeat split; [constructor | exact Hfit].
Qed.

Lemma ScanLines_all text :
  bufio.Err text = None ->
  bufio.ScanLines text = map bufio.dropCR (bufio.rawLines text).
Proof.
  unfold bufio.Err, bufio.ScanLines.
  destruct (forallb bufio.fits (bufio.rawLines text)) eqn:Hall; [| discriminate].
  intros _. now rewrite delivered_all.
Qed.

(** X4. NewSfl succeeds exactly when every file can be read, whether
    or not its scanner has read each file to the end. Every data line the
    scanner delivers (of the lines it delivers, every one but the first of
    a file) has then become either one record or one warning: the records
    and the warnings together are as many as these lines. The scanner
    delivers every line of a text in which no line has 65536 bytes or
    more. *)
Theorem X4_NewSfl_accounts_for_lines disk files outDir :
  (snd (Sfl.NewSfl disk files outDir) = None
   <-> Forall (fun f => os.ReadFile disk f <> None) files)
  /\ (forall s, Sfl.NewSfl disk files outDir = (s, None) ->
        (List.length (Sfl.data s) + List.length (Sfl.warnings s)
         = sfl_data_lines disk files)%nat)
  /\ (forall text,
        Forall (fun raw => Z.of_nat (String.length raw) < 65536) (bufio.rawLines text) ->
        bufio.ScanLines text = map bufio.dropCR (bufio.rawLines text)).
Proof.
  split; [| split].
  - unfold Sfl.NewSfl.
    match goal with |- context [Sfl.ingest disk files 0 ?s0] =>
      pose proof (Sfl_ingest_ok disk files 0 s0) as Hok;
      destruct (Sfl.ingest disk files 0 s0) as [s1 [err |]]
    end; exact Hok.
  - unfold Sfl.NewSfl.
    match goal with |- context [Sfl.ingest disk files 0 ?s0] =>
      pose proof (Sfl_ingest_whole disk files 0 s0) as Hwhole;
      destruct (Sfl.ingest disk files 0 s0) as [s1 [err |]]
    end; [discriminate |].
    intros s H. injection H as <-.
    destruct (Hwhole s1 eq_refl) as (Hc & _ & _). cbn [Sfl.data Sfl.warnings List.length] in *.
    pose proof (SliceStable_stable_sort sflRecord.time (Sfl.data s1)) as (_ & Hp & _).
    change (sort.SliceStable _ (Sfl.data s1))
      with (sort.SliceStable Sfl.less (Sfl.data s1)) in Hp.
    rewrite <- (Permutation_length Hp). lia.
  - intros text Hall. unfold bufio.ScanLines. rewrite delivered_all; [reflexivity |].
    apply forallb_forall. rewrite Forall_forall in Hall. intros raw Hin.
    specialize (Hall raw Hin). unfold bufio.fits, bufio.MaxScanTokenSize. lia.
Qed.

Lemma sfl_file_records_idx idx lines r :
  In r (sfl_file_records idx lines) -> sflRecord.idx r = idx.
Proof.
  unfold sfl_file_records. destruct lines as [| header [| line2 later]]; try easy.
  rewrite in_app_iff, in_flat_map. intros [H | (l & _ & H)]; revert H.
  - unfold sfl_second. destruct (sfl_time line2); [| easy].
    intros [<- | []]. reflexivity.
  - unfold sfl_plain. destruct (sfl_time l); [| easy].
    intros [<- | []]. reflexivity.
Qed.

Lemma sfl_all_records_origin disk files : forall idx r,
  0 <= idx ->
  In r (sfl_all_records disk files idx) ->
  exists f text,
    nth_error files (Z.to_nat (sflRecord.idx r - idx)) = Some f
    /\ idx <= sflRecord.idx r
    /\ os.ReadFile disk f = Some text
    /\ In r (sfl_file_records (sflRecord.idx r) (bufio.ScanLines text)).
Proof.
  induction files as [| f rest IH]; intros idx r Hidx; cbn [sfl_all_records]; [easy |].
  rewrite in_app_iff. intros [H | H].
  - destruct (os.ReadFile disk f) as [text |] eqn:Hr; [| easy].
    pose proof (sfl_file_records_idx _ _ _ H) as Hi.
    exists f, text. rewrite Hi, Z.sub_diag. repeat split; [lia | exact Hr | exact H].
  - destruct (IH (idx + 1) r ltac:(lia) H) as (f' & text & Hn & Hle & Hr & Hin).
    exists f', text. repeat split; [| lia | exact Hr | exact Hin].
    replace (Z.to_nat (sflRecord.idx r - idx))
      with (S (Z.to_nat (sflRecord.idx r - (idx + 1)))) by lia.
    exact Hn.
Qed.

(** X5. After NewSfl, the index a record carries is the position of its
    file in the list of files given to NewSfl, while the list of paths the
    feed keeps (where Emit looks the index up) holds only the files of
    which the scanner delivers a line: not an empty file, and not a file
    whose first line has 65536 bytes or more. So the two agree when the
    scanner delivers a line of every file. *)
Theorem X5_sfl_record_index disk files outDir s :
  Sfl.NewSfl disk files outDir = (s, None) ->
  Sfl.paths s = sfl_with_header disk files
  /\ (forall r, In r (Sfl.data s) ->
        exists f text,
          nth_error files (Z.to_nat (sflRecord.idx r)) = Some f
          /\ 0 <= sflRecord.idx r
          /\ os.ReadFile disk f = Some text
          /\ In r (sfl_file_records (sflRecord.idx r) (bufio.ScanLines text)))
  /\ (sfl_with_header disk files = files ->
      forall r, In r (Sfl.data s) ->
        exists f text,
          nth_error (Sfl.paths s) (Z.to_nat (sflRecord.idx r)) = Some f
          /\ os.ReadFile disk f = Some text
          /\ In r (sfl_file_records (sflRecord.idx r) (bufio.ScanLines text)))
  /\ (forall f, In f (Sfl.paths s) <->
        In f files
        /\ exists text raw rest,
             os.ReadFile disk f = Some text
             /\ bufio.rawLines text = raw :: rest
             /\ Z.of_nat (String.length raw) < 65536).
Proof.
  unfold Sfl.NewSfl.
  match goal with |- context [Sfl.ingest disk files 0 ?s0] =>
    pose proof (Sfl_ingest_whole disk files 0 s0) as Hwhole;
    destruct (Sfl.ingest disk files 0 s0) as [s1 [err |]]
  end; [discriminate |].
  intros H. injection H as <-.
  destruct (Hwhole s1 eq_refl) as (_ & Hp & Hd). cbn [Sfl.data Sfl.paths app] in *.
  pose proof (SliceStable_stable_sort sflRecord.time (Sfl.data s1)) as (_ & Hperm & _).
  change (sort.SliceStable _ (Sfl.data s1))
    with (sort.SliceStable Sfl.less (Sfl.data s1)) in Hperm.
  assert (Horigin : forall r, In r (sort.SliceStable Sfl.less (Sfl.data s1)) ->
            exists f text,
              nth_error files (Z.to_nat (sflRecord.idx r)) = Some f
              /\ 0 <= sflRecord.idx r
              /\ os.ReadFile disk f = Some text
              /\ In r (sfl_file_records (sflRecord.idx r) (bufio.ScanLines text))).
  { intros r Hr. apply (Permutation_in _ (Permutation_sym Hperm)) in Hr.
    rewrite Hd in Hr.
    destruct (sfl_all_records_origin disk files 0 r ltac:(lia) Hr)
      as (f & text & Hn & Hle & Hread & Hin).
    rewrite Z.sub_0_r in Hn. now exists f, text. }
  split; [exact Hp | split; [exact Horigin | split]].
  - intros Hall r Hr. destruct (Horigin r Hr) as (f & text & Hn & _ & Hread & Hin).
    exists f, text. rewrite Hp, Hall. now repeat split.
  - intros f. rewrite Hp. unfold sfl_with_header. rewrite filter_In.
    apply and_iff_compat_l. unfold bufio.ScanLines.
    destruct (os.ReadFile disk f) as [text |].
    + rewrite length_map.
      destruct (bufio.rawLines text) as [| raw rest] eqn:Hraw; cbn [bufio.delivered].
      * split; [discriminate |]. intros (text' & raw' & rest' & Ht & Hr' & _).
        injection Ht as <-. rewrite Hraw in Hr'. discriminate.
      * unfold bufio.fits, bufio.MaxScanTokenSize.
        destruct (Z.ltb_spec (Z.of_nat (String.length raw)) (64 * 1024)) as [Hlt | Hge].
        -- split; [intros _ | reflexivity].
           exists text, raw, rest. split; [reflexivity | split; [exact Hraw | lia]].
        -- split; [discriminate |].
           intros (text' & raw' & rest' & Ht & Hr' & Hlen).
           injection Ht as <-. rewrite Hraw in Hr'. injection Hr' as <- <-. lia.
    + split; [discriminate | intros (? & ? & ? & ? & _); discriminate].
Qed.

(** The sample log alone: its two records carry index 0, and the paths
    are the file. *)
Lemma X5_sfl_record_index_witness :
  Sfl.paths sample_sfl = [sample_sfl_path]
  /\ forall r, In r (Sfl.data sample_sfl) ->
       nth_error [sample_sfl_path] (Z.to_nat (sflRecord.idx r)) = Some sample_sfl_path.
Proof.
  destruct (X5_sfl_record_index [(sample_sfl_path, sample_sfl_text)]
              [sample_sfl_path] "out" sample_sfl)
    as (Hp & Hr & _ & _); [vm_compute; reflexivity |].
  split; [exact Hp |].
  intros r Hin. destruct (Hr r Hin) as (f & text & Hn & _ & _ & _).
  rewrite Hn. f_equal.
  apply nth_error_In in Hn. destruct Hn as [<- | []]. reflexivity.
Defined.

(** *** The warnings of the SFL files *)

Lemma scanFile_warnings f idx lines : forall lineNum header s,
  1 <= lineNum ->
  Sfl.warnings (Sfl.scanFile f idx lines lineNum header s)
  = Sfl.warnings s ++ sfl_warnings_from f lineNum lines.
Proof.
  induction lines as [| l rest IH]; intros lineNum header s Hn;
    cbn [Sfl.scanFile sfl_warnings_from].
  - now rewrite app_nil_r.
  - unfold sfl_line_warnings.
    destruct (Z.eqb_spec (lineNum + 1) 1) as [Habs | _]; [lia |].
    destruct ((1 <? len (strings.Split l TAB))
              && (String.length (nth 0 (strings.Split l TAB) EmptyString) =? 25)%nat).
    + destruct (time.Parse_RFC3339 _) as [t [err |]]; rewrite IH by lia;
        cbn [Sfl.add_warning Sfl.add_data Sfl.warnings app]; [| reflexivity].
      now rewrite <- app_assoc.
    + rewrite IH by lia. cbn [Sfl.add_warning Sfl.warnings]. now rewrite <- app_assoc.
Qed.

Lemma Sfl_ingest_warnings disk files : forall idx s s',
  Sfl.ingest disk files idx s = (s', None) ->
  Sfl.warnings s' = Sfl.warnings s ++ sfl_all_warnings disk files.
Proof.
  induction files as [| f rest IH]; intros idx s s' H;
    cbn [Sfl.ingest sfl_all_warnings flat_map] in *.
  - injection H as <-. now rewrite app_nil_r.
  - destruct (os.ReadFile disk f) as [text |]; [| discriminate].
    rewrite (IH _ _ _ H). fold (sfl_all_warnings disk rest).
    rewrite app_assoc. f_equal.
    destruct (bufio.ScanLines text) as [| header later].
    + cbn [Sfl.scanFile sfl_file_warnings]. now rewrite app_nil_r.
    + cbn [sfl_file_warnings].
      change (Sfl.scanFile f idx (header :: later) 0 EmptyString s)
        with (Sfl.scanFile f idx later 1 header (Sfl.add_path s f)).
      now rewrite scanFile_warnings by lia.
Qed.

(** A line of fewer than two fields: no record, one warning. *)
Lemma single_field_line f lineNum header idx lineText :
  len (strings.Split lineText TAB) < 2 ->
  sfl_second header idx lineText = []
  /\ sfl_plain idx lineText = []
  /\ sfl_line_warnings f lineNum lineText
     = [ {| Warning.err := "sfl: unparsable line " ++ f ++ ":" ++ itoa lineNum |} ].
Proof.
  intros Hcols. unfold sfl_second, sfl_plain, sfl_time, sfl_line_warnings.
  destruct (Z.ltb_spec 1 (len (strings.Split lineText TAB))) as [Habs | _]; [lia |].
  cbn [andb]. repeat split.
Qed.

Lemma sfl_warnings_from_nth f w : forall lines lineNum n l,
  nth_error lines n = Some l ->
  In w (sfl_line_warnings f (lineNum + 1 + Z.of_nat n) l) ->
  In w (sfl_warnings_from f lineNum lines).
Proof.
  induction lines as [| l0 rest IH]; intros lineNum [| n] l Hn Hin;
    cbn [nth_error] in Hn; try discriminate;
    cbn [sfl_warnings_from]; apply in_or_app.
  - injection Hn as ->. left. now rewrite Z.add_0_r in Hin.
  - right. apply (IH (lineNum + 1) n l Hn).
    replace (lineNum + 1 + 1 + Z.of_nat n) with (lineNum + 1 + Z.of_nat (S n)) by lia.
    exact Hin.
Qed.

Lemma sfl_time_fields lineText t :
  sfl_time lineText = Some t -> 1 < len (strings.Split lineText TAB).
Proof.
  unfold sfl_time.
  destruct (Z.ltb_spec 1 (len (strings.Split lineText TAB))) as [Hlt | _].
  - intros _. exact Hlt.
  - cbn [andb]. discriminate.
Qed.

(** A record of a file is made of one of its data lines, of more than
    one field. *)
Lemma sfl_file_records_line idx lines r :
  In r (sfl_file_records idx lines) ->
  exists header lineText,
    In lineText (tl lines)
    /\ 1 < len (strings.Split lineText TAB)
    /\ (sflRecord.data r = lineText
        \/ sflRecord.data r = (header ++ CRLF ++ lineText)%string).
Proof.
  unfold sfl_file_records. destruct lines as [| header [| line2 later]]; try easy.
  rewrite in_app_iff, in_flat_map. intros [H | (l & Hl & H)]; revert H.
  - unfold sfl_second. destruct (sfl_time line2) eqn:Ht; [| easy].
    intros [<- | []]. exists header, line2. cbn [tl sflRecord.data].
    split; [now left | split; [exact (sfl_time_fields _ _ Ht) | now right]].
  - unfold sfl_plain. destruct (sfl_time l) eqn:Ht; [| easy].
    intros [<- | []]. exists header, l. cbn [tl sflRecord.data].
    split; [now right | split; [exact (sfl_time_fields _ _ Ht) | now left]].
Qed.

(** C10 as it is written fails on the code: the log whose second line
    has 65536 bytes is read without error, its third line [x] is a data
    line of one field, and there is no warning at all. The scanner stopped
    at the second line, and NewSfl does not ask it for its error. *)
Lemma C10_counterexample :
  snd sfl_long = None
  /\ nth_error (strings.Split sfl_long_text LF) 2 = Some "x"%string
  /\ len (strings.Split "x" TAB) = 1
  /\ Sfl.warnings (fst sfl_long) = []
  /\ Sfl.data (fst sfl_long) = []
  /\ bufio.Err sfl_long_text = Some "bufio.Scanner: token too long"%string.
Proof. vm_compute. repeat split; reflexivity. Qed.

(** C10 (amended). NewSfl makes its records and its warnings of the
    lines its scanner delivers, which are the lines of each file before the
    first line of 65536 bytes or more: the records are, up to the order,
    and the warnings are, in order, those of the data lines delivered, file
    after file and line after line. Of these a data line of fewer than two
    tab-separated fields gives no record and exactly one warning,
    "unparsable line" with its file and its line number, whatever the
    length of its only field: that warning is among the warnings of the
    feed, and every record of the feed is made of a delivered data line of
    more than one field. *)
Theorem C10_sfl_single_field disk files outDir s :
  Sfl.NewSfl disk files outDir = (s, None) ->
  Permutation (sfl_all_records disk files 0) (Sfl.data s)
  /\ Sfl.warnings s = sfl_all_warnings disk files
  /\ (forall f lineNum header idx lineText,
        len (strings.Split lineText TAB) < 2 ->
        sfl_second header idx lineText = []
        /\ sfl_plain idx lineText = []
        /\ sfl_line_warnings f lineNum lineText
           = [ {| Warning.err := "sfl: unparsable line " ++ f ++ ":" ++ itoa lineNum |} ])
  /\ (forall f text n lineText,
        In f files ->
        os.ReadFile disk f = Some text ->
        nth_error (bufio.ScanLines text) (S n) = Some lineText ->
        len (strings.Split lineText TAB) < 2 ->
        In {| Warning.err := "sfl: unparsable line " ++ f ++ ":" ++ itoa (Z.of_nat n + 2) |}
           (Sfl.warnings s))
  /\ (forall r, In r (Sfl.data s) ->
        exists f text header lineText,
          nth_error files (Z.to_nat (sflRecord.idx r)) = Some f
          /\ os.ReadFile disk f = Some text
          /\ In lineText (tl (bufio.ScanLines text))
          /\ 1 < len (strings.Split lineText TAB)
          /\ (sflRecord.data r = lineText
              \/ sflRecord.data r = (header ++ CRLF ++ lineText)%string))
  /\ (forall text,
        exists lost,
          bufio.rawLines text = bufio.delivered (bufio.rawLines text) ++ lost
          /\ bufio.ScanLines text = map bufio.dropCR (bufio.delivered (bufio.rawLines text))
          /\ Forall (fun raw => Z.of_nat (String.length raw) < 65536)
               (bufio.delivered (bufio.rawLines text))
          /\ match lost with
             | [] => True
             | raw :: _ => 65536 <= Z.of_nat (String.length raw)
             end).
Proof.
  unfold Sfl.NewSfl.
  match goal with |- context [Sfl.ingest disk files 0 ?s0] =>
    pose proof (Sfl_ingest_whole disk files 0 s0) as Hwhole;
    pose proof (Sfl_ingest_warnings disk files 0 s0) as Hwarn;
    destruct (Sfl.ingest disk files 0 s0) as [s1 [err |]]
  end; [discriminate |].
  intros H. injection H as <-.
  destruct (Hwhole s1 eq_refl) as (_ & _ & Hd). specialize (Hwarn s1 eq_refl).
  cbn [Sfl.data Sfl.warnings app] in *.
  pose proof (SliceStable_stable_sort sflRecord.time (Sfl.data s1)) as (_ & Hp & _).
  change (sort.SliceStable _ (Sfl.data s1))
    with (sort.SliceStable Sfl.less (Sfl.data s1)) in Hp.
  split; [| split; [exact Hwarn | split; [| split; [| split]]]].
  - rewrite <- Hd. exact Hp.
  - intros f lineNum header idx lineText. apply single_field_line.
  - intros f text n lineText Hin Hread Hn Hcols.
    rewrite Hwarn. unfold sfl_all_warnings. apply in_flat_map.
    exists f. split; [exact Hin |]. rewrite Hread.
    destruct (bufio.ScanLines text) as [| header later]; [discriminate |].
    cbn [nth_error] in Hn. cbn [sfl_file_warnings].
    apply (sfl_warnings_from_nth f _ later 1 n lineText Hn).
    destruct (single_field_line f (1 + 1 + Z.of_nat n) EmptyString 0 lineText Hcols)
      as (_ & _ & ->).
    replace (1 + 1 + Z.of_nat n) with (Z.of_nat n + 2) by lia. now left.
  - intros r Hin.
    apply (Permutation_in _ (Permutation_sym Hp)) in Hin. rewrite Hd in Hin.
    destruct (sfl_all_records_origin disk files 0 r ltac:(lia) Hin)
      as (f & text & Hn & _ & Hread & Hrec).
    destruct (sfl_file_records_line _ _ _ Hrec) as (header & lineText & Hl & Hcols & Hdata).
    exists f, text, header, lineText. rewrite Z.sub_0_r in Hn. auto.
  - intros text. destruct (delivered_prefix (bufio.rawLines text))
      as (lost & Heq & Hall & Hlost).
    exists lost. split; [exact Heq |]. split; [reflexivity |]. split.
    + eapply Forall_impl; [| exact Hall]. intros raw Hfit.
      unfold bufio.fits, bufio.MaxScanTokenSize in Hfit. lia.
    + destruct lost as [| raw lost]; [exact I |].
      unfold bufio.fits, bufio.MaxScanTokenSize in Hlost. lia.
Qed.

(** The sample log through NewSfl: its third line, one field of 25
    bytes, is the one warning, and the two records are of the other
    lines. *)
Lemma C10_sfl_single_field_witness :
  nth_error (bufio.ScanLines sample_sfl_text) 2 = Some "2021-05-01T10-00-06+00-00"%string
  /\ Sfl.warnings sample_sfl
     = [ {| Warning.err := "sfl: unparsable line /cruise/2021-05-01T10-00-00+00-00.sfl:3" |} ]
  /\ List.length (Sfl.data sample_sfl) = 2%nat.
Proof.
  destruct (C10_sfl_single_field [(sample_sfl_path, sample_sfl_text)]
              [sample_sfl_path] "out" sample_sfl ltac:(vm_compute; reflexivity))
    as (Hd & Hw & _ & _ & _ & _).
  split; [vm_compute; reflexivity |]. split.
  - rewrite Hw. vm_compute. reflexivity.
  - rewrite <- (Permutation_length Hd). vm_compute. reflexivity.
Defined.



(** *** The underway lines *)

Lemma Join_snoc lines x sep :
  lines <> [] ->
  strings.Join (lines ++ [x]) sep = (strings.Join lines sep ++ sep ++ x)%string.
Proof.
  unfold strings.Join. induction lines as [| l rest IH]; [congruence |]. intros _.
  destruct rest as [| l2 rest].
  - reflexivity.
  - cbn [app String.concat] in *. rewrite IH by discriminate.
    now rewrite !string_app_assoc.
Qed.

Lemma stream_app a b : stream (a ++ b) = (stream a ++ stream b)%string.
Proof.
  induction a as [| r a IH]; cbn [app stream fold_right]; [reflexivity |].
  fold (stream (a ++ b)). fold (stream a). now rewrite IH, string_app_assoc.
Qed.

Lemma coalesce_from_stream rest : forall t0 lines,
  lines <> [] ->
  stream (Underway.coalesce_from rest t0 lines [])
  = (strings.Join lines Underway.LFs ++ Underway.LFs ++ stream rest)%string
  /\ (List.length (Underway.coalesce_from rest t0 lines []) <= S (List.length rest))%nat.
Proof.
  induction rest as [| r rest IH]; intros t0 lines Hne; cbn [Underway.coalesce_from].
  - cbn [app stream fold_right datagram underwayRecord.data List.length].
    unfold datagram. cbn [underwayRecord.data].
    rewrite !string_app_assoc. split; [reflexivity | lia].
  - destruct (time.Equal _ t0).
    + destruct (IH t0 (lines ++ [underwayRecord.data r])) as [Hs Hl].
      { now destruct lines. }
      rewrite Hs, Join_snoc by exact Hne.
      cbn [stream fold_right List.length]. fold (stream rest). unfold datagram.
      rewrite !string_app_assoc. split; [reflexivity | lia].
    + rewrite coalesce_from_acc. rewrite stream_app, length_app.
      destruct (IH (time.Truncate (underwayRecord.time r) time.Second)
                  [underwayRecord.data r]) as [Hs Hl]; [discriminate |].
      rewrite Hs.
      cbn [app stream fold_right List.length]. fold (stream rest). unfold datagram.
      cbn [underwayRecord.data strings.Join String.concat].
      rewrite !string_app_assoc. split; [reflexivity | lia].
Qed.

(** X7. Coalescing loses no line and adds none: the datagrams of the
    coalesced records, one after the other, are byte for byte the datagrams
    of the records before coalescing; there are no more records than
    before, and none only when there were none. *)
Theorem X7_coalesce_keeps_lines (l : list underwayRecord.t) :
  stream (Underway.coalesce l) = stream l
  /\ (List.length (Underway.coalesce l) <= List.length l)%nat
  /\ (Underway.coalesce l = [] <-> l = []).
Proof.
  destruct l as [| r rest]; cbn [Underway.coalesce].
  - repeat split; auto.
  - destruct (coalesce_from_stream rest
                (time.Truncate (underwayRecord.time r) time.Second)
                [underwayRecord.data r]) as [Hs Hl]; [discriminate |].
    split; [| split].
    + rewrite Hs. cbn [stream fold_right strings.Join String.concat].
      fold (stream rest). unfold datagram. now rewrite !string_app_assoc.
    + cbn [List.length]. lia.
    + split; [| discriminate]. intros H. exfalso.
      assert (Hstream : stream (Underway.coalesce_from rest
                (time.Truncate (underwayRecord.time r) time.Second)
                [underwayRecord.data r] []) = EmptyString) by now rewrite H.
      rewrite Hs in Hstream. cbn [strings.Join String.concat] in Hstream.
      unfold Underway.LFs in Hstream.
      destruct (underwayRecord.data r); discriminate.
Qed.

(** ** What a driver leaves behind *)

Section ReplayOutput.
Context {E : Type} {impl : Emitter.ops E} {R O : Type}.
Variables (pos : E -> Z) (recs : E -> list R) (rtime : R -> time.Time).
Variables (ready : E -> Prop) (obs : E -> World -> O) (put : R -> O -> error * O).

Hypothesis Next_more : forall e, pos e + 1 < len (recs e) ->
  exists e', Emitter.Next e = (true, e')
             /\ pos e' = pos e + 1 /\ recs e' = recs e /\ (ready e -> ready e')
             /\ (forall w, obs e' w = obs e w).

Hypothesis Next_end : forall e, len (recs e) <= pos e + 1 ->
  Emitter.Next e = (false, e).

Hypothesis Time_cursor : forall e r,
  0 <= pos e -> nth_error (recs e) (Z.to_nat (pos e)) = Some r ->
  Emitter.Time e = rtime r.

Hypothesis Emit_puts : forall fuel e w r,
  0 <= pos e -> nth_error (recs e) (Z.to_nat (pos e)) = Some r -> ready e ->
  exists err e' w',
    Emitter.Emit fuel e w = Some (err, e', w')
    /\ pos e' = pos e /\ recs e' = recs e /\ ready e'
    /\ put r (obs e w) = (err, obs e' w').

(** However a driver ends, it has called Emit on the first of the due
    records, in order, and on all of them when it ends with [Done]; no
    Emit is left without an answer. *)
Lemma replay_outcomes cruiseStart replayStart warp fuel : forall e w evs x e' w',
  -1 <= pos e -> ready e ->
  cmd.startEmitter cruiseStart replayStart warp fuel e w = (evs, x, e', w') ->
  exists emitted rest,
    due rtime cruiseStart (pos e) (recs e) = emitted ++ rest
    /\ (x = cmd.Done -> rest = [])
    /\ x <> cmd.Stuck
    /\ outcomes put emitted (obs e w) = (map firedErr evs, obs e' w').
Proof.
  induction fuel as [| fuel IH]; intros e w evs x e' w' Hpos Hready;
    cbn [cmd.startEmitter].
  - intros H. injection H as <- <- <- <-.
    exists [], (due rtime cruiseStart (pos e) (recs e)).
    split; [reflexivity | split; [discriminate | split; [discriminate | reflexivity]]].
  - destruct (Z_lt_le_dec (pos e + 1) (len (recs e))) as [Hlt | Hge].
    + destruct (Next_more e Hlt) as (e1 & -> & Hp1 & Hr1 & Hready1 & Hobs1). cbn [negb].
      assert (Hnth : exists r, nth_error (recs e) (Z.to_nat (pos e + 1)) = Some r).
      { destruct (nth_error (recs e) (Z.to_nat (pos e + 1))) eqn:Hn; [eauto |].
        apply nth_error_None in Hn. unfold len in Hlt. lia. }
      destruct Hnth as (r & Hnth).
      assert (Hnth1 : nth_error (recs e1) (Z.to_nat (pos e1)) = Some r)
        by now rewrite Hp1, Hr1.
      rewrite (Time_cursor e1 r ltac:(lia) Hnth1).
      assert (Hdue : due rtime cruiseStart (pos e) (recs e)
                     = if time.Before (rtime r) cruiseStart
                       then due rtime cruiseStart (pos e1) (recs e1)
                       else r :: due rtime cruiseStart (pos e1) (recs e1)).
      { unfold due. rewrite (skipn_nth_cons _ _ _ Hnth). cbn [filter].
        replace (S (Z.to_nat (pos e + 1))) with (Z.to_nat (pos e1 + 1)) by lia.
        rewrite Hr1. now destruct (time.Before (rtime r) cruiseStart). }
      rewrite Hdue, <- Hobs1.
      destruct (time.Before (rtime r) cruiseStart); cbn [negb].
      * intros Hrun. exact (IH e1 w evs x e' w' ltac:(lia) (Hready1 Hready) Hrun).
      * destruct (_ <? 0).
        -- intros H. injection H as <- <- <- <-.
           exists [], (r :: due rtime cruiseStart (pos e1) (recs e1)).
           split; [reflexivity | split; [discriminate | split; [discriminate | reflexivity]]].
        -- destruct (Emit_puts fuel e1 w r ltac:(lia) Hnth1 (Hready1 Hready))
             as (err & e2 & w2 & -> & Hp2 & Hr2 & Hready2 & Hput).
           specialize (IH e2 w2).
           destruct (cmd.startEmitter cruiseStart replayStart warp fuel e2 w2)
             as [[[evs2 x2] e3] w3].
           intros Hrun. injection Hrun as <- <- <- <-.
           destruct (IH evs2 x2 e3 w3 ltac:(lia) Hready2 eq_refl)
             as (emitted & rest & Hd & Hx & Hs & Hout).
           exists (r :: emitted), rest.
           split; [| split; [exact Hx | split; [exact Hs |]]].
           ++ cbn [app]. f_equal. rewrite <- Hd. unfold due. now rewrite Hp2, Hr2.
           ++ cbn [outcomes map firedErr]. now rewrite Hput, Hout.
    + rewrite (Next_end e Hge). cbn [negb].
      intros H. injection H as <- <- <- <-.
      exists [], []. unfold due.
      rewrite skipn_all2 by (unfold len in Hge; lia).
      split; [reflexivity | split; [reflexivity | split; [discriminate | reflexivity]]].
Qed.

End ReplayOutput.

(** *** The underway feed *)

Lemma underway_outcomes {N : net.Faults} (l : list underwayRecord.t) : forall w errs w',
  outcomes underway_put l w = (errs, w') ->
  fs w' = fs w /\ sent w' = sent w ++ map datagram (accepted l errs).
Proof.
  induction l as [| r l IH]; intros w errs w'; cbn [outcomes].
  - intros H. injection H as <- <-. cbn [accepted map]. now rewrite app_nil_r.
  - unfold underway_put at 1.
    destruct (net.Write_err (sent w) (datagram r)) as [msg |].
    + destruct (outcomes underway_put l w) as [errs2 w2] eqn:Hrest.
      intros H. injection H as <- <-. cbn [accepted]. exact (IH _ _ _ Hrest).
    + destruct (outcomes underway_put l _) as [errs2 w2] eqn:Hrest.
      intros H. injection H as <- <-. cbn [accepted map].
      destruct (IH _ _ _ Hrest) as [Hf Hs]. cbn [fs sent] in Hf, Hs.
      split; [exact Hf |]. rewrite Hs, <- app_assoc. reflexivity.
Qed.

(** X8. An underway feed whose connection is open, run by a driver, on
    any network. However the driver ends, it has called Emit on the first
    of the records that are not before the cruise start, in order, and on
    all of them when it ends with Done; every Emit answers. An Emit whose
    datagram (the record's lines and a line feed) the network refuses
    answers the error of the write after [underway: ] and sends nothing;
    any other sends the datagram and answers no error. So the datagrams
    sent are, in order, those of the records whose Emit answered no error,
    and no file is touched. *)
Theorem X8_underway_replay_sends {N : net.Faults}
    cruiseStart replayStart warp fuel u w evs x u' w' c :
  -1 <= Underway.i u ->
  Underway.conn u = Some c ->
  net.closed c = false ->
  cmd.startEmitter (impl := Underway_Emitter (N := N))
    cruiseStart replayStart warp fuel u w = (evs, x, u', w') ->
  exists emitted rest,
    due underwayRecord.time cruiseStart (Underway.i u) (Underway.data u) = emitted ++ rest
    /\ (x = cmd.Done -> rest = [])
    /\ x <> cmd.Stuck
    /\ outcomes (underway_put (N := N)) emitted w = (map firedErr evs, w')
    /\ sent w' = sent w ++ map datagram (accepted emitted (map firedErr evs))
    /\ fs w' = fs w.
Proof.
  intros Hpos Hconn Hopen Hrun.
  assert (Hout : exists emitted rest,
    due underwayRecord.time cruiseStart (Underway.i u) (Underway.data u) = emitted ++ rest
    /\ (x = cmd.Done -> rest = [])
    /\ x <> cmd.Stuck
    /\ outcomes underway_put emitted w = (map firedErr evs, w')).
  { eapply (replay_outcomes (impl := Underway_Emitter (N := N))
              Underway.i Underway.data underwayRecord.time
              (fun u => exists c, Underway.conn u = Some c /\ net.closed c = false)
              (fun _ w => w) underway_put).
    - intros e Hlt. exists (Underway.set_i e (Underway.i e + 1)).
      split; [| now repeat split].
      unfold Emitter.Next, Underway_Emitter, Underway.Next.
      destruct (Z.ltb_spec (Underway.i e + 1) (len (Underway.data e))); [reflexivity | lia].
    - intros e Hge. unfold Emitter.Next, Underway_Emitter, Underway.Next.
      destruct (Z.ltb_spec (Underway.i e + 1) (len (Underway.data e))); [lia | reflexivity].
    - intros e r Hi Hn. unfold Emitter.Time, Underway_Emitter, Underway.Time.
      pose proof (len_pos_of_nth _ _ _ Hn).
      destruct (Z.leb_spec 0 (Underway.i e)); [| lia].
      destruct (Z.ltb_spec 0 (len (Underway.data e))); [| lia].
      cbn [andb]. now rewrite Hn.
    - intros fuel0 e w0 r Hi Hn (c0 & Hc & Ho).
      unfold Emitter.Emit, Underway_Emitter, Underway.Emit, underway_put.
      destruct (Z.ltb_spec (Underway.i e) 0); [lia |].
      rewrite Hn. cbn [bind]. rewrite Hc. cbn [bind]. rewrite Ho.
      fold (datagram r).
      destruct (net.Write_err (sent w0) (datagram r)) as [msg |];
        eexists; exists e; eexists; (split; [reflexivity |]); repeat split; eauto.
    - exact Hpos.
    - eauto.
    - exact Hrun. }
  destruct Hout as (emitted & rest & Hd & Hx & Hs & Hout).
  exists emitted, rest.
  destruct (underway_outcomes emitted _ _ _ Hout) as [Hfs Hsent].
  repeat split; assumption.
Qed.

(** The three lines replayed from 10:00:00 on a network that takes no
    datagram of more than four bytes: the first datagram is sent; the
    second, of two lines, is refused, and its Emit answers the error. *)
Lemma X8_underway_replay_sends_witness :
  let run := cmd.startEmitter (impl := Underway_Emitter (N := small_datagrams))
               (time.Date 2021 5 1 10 0 0 0) 0 warp_one 4 underway_three cruise_world in
  sent (snd run) = [ String "3" (String LF EmptyString) ]
  /\ map firedErr (fst (fst (fst run)))
     = [ None; Some "underway: write: message too long"%string ].
Proof.
  cbv zeta.
  destruct (cmd.startEmitter (impl := Underway_Emitter (N := small_datagrams))
              (time.Date 2021 5 1 10 0 0 0) 0 warp_one 4
              underway_three cruise_world) as [[[evs x] u'] w'] eqn:Hrun.
  cbn [fst snd].
  assert (Hpos : -1 <= Underway.i underway_three) by (vm_compute; discriminate).
  destruct (X8_underway_replay_sends (N := small_datagrams) _ _ _ _ underway_three _ _ _ _ _
              {| net.closed := false |} Hpos eq_refl eq_refl Hrun)
    as (emitted & rest & Hd & Hx & _ & _ & Hs & _).
  assert (Hc := Hrun). vm_compute in Hc.
  assert (Hdone : x = cmd.Done) by congruence.
  assert (Hevs : map firedErr evs = [ None; Some "underway: write: message too long"%string ])
    by (injection Hc as <- _ _ _; reflexivity).
  split; [| exact Hevs].
  rewrite Hs, Hevs. rewrite (Hx Hdone), app_nil_r in Hd. rewrite <- Hd.
  vm_compute. reflexivity.
Defined.

(** *** The instrument log *)

Lemma Append_app disk path a b :
  os.Append (os.Append disk path a) path b = os.Append disk path (a ++ b)%string.
Proof.
  induction disk as [| [p c] disk IH]; cbn [os.Append].
  - now rewrite String.eqb_refl.
  - destruct (String.eqb p path) eqn:Heq; cbn [os.Append]; rewrite Heq.
    + now rewrite string_app_assoc.
    + now rewrite IH.
Qed.

Lemma ReadFile_Append_other disk path text p :
  p <> path -> os.ReadFile (os.Append disk path text) p = os.ReadFile disk p.
Proof.
  intros Hp. induction disk as [| [q c] disk IH]; cbn [os.Append os.ReadFile].
  - destruct (String.eqb_spec path p); [congruence | reflexivity].
  - destruct (String.eqb_spec q path) as [-> | Hq]; cbn [os.ReadFile].
    + destruct (String.eqb_spec path p); [congruence | reflexivity].
    + destruct (String.eqb q p); [reflexivity | exact IH].
Qed.

Lemma ReadFile_WriteString_other {F : os.Faults} f disk text p :
  p <> os.Name f -> os.ReadFile (os.WriteString f disk text) p = os.ReadFile disk p.
Proof.
  intros Hp. unfold os.WriteString. destruct (os.closed f); [reflexivity |].
  destruct (os.WriteString_n disk (os.Name f) text); now apply ReadFile_Append_other.
Qed.

Section SeaLogOutcomes.
Context {F : os.Faults}.
Variable outDir : string.

Lemma sealog_put_frame r fo w err fo1 w1 :
  fo = None \/ fo = Some (sealog_file outDir) ->
  sealog_put outDir r (fo, w) = (err, (fo1, w1)) ->
  (fo1 = None \/ fo1 = Some (sealog_file outDir))
  /\ sent w1 = sent w
  /\ (forall p, p <> sealog_outPath outDir ->
        os.ReadFile (fs w1) p = os.ReadFile (fs w) p).
Proof.
  intros Hfo. unfold sealog_put.
  destruct (os.MkdirAll_err (fs w) _).
  { intros H. injection H as <- <- <-. auto. }
  destruct Hfo as [-> | ->].
  - destruct (os.OpenFile_err (fs w) (sealog_outPath outDir)).
    { intros H. injection H as <- <- <-. auto. }
    cbn [os.OpenFile]. fold (sealog_file outDir).
    intros H. injection H as <- <- <-. cbn [fs sent].
    split; [now right | split; [reflexivity |]].
    intros p Hp. rewrite ReadFile_WriteString_other by exact Hp.
    now apply ReadFile_Append_other.
  - intros H. injection H as <- <- <-. cbn [fs sent].
    split; [now right | split; [reflexivity |]].
    intros p Hp. now apply ReadFile_WriteString_other.
Qed.

Lemma sealog_outcomes_frame (l : list seaLogRecord.t) : forall fo w errs fo' w',
  fo = None \/ fo = Some (sealog_file outDir) ->
  outcomes (sealog_put outDir) l (fo, w) = (errs, (fo', w')) ->
  sent w' = sent w
  /\ (forall p, p <> sealog_outPath outDir ->
        os.ReadFile (fs w') p = os.ReadFile (fs w) p).
Proof.
  induction l as [| r l IH]; intros fo w errs fo' w' Hfo; cbn [outcomes].
  - intros H. injection H as <- <- <-. auto.
  - destruct (sealog_put outDir r (fo, w)) as [err [fo1 w1]] eqn:Hput.
    destruct (outcomes (sealog_put outDir) l (fo1, w1)) as [errs2 [fo2 w2]] eqn:Hrest.
    intros H. injection H as <- <- <-.
    destruct (sealog_put_frame _ _ _ _ _ _ Hfo Hput) as (Hfo1 & Hs1 & Hr1).
    destruct (IH _ _ _ _ _ Hfo1 Hrest) as (Hs2 & Hr2).
    split; [congruence |]. intros p Hp. rewrite Hr2, Hr1 by exact Hp. reflexivity.
Qed.

Lemma sealog_outcomes_refused :
  (forall disk p, os.MkdirAll_err disk p <> None) ->
  forall (l : list seaLogRecord.t) o errs o',
    outcomes (sealog_put outDir) l o = (errs, o') ->
    Forall (fun err => err <> None) errs /\ o' = o.
Proof.
  intros Hno. induction l as [| r l IH]; intros o errs o'; cbn [outcomes].
  - intros H. injection H as <- <-. auto.
  - unfold sealog_put at 1. destruct o as [fo w].
    destruct (os.MkdirAll_err (fs w) _) as [msg |] eqn:Hmk; [| now apply Hno in Hmk].
    destruct (outcomes (sealog_put outDir) l (fo, w)) as [errs2 o2] eqn:Hrest.
    intros H. injection H as <- <-.
    destruct (IH _ _ _ Hrest) as (Herrs & ->).
    split; [constructor; [discriminate | exact Herrs] | reflexivity].
Qed.

Hypothesis MkdirAll_ok : forall disk p, os.MkdirAll_err disk p = None.
Hypothesis OpenFile_ok : forall disk p, os.OpenFile_err disk p = None.
Hypothesis WriteString_ok : forall disk p text, os.WriteString_n disk p text = None.

Lemma sealog_put_whole r fo w :
  fo = None \/ fo = Some (sealog_file outDir) ->
  sealog_put outDir r (fo, w)
  = (None, (Some (sealog_file outDir),
            {| fs := os.Append (fs w) (sealog_outPath outDir)
                       (seaLogRecord.String r ++ CRLF)%string;
               sent := sent w |})).
Proof.
  intros Hfo. unfold sealog_put. rewrite MkdirAll_ok.
  destruct Hfo as [-> | ->].
  - rewrite OpenFile_ok. cbn [os.OpenFile]. fold (sealog_file outDir).
    unfold os.WriteString. cbn [os.closed os.Name sealog_file]. rewrite WriteString_ok.
    now rewrite Append_app.
  - unfold os.WriteString. cbn [os.closed os.Name sealog_file]. now rewrite WriteString_ok.
Qed.

Lemma sealog_outcomes_whole (l : list seaLogRecord.t) : forall fo w errs fo' w',
  fo = None \/ fo = Some (sealog_file outDir) ->
  outcomes (sealog_put outDir) l (fo, w) = (errs, (fo', w')) ->
  Forall (fun err => err = None) errs
  /\ w' = match l with
          | [] => w
          | out => {| fs := os.Append (fs w) (sealog_outPath outDir) (log_text out);
                      sent := sent w |}
          end.
Proof.
  induction l as [| r l IH]; intros fo w errs fo' w' Hfo; cbn [outcomes].
  - intros H. injection H as <- <- <-. auto.
  - rewrite (sealog_put_whole r fo w Hfo).
    destruct (outcomes (sealog_put outDir) l _) as [errs2 [fo2 w2]] eqn:Hrest.
    intros H. injection H as <- <- <-.
    destruct (IH _ _ _ _ _ (or_intror eq_refl) Hrest) as (Herrs & Hw).
    split; [constructor; [reflexivity | exact Herrs] |].
    rewrite Hw. destruct l as [| r2 l].
    + cbn [log_text fold_right]. now rewrite string_app_nil_r.
    + cbn [fs sent]. rewrite Append_app. cbn [log_text fold_right].
      now rewrite !string_app_assoc.
Qed.

End SeaLogOutcomes.

(** X9. An instrument-log feed that holds no file, or holds its output
    file open, run by a driver, on any system. The output file is
    [logs/SFlog.txt] under the output directory, the path made clean (an
    output directory [out/] gives [out/logs/SFlog.txt]). However the driver
    ends, it has called Emit on the first of the records that are not
    before the cruise start, in order, and on all of them when it ends with
    Done; every Emit answers. Each Emit makes the directory, opens the
    output file unless the feed holds it, and writes the record (its time
    line, its line and a CRLF); when the directory or the file is refused
    it answers the error after [seaflowlog: ] and writes nothing; the
    error of the write is dropped. Nothing is sent and no other file
    changes. On a system that refuses nothing no Emit answers an error and
    the text of the emitted records is appended to the output file, which
    is not even created when no record is due. On a system where no
    directory can be made every Emit answers an error and the world stays
    as it was. *)
Theorem X9_sealog_replay_appends {F : os.Faults}
    cruiseStart replayStart warp fuel s w evs x s' w' :
  -1 <= SeaLog.i s ->
  SeaLog.file s = None
  \/ SeaLog.file s = Some {| os.Name := sealog_outPath (SeaLog.outDir s);
                            os.closed := false |} ->
  cmd.startEmitter (impl := SeaLog_Emitter (F := F))
    cruiseStart replayStart warp fuel s w = (evs, x, s', w') ->
  exists emitted rest,
    due seaLogRecord.time cruiseStart (SeaLog.i s) (SeaLog.data s) = emitted ++ rest
    /\ (x = cmd.Done -> rest = [])
    /\ x <> cmd.Stuck
    /\ outcomes (sealog_put (F := F) (SeaLog.outDir s)) emitted (SeaLog.file s, w)
       = (map firedErr evs, (SeaLog.file s', w'))
    /\ sent w' = sent w
    /\ (forall p, p <> sealog_outPath (SeaLog.outDir s) ->
          os.ReadFile (fs w') p = os.ReadFile (fs w) p)
    /\ ((forall disk p, @os.MkdirAll_err F disk p = None) ->
        (forall disk p, @os.OpenFile_err F disk p = None) ->
        (forall disk p text, @os.WriteString_n F disk p text = None) ->
        Forall (fun ev => firedErr ev = None) evs
        /\ w' = match emitted with
                | [] => w
                | out => {| fs := os.Append (fs w) (sealog_outPath (SeaLog.outDir s))
                                    (log_text out);
                            sent := sent w |}
                end)
    /\ ((forall disk p, @os.MkdirAll_err F disk p <> None) ->
        Forall (fun ev => firedErr ev <> None) evs /\ w' = w).
Proof.
  intros Hpos Hfile Hrun.
  assert (Hout : exists emitted rest,
    due seaLogRecord.time cruiseStart (SeaLog.i s) (SeaLog.data s) = emitted ++ rest
    /\ (x = cmd.Done -> rest = [])
    /\ x <> cmd.Stuck
    /\ outcomes (sealog_put (SeaLog.outDir s)) emitted (SeaLog.file s, w)
       = (map firedErr evs, (SeaLog.file s', w'))).
  { eapply (replay_outcomes (impl := SeaLog_Emitter (F := F))
              SeaLog.i SeaLog.data seaLogRecord.time
              (fun s0 => SeaLog.outDir s0 = SeaLog.outDir s)
              (fun s0 w0 => (SeaLog.file s0, w0))
              (sealog_put (SeaLog.outDir s))).
    - intros e Hlt. exists (SeaLog.set_i e (SeaLog.i e + 1)).
      split; [| now repeat split].
      unfold Emitter.Next, SeaLog_Emitter, SeaLog.Next.
      destruct (Z.ltb_spec (SeaLog.i e + 1) (len (SeaLog.data e))); [reflexivity | lia].
    - intros e Hge. unfold Emitter.Next, SeaLog_Emitter, SeaLog.Next.
      destruct (Z.ltb_spec (SeaLog.i e + 1) (len (SeaLog.data e))); [lia | reflexivity].
    - intros e r Hi Hn. unfold Emitter.Time, SeaLog_Emitter, SeaLog.Time.
      pose proof (len_pos_of_nth _ _ _ Hn).
      destruct (Z.leb_spec 0 (SeaLog.i e)); [| lia].
      destruct (Z.ltb_spec 0 (len (SeaLog.data e))); [| lia].
      cbn [andb]. now rewrite Hn.
    - intros fuel0 e w0 r Hi Hn Hdir.
      unfold Emitter.Emit, SeaLog_Emitter, SeaLog.Emit, sealog_put.
      destruct (Z.ltb_spec (SeaLog.i e) 0); [lia |].
      rewrite Hn. cbn [bind]. rewrite Hdir. fold (sealog_outPath (SeaLog.outDir s)).
      destruct (os.MkdirAll_err (fs w0) _).
      { eexists. exists e. eexists. split; [reflexivity |]. now repeat split. }
      destruct (SeaLog.file e) as [f |] eqn:Hf.
      { eexists. eexists. eexists. split; [reflexivity |].
        cbn [SeaLog.set_file SeaLog.i SeaLog.data SeaLog.outDir SeaLog.file].
        now repeat split. }
      destruct (os.OpenFile_err (fs w0) _).
      { eexists. eexists. eexists. split; [reflexivity |].
        cbn [SeaLog.set_file SeaLog.i SeaLog.data SeaLog.outDir SeaLog.file].
        now repeat split. }
      cbn [os.OpenFile].
      eexists. eexists. eexists. split; [reflexivity |].
      cbn [SeaLog.set_file SeaLog.i SeaLog.data SeaLog.outDir SeaLog.file].
      now repeat split.
    - exact Hpos.
    - reflexivity.
    - exact Hrun. }
  destruct Hout as (emitted & rest & Hd & Hx & Hs & Hout).
  exists emitted, rest.
  destruct (sealog_outcomes_frame _ emitted _ _ _ _ _ Hfile Hout) as (Hsent & Hframe).
  split; [exact Hd | split; [exact Hx | split; [exact Hs | split; [exact Hout |
    split; [exact Hsent | split; [exact Hframe | split]]]]]].
  - intros Hmk Hop Hwr.
    destruct (sealog_outcomes_whole _ Hmk Hop Hwr emitted _ _ _ _ _ Hfile Hout) as (Herrs & Hw).
    split; [exact (proj1 (Forall_map _ _ _) Herrs) | exact Hw].
  - intros Hno.
    destruct (sealog_outcomes_refused _ Hno emitted _ _ _ Hout) as (Herrs & Ho).
    split; [exact (proj1 (Forall_map _ _ _) Herrs) | congruence].
Qed.

(** The log of one event replayed from 10:00:00. On a system that
    refuses nothing the event is written to out/logs/SFlog.txt, the path
    also when the output directory is given as [out/]; on a system where
    no directory can be made the Emit answers the error and the world stays
    as it was. *)
Lemma X9_sealog_replay_appends_witness :
  os.ReadFile (fs (snd (cmd.startEmitter (time.Date 2021 5 1 10 0 0 0) 0 warp_one 3
                          sealog_one cruise_world)))
    "out/logs/SFlog.txt"
  = Some ("2021-05-01T10-00-07+00:00" ++ CRLF ++ "start" ++ CRLF)%string
  /\ sealog_outPath "out/" = "out/logs/SFlog.txt"%string
  /\ (let run := cmd.startEmitter (impl := SeaLog_Emitter (F := no_directories))
                   (time.Date 2021 5 1 10 0 0 0) 0 warp_one 3 sealog_one cruise_world in
      snd run = cruise_world
      /\ Forall (fun ev => firedErr ev <> None) (fst (fst (fst run)))).
Proof.
  assert (Hpos : -1 <= SeaLog.i sealog_one) by (vm_compute; discriminate).
  split; [| split; [vm_compute; reflexivity |]].
  - destruct (cmd.startEmitter (time.Date 2021 5 1 10 0 0 0) 0 warp_one 3
                sealog_one cruise_world) as [[[evs x] s'] w'] eqn:Hrun.
    cbn [snd].
    destruct (X9_sealog_replay_appends (F := os.reliable) _ _ _ _ sealog_one _ _ _ _ _
                Hpos (or_introl eq_refl) Hrun)
      as (emitted & rest & Hd & Hx & _ & _ & _ & _ & Hwhole & _).
    assert (Hc := Hrun). vm_compute in Hc.
    assert (Hdone : x = cmd.Done) by congruence.
    rewrite (Hx Hdone), app_nil_r in Hd.
    destruct (Hwhole (fun _ _ => eq_refl) (fun _ _ => eq_refl) (fun _ _ _ => eq_refl))
      as (_ & Hw).
    rewrite Hw, <- Hd. vm_compute. reflexivity.
  - cbv zeta.
    destruct (cmd.startEmitter (impl := SeaLog_Emitter (F := no_directories))
                (time.Date 2021 5 1 10 0 0 0) 0 warp_one 3
                sealog_one cruise_world) as [[[evs x] s'] w'] eqn:Hrun.
    cbn [fst snd].
    destruct (X9_sealog_replay_appends (F := no_directories) _ _ _ _ sealog_one _ _ _ _ _
                Hpos (or_introl eq_refl) Hrun)
      as (emitted & rest & _ & _ & _ & _ & _ & _ & _ & Hrefused).
    apply and_comm. apply Hrefused. intros disk p H. discriminate H.
Defined.

(** *** The EVT files *)

Lemma ReadFile_Create disk path bytes p :
  os.ReadFile (os.Create disk path bytes) p
  = if String.eqb path p then Some bytes else os.ReadFile disk p.
Proof.
  induction disk as [| [q c] disk IH]; cbn [os.Create os.ReadFile].
  - reflexivity.
  - destruct (String.eqb_spec q path) as [-> | Hq]; cbn [os.ReadFile].
    + now destruct (String.eqb path p).
    + destruct (String.eqb_spec q p) as [-> | Hp].
      * destruct (String.eqb_spec path p) as [-> | _]; [congruence | reflexivity].
      * exact IH.
Qed.

Lemma ReadFile_Create_same disk path bytes :
  os.ReadFile (os.Create disk path bytes) path = Some bytes.
Proof. now rewrite ReadFile_Create, String.eqb_refl. Qed.

Lemma ReadFile_Create_other disk path bytes p :
  p <> path -> os.ReadFile (os.Create disk path bytes) p = os.ReadFile disk p.
Proof.
  intros Hp. rewrite ReadFile_Create.
  destruct (String.eqb_spec path p); [congruence | reflexivity].
Qed.

(** Evt.Emit with the cursor on record [r], in the words of the
    vocabulary. *)
Lemma Evt_Emit_at {F : os.Faults} e w r :
  0 <= Evt.i e ->
  nth_error (Evt.data e) (Z.to_nat (Evt.i e)) = Some r ->
  Evt.Emit e w
  = let src := evtFile.path r in
    let out := evt_outPath (Evt.outDir e) r in
    match os.MkdirAll_err (fs w) (evt_outDir (Evt.outDir e) r) with
    | Some err => Some (Some ("evt: " ++ err)%string, e, w)
    | None =>
        match os.ReadFile (fs w) src with
        | None =>
            Some (Some ("evt: open " ++ src ++ ": no such file or directory")%string, e, w)
        | Some _ =>
            match os.Create_err (fs w) out with
            | Some err => Some (Some ("evt: " ++ err)%string, e, w)
            | None =>
                let disk := os.Create (fs w) out EmptyString in
                let bytes := content disk src in
                match os.Copy_err disk src out with
                | Some (n, err) =>
                    Some (Some ("evt: " ++ err)%string, e,
                          {| fs := os.Create disk out (substring 0 n bytes); sent := sent w |})
                | None =>
                    Some (None, e, {| fs := os.Create disk out bytes; sent := sent w |})
                end
            end
        end
    end.
Proof.
  intros Hi Hn. unfold Evt.Emit.
  destruct (Z.ltb_spec (Evt.i e) 0); [lia |]. rewrite Hn. reflexivity.
Qed.

(** X10. Evt.Emit with the cursor on a record, on any system. Emit
    always answers, never changes the feed, sends nothing and changes no
    file but the output file. It makes the day directory, opens the source
    file, creates the output file (which empties it, if it exists) and
    copies the source as it is then. When the directory cannot be made, the
    source cannot be opened or the output file cannot be created, it
    answers the error after [evt: ] and the world stays as it was. When the
    copy stops after n bytes it answers the error and the output file holds
    the first n bytes; otherwise it answers no error and the output file
    holds the copy. What is copied is the source file as it was before the
    call, unless the source file is the output file itself: then the
    file has been emptied before it is read, and it is left empty. *)
Theorem X10_evt_emit_copies {F : os.Faults} e w r :
  0 <= Evt.i e ->
  nth_error (Evt.data e) (Z.to_nat (Evt.i e)) = Some r ->
  exists err w',
    Evt.Emit (F := F) e w = Some (err, e, w')
    /\ sent w' = sent w
    /\ (forall p, p <> evt_outPath (Evt.outDir e) r ->
          os.ReadFile (fs w') p = os.ReadFile (fs w) p)
    /\ match @os.MkdirAll_err F (fs w) (evt_outDir (Evt.outDir e) r) with
       | Some msg => err = Some ("evt: " ++ msg)%string /\ w' = w
       | None =>
           match os.ReadFile (fs w) (evtFile.path r) with
           | None =>
               err = Some ("evt: open " ++ evtFile.path r
                           ++ ": no such file or directory")%string
               /\ w' = w
           | Some bytes =>
               match @os.Create_err F (fs w) (evt_outPath (Evt.outDir e) r) with
               | Some msg => err = Some ("evt: " ++ msg)%string /\ w' = w
               | None =>
                   let copied :=
                     if String.eqb (evt_outPath (Evt.outDir e) r) (evtFile.path r)
                     then EmptyString else bytes in
                   match @os.Copy_err F
                           (os.Create (fs w) (evt_outPath (Evt.outDir e) r) EmptyString)
                           (evtFile.path r) (evt_outPath (Evt.outDir e) r) with
                   | Some (n, msg) =>
                       err = Some ("evt: " ++ msg)%string
                       /\ os.ReadFile (fs w') (evt_outPath (Evt.outDir e) r)
                          = Some (substring 0 n copied)
                   | None =>
                       err = None
                       /\ os.ReadFile (fs w') (evt_outPath (Evt.outDir e) r) = Some copied
                   end
               end
           end
       end.
Proof.
  intros Hi Hn. rewrite (Evt_Emit_at e w r Hi Hn). cbv zeta.
  generalize (evt_outPath (Evt.outDir e) r) as out.
  generalize (evt_outDir (Evt.outDir e) r) as dir.
  intros dir out.
  destruct (os.MkdirAll_err (fs w) dir) as [msg |].
  { eexists. eexists. split; [reflexivity |]. now repeat split. }
  destruct (os.ReadFile (fs w) (evtFile.path r)) as [bytes |] eqn:Hsrc.
  2: { eexists. eexists. split; [reflexivity |]. now repeat split. }
  destruct (os.Create_err (fs w) out) as [msg |].
  { eexists. eexists. split; [reflexivity |]. now repeat split. }
  assert (Hcopied : content (os.Create (fs w) out EmptyString) (evtFile.path r)
                    = if String.eqb out (evtFile.path r) then EmptyString else bytes).
  { unfold content. rewrite ReadFile_Create, Hsrc.
    now destruct (String.eqb out (evtFile.path r)). }
  rewrite Hcopied.
  destruct (os.Copy_err _ _ _) as [[n msg] |];
    (eexists; eexists; split; [reflexivity |]); cbn [fs sent];
    (split; [reflexivity |]);
    (split; [intros p Hp; now rewrite !ReadFile_Create_other by exact Hp |]);
    (split; [reflexivity | apply ReadFile_Create_same]).
Qed.

(** The feed of two files after one Next, on a system that refuses
    nothing: the first file is copied under the day directory 2021_121.
    And a feed whose one file lies where its copy goes: Emit answers no
    error, and the file is left empty. *)
Lemma X10_evt_emit_copies_witness :
  (exists w',
     Evt.Emit (snd (Evt.Next evt_two)) cruise_world = Some (None, snd (Evt.Next evt_two), w')
     /\ os.ReadFile (fs w') "out/datafiles/evt/2021_121/2021-05-01T10-00-00+00-00"
        = Some "A"%string)
  /\ (exists w',
        Evt.Emit evt_own_output {| fs := [(evt_in_place, "A"%string)]; sent := [] |}
        = Some (None, evt_own_output, w')
        /\ os.ReadFile (fs w') evt_in_place = Some EmptyString).
Proof.
  split.
  - assert (Hi : 0 <= Evt.i (snd (Evt.Next evt_two))) by (vm_compute; discriminate).
    destruct (X10_evt_emit_copies (F := os.reliable) (snd (Evt.Next evt_two)) cruise_world
                {| evtFile.time := time.Date 2021 5 1 10 0 0 0; evtFile.path := evt_first |}
                Hi ltac:(vm_compute; reflexivity)) as (err & w' & Hemit & _ & _ & Hcase).
    vm_compute in Hcase. destruct Hcase as [-> Hread].
    exists w'. split; [exact Hemit | exact Hread].
  - assert (Hi : 0 <= Evt.i evt_own_output) by (vm_compute; discriminate).
    destruct (X10_evt_emit_copies (F := os.reliable) evt_own_output
                {| fs := [(evt_in_place, "A"%string)]; sent := [] |}
                {| evtFile.time := time.Date 2021 5 1 10 0 0 0; evtFile.path := evt_in_place |}
                Hi ltac:(vm_compute; reflexivity)) as (err & w' & Hemit & _ & _ & Hcase).
    vm_compute in Hcase. destruct Hcase as [-> Hread].
    exists w'. split; [exact Hemit | exact Hread].
Defined.

(** ** The timers of a driver *)

(** X11. Whatever the feed, the cruise start, the replay start and the
    warp (zero, negative, infinite and NaN included): every timer a driver
    sets is for the replay start plus the warped time of the record since
    the cruise start, that delay is not negative, and so no timer is set
    for a time before the replay start. *)
Theorem X11_timers_from_replay_start :
  forall (E : Type) (impl : Emitter.ops E) cruiseStart replayStart warp fuel e w,
    Forall (fun ev =>
              emitTime ev
              = time.Add replayStart (cmd.warped (time.Sub (recTime ev) cruiseStart) warp)
              /\ 0 <= cmd.warped (time.Sub (recTime ev) cruiseStart) warp
              /\ replayStart <= emitTime ev)
      (fst (fst (fst (cmd.startEmitter cruiseStart replayStart warp fuel e w)))).
Proof.
  intros E impl cruiseStart replayStart warp fuel.
  induction fuel as [| fuel IH]; intros e w; cbn [cmd.startEmitter].
  - constructor.
  - destruct (Emitter.Next e) as [more e1]. destruct more; cbn [negb]; [| constructor].
    destruct (time.Before (Emitter.Time e1) cruiseStart); [apply IH |].
    destruct (Z.ltb_spec (cmd.warped (time.Sub (Emitter.Time e1) cruiseStart) warp) 0)
      as [Hneg | Hpos]; [constructor |].
    destruct (Emitter.Emit fuel e1 w) as [[[err e2] w2] |]; [| constructor].
    specialize (IH e2 w2).
    destruct (cmd.startEmitter cruiseStart replayStart warp fuel e2 w2) as [[[evs x] e3] w3].
    cbn [fst] in *. constructor; [| exact IH].
    cbn [emitTime recTime]. unfold time.Add. repeat split; lia.
Qed.

(** ** The cruise start taken from the feeds *)

Lemma minTime_from_after_zero es : forall first,
  0 <= first ->
  Forall (fun e => 0 <= earliest e) es ->
  cmd.minTime_from es first
  = if existsb time.IsZero (map earliest es)
    then minimum (after_last_zero (map earliest es))
    else if time.IsZero first then minimum (map earliest es)
         else fold_left Z.min (map earliest es) first.
Proof.
  induction es as [| e es IH]; intros first Hfirst Hall;
    cbn [cmd.minTime_from map existsb after_last_zero].
  - cbn [minimum fold_left]. unfold time.IsZero.
    destruct (Z.eqb_spec first 0); [assumption | reflexivity].
  - inversion Hall as [| ? ? He Hes]; subst. fold (earliest e).
    set (first' := if time.IsZero first || time.Before (earliest e) first
                   then earliest e else first).
    assert (Hfirst' : 0 <= first') by (subst first'; destruct (_ || _); assumption).
    rewrite (IH first' Hfirst' Hes).
    destruct (existsb time.IsZero (map earliest es)) eqn:Hz.
    + now rewrite orb_true_r.
    + rewrite orb_false_r. subst first'. unfold time.IsZero, time.Before in *.
      destruct (Z.eqb_spec (earliest e) 0) as [He0 | He0].
      * rewrite He0.
        destruct (Z.eqb_spec first 0) as [-> | Hf0]; cbn [orb]; [reflexivity |].
        destruct (Z.ltb_spec 0 first); [reflexivity | lia].
      * destruct (Z.eqb_spec first 0) as [-> | Hf0]; cbn [orb].
        -- destruct (Z.eqb_spec (earliest e) 0); [contradiction | reflexivity].
        -- cbn [fold_left].
           destruct (Z.ltb_spec (earliest e) first) as [Hlt | Hge].
           ++ destruct (Z.eqb_spec (earliest e) 0); [contradiction |].
              now rewrite Z.min_r by lia.
           ++ destruct (Z.eqb_spec first 0); [contradiction |].
              now rewrite Z.min_l by lia.
Qed.

Lemma after_last_zero_none ts :
  existsb time.IsZero ts = false -> after_last_zero ts = ts.
Proof.
  destruct ts as [| t rest]; [reflexivity |]. cbn [existsb after_last_zero].
  intros H. apply orb_false_iff in H as [Ht Hrest]. now rewrite Hrest, Ht.
Qed.

(** X12. What minTime answers, for feeds whose earliest times are not
    before the zero Time: the least of the earliest times of the feeds that
    come after the last feed whose earliest time is the zero Time (which is
    what an empty feed answers), and the zero Time when that feed is the
    last one. The feeds before it do not count. When no feed answers the
    zero Time this is the least of all the earliest times. *)
Theorem X12_minTime_after_last_zero es :
  Forall (fun e => 0 <= earliest e) es ->
  cmd.minTime es = minimum (after_last_zero (map earliest es))
  /\ (Forall (fun e => earliest e <> time.zero) es ->
      cmd.minTime es = minimum (map earliest es)).
Proof.
  intros Hall. split.
  - unfold cmd.minTime. rewrite minTime_from_after_zero by (unfold time.zero; auto; lia).
    destruct (existsb time.IsZero (map earliest es)) eqn:Hz; [reflexivity |].
    cbn. now rewrite after_last_zero_none.
  - apply minTime_nonzero.
Qed.

(** The four feeds of the sample cruise: only the instrument log, the
    one feed after the empty ones, counts. *)
Lemma X12_minTime_after_last_zero_witness :
  after_last_zero (map earliest (cmd.emitters evt_two sfl_none underway_none sealog_one))
  = [ time.Date 2021 5 1 10 0 7 0 ]
  /\ cmd.minTime (cmd.emitters evt_two sfl_none underway_none sealog_one)
     = time.Date 2021 5 1 10 0 7 0.
Proof.
  split; [vm_compute; reflexivity |].
  rewrite (proj1 (X12_minTime_after_last_zero
                    (cmd.emitters evt_two sfl_none underway_none sealog_one)
                    ltac:(repeat constructor; vm_compute; discriminate))).
  vm_compute. reflexivity.
Defined.

(** *** The events of the instrument log *)

Lemma SeaLog_ingest_split events : forall s,
  SeaLog.data (SeaLog.ingest events s)
  = SeaLog.data s ++ map sealog_record (filter (fun ev => negb (unhandled ev)) events)
  /\ SeaLog.warnings (SeaLog.ingest events s)
     = SeaLog.warnings s ++ map sealog_warning (filter unhandled events).
Proof.
  induction events as [| ev rest IH]; intros s; cbn [SeaLog.ingest filter map].
  - now rewrite !app_nil_r.
  - fold (unhandled ev). destruct (unhandled ev); cbn [negb map].
    + destruct (IH {| SeaLog.i := SeaLog.i s; SeaLog.data := SeaLog.data s;
                      SeaLog.outDir := SeaLog.outDir s; SeaLog.file := SeaLog.file s;
                      SeaLog.warnings := SeaLog.warnings s ++ [sealog_warning ev] |})
        as [Hd Hw].
      unfold sealog_warning in *. rewrite Hd, Hw. cbn [SeaLog.data SeaLog.warnings].
      now rewrite <- app_assoc.
    + destruct (IH {| SeaLog.i := SeaLog.i s;
                      SeaLog.data := SeaLog.data s ++ [sealog_record ev];
                      SeaLog.outDir := SeaLog.outDir s; SeaLog.file := SeaLog.file s;
                      SeaLog.warnings := SeaLog.warnings s |})
        as [Hd Hw].
      unfold sealog_record in *. rewrite Hd, Hw. cbn [SeaLog.data SeaLog.warnings].
      now rewrite <- app_assoc.
Qed.

(** X13. After a successful NewSeaLog every event of the log is
    accounted for once: the records are, up to the order, the events whose
    name is not ["unhandled"], each with its time and its line; the
    warnings are, in order, one per event named ["unhandled"]; so records
    and warnings together are as many as the events. *)
Theorem X13_NewSeaLog_accounts_for_events scan disk file outDir s :
  SeaLog.NewSeaLog scan disk file outDir = (s, None) ->
  exists text events,
    os.ReadFile disk file = Some text
    /\ scan text = (events, None)
    /\ Permutation (map sealog_record (filter (fun ev => negb (unhandled ev)) events))
         (SeaLog.data s)
    /\ SeaLog.warnings s = map sealog_warning (filter unhandled events)
    /\ SeaLog.Len s + len (SeaLog.warnings s) = len events.
Proof.
  unfold SeaLog.NewSeaLog.
  destruct (os.ReadFile disk file) as [text |]; [| discriminate].
  destruct (scan text) as [events [msg |]] eqn:Hscan; [discriminate |].
  intros H. injection H as <-. exists text, events.
  split; [reflexivity | split; [exact Hscan |]].
  match goal with |- context [SeaLog.ingest events ?s0] =>
    destruct (SeaLog_ingest_split events s0) as [Hd Hw]
  end.
  cbn [SeaLog.data SeaLog.warnings app] in *.
  pose proof (SliceStable_stable_sort seaLogRecord.time
                (map sealog_record (filter (fun ev => negb (unhandled ev)) events)))
    as (_ & Hp & _).
  change (sort.SliceStable _ (map sealog_record _))
    with (sort.SliceStable SeaLog.less
            (map sealog_record (filter (fun ev => negb (unhandled ev)) events))) in Hp.
  unfold SeaLog.Len. cbn [SeaLog.data]. rewrite Hd, Hw.
  split; [exact Hp | split; [reflexivity |]].
  unfold len. rewrite <- (Permutation_length Hp), !length_map.
  pose proof (filter_length unhandled events) as Hlen. lia.
Qed.

(** The log of one event: one record, no warning. *)
Lemma X13_NewSeaLog_accounts_for_events_witness :
  SeaLog.Len sealog_one + len (SeaLog.warnings sealog_one) = 1.
Proof.
  destruct (X13_NewSeaLog_accounts_for_events scan_one cruise_disk
              "/cruise/SFlog.txt" "out" sealog_one ltac:(vm_compute; reflexivity))
    as (text & events & Hread & Hscan & _ & _ & Hlen).
  rewrite Hlen.
  assert (Htext : text = "event"%string) by (vm_compute in Hread; congruence).
  subst text. vm_compute in Hscan. injection Hscan as <-. reflexivity.
Defined.

(** *** The SFL driver *)






(** ** Finding the files *)

Lemma slice_from_1 c s : slice_from (String c s) 1 = s.
Proof.
  unfold slice_from. cbn [String.length Nat.sub substring].
  rewrite Nat.sub_0_r. clear c. induction s as [| c s IH]; cbn; [reflexivity |].
  now rewrite IH.
Qed.

Lemma slice_from_all s : slice_from s 0 = s.
Proof.
  unfold slice_from. rewrite Nat.sub_0_r.
  induction s as [| c s IH]; cbn; [reflexivity | now rewrite IH].
Qed.

Lemma slice_from_app (a b : string) : slice_from (a ++ b) (String.length a) = b.
Proof.
  induction a as [| c a IH]; [apply slice_from_all |].
  unfold slice_from in *. cbn [append String.length Nat.sub substring]. exact IH.
Qed.

(** An escaped ASCII character in a class that goes on. *)
Lemma getEsc_escaped c c' rest :
  utf8.byte c < 128 ->
  filepath.getEsc (String "\" (String c (String c' rest))) = Some (utf8.byte c, String c' rest).
Proof.
  intros Hc. unfold filepath.getEsc.
  change (Ascii.eqb "\" "-" || Ascii.eqb "\" "]") with false.
  change (Ascii.eqb "\" "\") with true. cbv iota.
  unfold utf8.DecodeRuneInString, utf8.lead.
  destruct (Z.ltb_spec (utf8.byte c) 194) as [_ | Hge]; [| lia].
  destruct (Z.ltb_spec (utf8.byte c) 128) as [_ | Hge]; [| lia].
  rewrite slice_from_1. cbn [String.length Nat.eqb orb].
  destruct (Z.eqb_spec (utf8.byte c) utf8.RuneError) as [He | _];
    [unfold utf8.RuneError in He; lia | reflexivity].
Qed.

(** The class of the two signs. *)
Lemma classRanges_sign fuel rest r :
  filepath.classRanges (S (S (S fuel))) ("\-\+]" ++ rest) r 0 false
  = Some ((r =? 45) || (r =? 43), rest).
Proof.
  cbn [append]. cbn [filepath.classRanges].
  change (Ascii.eqb "\" "]") with false. cbn [andb]. cbv iota.
  rewrite (getEsc_escaped "-" "\") by (vm_compute; reflexivity). cbv iota.
  change (Ascii.eqb "\" "]") with false. cbn [andb]. cbv iota.
  rewrite (getEsc_escaped "+" "]") by (vm_compute; reflexivity). cbv iota.
  change (Ascii.eqb "]" "]") with true. cbn [andb Nat.ltb Nat.leb]. cbv iota.
  rewrite slice_from_1. cbn [orb].
  change (utf8.byte "-") with 45. change (utf8.byte "+") with 43.
  replace ((45 <=? r) && (r <=? 45)) with (r =? 45) by lia.
  replace ((43 <=? r) && (r <=? 43)) with (r =? 43) by lia.
  reflexivity.
Qed.

(** One turn of matchChunk on the class of the two signs. *)
Lemma matchChunk_sign fuel t s failed :
  filepath.matchChunk (S fuel) ("[\-\+]" ++ t) s failed
  = let failed := failed || (String.length s =? 0)%nat in
    let '(r, s) :=
      if failed then (0, s)
      else let '(r, n) := utf8.DecodeRuneInString s in (r, slice_from s n) in
    filepath.matchChunk fuel t s (failed || negb ((r =? 45) || (r =? 43))).
Proof.
  cbn [append]. cbn [filepath.matchChunk].
  change (Ascii.eqb "[" "[") with true. cbv iota.
  cbn [String.length].
  change (String "\" (String "-" (String "\" (String "+" (String "]" t)))))
    with ("\-\+]" ++ t)%string.
  cbv zeta.
  destruct (if failed || (String.length s =? 0)%nat
            then (0, s)
            else let '(r, n) := utf8.DecodeRuneInString s in (r, slice_from s n))
    as [r s1].
  rewrite classRanges_sign.
  now destruct ((r =? 45) || (r =? 43)).
Qed.

(** One turn of matchChunk on a plain character. *)
Lemma matchChunk_lit fuel c t s failed :
  plain c = true ->
  filepath.matchChunk (S fuel) (String c t) s failed
  = let failed := failed || (String.length s =? 0)%nat in
    if failed then filepath.matchChunk fuel t s failed
    else filepath.matchChunk fuel t (slice_from s 1)
           (match s with
            | String s0 _ => negb (Ascii.eqb c s0)
            | EmptyString => false
            end).
Proof.
  intros Hk. unfold plain in Hk.
  apply negb_true_iff in Hk. apply orb_false_iff in Hk as [Hk _].
  apply orb_false_iff in Hk as [Hk Hb]. apply orb_false_iff in Hk as [Hl Hq].
  cbn [filepath.matchChunk]. rewrite Hl, Hq, Hb. reflexivity.
Qed.

(** One turn of matchChunk on a question mark. *)
Lemma matchChunk_any fuel t s failed :
  filepath.matchChunk (S fuel) (String "?" t) s failed
  = let failed := failed || (String.length s =? 0)%nat in
    if failed then filepath.matchChunk fuel t s failed
    else filepath.matchChunk fuel t (slice_from s (snd (utf8.DecodeRuneInString s)))
           (match s with
            | String s0 _ => Ascii.eqb s0 filepath.Separator
            | EmptyString => false
            end).
Proof.
  cbn [filepath.matchChunk].
  change (Ascii.eqb "?" "[") with false. change (Ascii.eqb "?" "?") with true.
  cbv iota zeta. destruct (failed || (String.length s =? 0)%nat); [reflexivity |].
  now destruct (utf8.DecodeRuneInString s).
Qed.

(** Once the match has failed, the rest of a pattern only decides
    between no match and a bad pattern. *)
Lemma matchChunk_failed toks : forall fuel s,
  forallb plain_token toks = true ->
  (List.length toks < fuel)%nat ->
  filepath.matchChunk fuel (render toks) s true = Some None.
Proof.
  induction toks as [| k rest IH]; intros fuel s Hplain Hfuel;
    (destruct fuel as [| fuel]; [cbn [List.length] in Hfuel; lia |]).
  - reflexivity.
  - cbn [forallb] in Hplain. apply andb_true_iff in Hplain as [Hk Hrest].
    cbn [List.length] in Hfuel.
    destruct k as [| c |]; cbn [render].
    + rewrite matchChunk_any. cbn [orb]. cbv zeta iota. apply IH; [exact Hrest | lia].
    + rewrite (matchChunk_lit _ _ _ _ _ Hk). cbn [orb]. cbv zeta iota.
      apply IH; [exact Hrest | lia].
    + rewrite matchChunk_sign. cbn [orb]. cbv zeta iota.
      apply IH; [exact Hrest | lia].
Qed.

(** A pattern of plain tokens is matched as [consume] says. *)
Lemma matchChunk_consume toks : forall fuel s,
  forallb plain_token toks = true ->
  (List.length toks < fuel)%nat ->
  filepath.matchChunk fuel (render toks) s false = Some (consume toks s).
Proof.
  induction toks as [| k rest IH]; intros fuel s Hplain Hfuel;
    (destruct fuel as [| fuel]; [cbn [List.length] in Hfuel; lia |]).
  - reflexivity.
  - cbn [forallb] in Hplain. apply andb_true_iff in Hplain as [Hk Hrest].
    cbn [List.length] in Hfuel.
    assert (Hfail : forall s0, filepath.matchChunk fuel (render rest) s0 true = Some None)
      by (intros s0; apply matchChunk_failed; [exact Hrest | lia]).
    destruct k as [| c |]; cbn [render consume].
    + rewrite matchChunk_any. cbn [orb]. cbv zeta.
      destruct s as [| s0 s']; [apply Hfail |].
      cbn [String.length Nat.eqb]. cbv iota.
      destruct (Ascii.eqb s0 filepath.Separator); [apply Hfail |].
      apply IH; [exact Hrest | lia].
    + rewrite (matchChunk_lit _ _ _ _ _ Hk). cbn [orb]. cbv zeta.
      destruct s as [| s0 s']; [apply Hfail |].
      cbn [String.length Nat.eqb]. cbv iota. rewrite slice_from_1.
      destruct (Ascii.eqb c s0); cbn [negb]; [| apply Hfail].
      apply IH; [exact Hrest | lia].
    + rewrite matchChunk_sign. cbn [orb]. cbv zeta.
      destruct s as [| s0 s']; [apply Hfail |].
      cbn [String.length Nat.eqb]. cbv iota.
      destruct (utf8.DecodeRuneInString (String s0 s')) as [r n].
      destruct ((r =? 45) || (r =? 43)); cbn [negb]; [| apply Hfail].
      apply IH; [exact Hrest | lia].
Qed.

Lemma render_length toks : (List.length toks <= String.length (render toks))%nat.
Proof.
  induction toks as [| k rest IH]; [cbn; lia |].
  destruct k; cbn [List.length render String.length append]; lia.
Qed.

Lemma Match_tokens toks name :
  forallb plain_token toks = true ->
  toks <> [] ->
  filepath.Match (render toks) name = Some (accepts toks name).
Proof.
  intros Hplain Hne. unfold filepath.Match.
  destruct (render toks) as [| c t] eqn:Hr.
  - destruct toks as [| [| c |] rest]; [congruence | discriminate ..].
  - rewrite <- Hr.
    rewrite matchChunk_consume; [| exact Hplain | pose proof (render_length toks); lia].
    unfold accepts. destruct (consume toks name) as [[| c0 t0] |]; reflexivity.
Qed.

Lemma consume_app a b : forall s,
  consume (a ++ b) s = match consume a s with Some t => consume b t | None => None end.
Proof.
  induction a as [| k a IH]; intros s; cbn [app consume]; [reflexivity |].
  destruct s as [| s0 s']; [now destruct b |].
  destruct k as [| c |].
  - destruct (Ascii.eqb s0 filepath.Separator); [reflexivity | apply IH].
  - destruct (Ascii.eqb c s0); [apply IH | reflexivity].
  - destruct (utf8.DecodeRuneInString (String s0 s')) as [r n].
    destruct ((r =? 45) || (r =? 43)); [apply IH | reflexivity].
Qed.

(** Match on the three patterns is [accepts] on their tokens. *)
Lemma Match_patterns (name : string) :
  filepath.Match evtPattern name = Some (accepts stamp_tokens name)
  /\ filepath.Match evtPatterngz name = Some (accepts (stamp_tokens ++ gz_tokens) name)
  /\ filepath.Match sflPattern name = Some (accepts (stamp_tokens ++ sfl_tokens) name).
Proof.
  split; [| split].
  - change evtPattern with (render stamp_tokens).
    apply Match_tokens; [reflexivity | discriminate].
  - change evtPatterngz with (render (stamp_tokens ++ gz_tokens)).
    apply Match_tokens; [reflexivity | discriminate].
  - change sflPattern with (render (stamp_tokens ++ sfl_tokens)).
    apply Match_tokens; [reflexivity | discriminate].
Qed.

(** X15. The three patterns of FindEVTFiles and FindSFLFiles are well
    formed: for no name does Match answer ErrBadPattern, so neither
    function panics on a pattern. And Match accepts exactly the names that
    read, rune by rune: four runes, a minus, two runes, a minus, two runes,
    a T, two runes, a minus, two runes, a minus, two runes, a plus or a
    minus, two runes, a minus, two runes (no rune a slash), followed by
    nothing, by [.gz], or by [.sfl] for the third pattern. *)
Theorem X15_patterns_accept (name : string) :
  filepath.Match evtPattern name = Some (accepts stamp_tokens name)
  /\ filepath.Match evtPatterngz name = Some (accepts (stamp_tokens ++ gz_tokens) name)
  /\ filepath.Match sflPattern name = Some (accepts (stamp_tokens ++ sfl_tokens) name).
Proof. exact (Match_patterns name). Qed.

(** No name is accepted by two of the three patterns. *)
Lemma accepts_exclusive name :
  (accepts stamp_tokens name = true -> accepts (stamp_tokens ++ gz_tokens) name = false)
  /\ (accepts stamp_tokens name = true -> accepts (stamp_tokens ++ sfl_tokens) name = false)
  /\ (accepts (stamp_tokens ++ gz_tokens) name = true ->
      accepts (stamp_tokens ++ sfl_tokens) name = false).
Proof.
  unfold accepts. rewrite !consume_app.
  destruct (consume stamp_tokens name) as [t |]; [| repeat split; discriminate].
  split; [| split].
  - destruct t; [reflexivity | discriminate].
  - destruct t; [reflexivity | discriminate].
  - destruct t as [| c0 [| c1 t]]; try discriminate.
    + cbn [gz_tokens sfl_tokens consume]. destruct (Ascii.eqb "." c0); discriminate.
    + cbn [gz_tokens sfl_tokens consume].
      destruct (Ascii.eqb "." c0); [| discriminate].
      destruct (Ascii.eqb_spec "g"%char c1) as [<- | _]; [| discriminate].
      intros _. reflexivity.
Qed.

Lemma WalkDir_evt visits : forall files,
  WalkDir visits FindEVTFiles_fn files
  = if existsb no_entry (fst (walked visits)) then None
    else Some (files ++ map walkPath (filter is_evt (fst (walked visits))),
               snd (walked visits)).
Proof.
  induction visits as [| v rest IH]; intros files; cbn [WalkDir walked].
  - cbn [fst snd existsb filter map]. now rewrite app_nil_r.
  - assert (Hno : no_entry v
                  = match walkErr v, d v with None, None => true | _, _ => false end)
      by reflexivity.
    assert (Hevt : is_evt v
                   = match walkErr v, d v with
                     | None, Some entry =>
                         negb (fs.IsDir entry)
                         && (accepts stamp_tokens (fs.Name entry)
                             || accepts (stamp_tokens ++ gz_tokens) (fs.Name entry))
                     | _, _ => false
                     end) by reflexivity.
    unfold FindEVTFiles_fn.
    destruct (walkErr v) as [err |], (d v) as [entry |]; cbn [bind].
    + rewrite IH. destruct (walked rest) as [l e]. cbn [fst snd existsb filter].
      now rewrite Hno, Hevt.
    + cbn [fst snd existsb filter map]. now rewrite app_nil_r.
    + destruct (Match_patterns (fs.Name entry)) as (H1 & H2 & _).
      rewrite H1, H2. cbn [bind].
      destruct (walked rest) as [l e]. cbn [fst snd existsb filter] in *.
      rewrite Hno, Hevt. cbn [orb].
      destruct (fs.IsDir entry); cbn [negb andb].
      * now rewrite IH.
      * destruct (accepts stamp_tokens (fs.Name entry)); cbn [orb].
        -- rewrite IH. cbn [map]. now rewrite <- app_assoc.
        -- destruct (accepts (stamp_tokens ++ gz_tokens) (fs.Name entry)); rewrite IH.
           ++ cbn [map]. now rewrite <- app_assoc.
           ++ reflexivity.
    + destruct (walked rest) as [l e]. cbn [fst existsb]. now rewrite Hno.
Qed.

Lemma WalkDir_sfl visits : forall files,
  WalkDir visits FindSFLFiles_fn files
  = if existsb no_entry (fst (walked visits)) then None
    else Some (files ++ map walkPath (filter is_sfl (fst (walked visits))),
               snd (walked visits)).
Proof.
  induction visits as [| v rest IH]; intros files; cbn [WalkDir walked].
  - cbn [fst snd existsb filter map]. now rewrite app_nil_r.
  - assert (Hno : no_entry v
                  = match walkErr v, d v with None, None => true | _, _ => false end)
      by reflexivity.
    assert (Hsfl : is_sfl v
                   = match walkErr v, d v with
                     | None, Some entry =>
                         negb (fs.IsDir entry)
                         && accepts (stamp_tokens ++ sfl_tokens) (fs.Name entry)
                     | _, _ => false
                     end) by reflexivity.
    unfold FindSFLFiles_fn.
    destruct (walkErr v) as [err |], (d v) as [entry |]; cbn [bind].
    + rewrite IH. destruct (walked rest) as [l e]. cbn [fst snd existsb filter].
      now rewrite Hno, Hsfl.
    + cbn [fst snd existsb filter map]. now rewrite app_nil_r.
    + destruct (Match_patterns (fs.Name entry)) as (_ & _ & H3).
      rewrite H3. cbn [bind].
      destruct (walked rest) as [l e]. cbn [fst snd existsb filter] in *.
      rewrite Hno, Hsfl. cbn [orb].
      destruct (fs.IsDir entry); cbn [negb andb].
      * now rewrite IH.
      * destruct (accepts (stamp_tokens ++ sfl_tokens) (fs.Name entry)); rewrite IH.
        -- cbn [map]. now rewrite <- app_assoc.
        -- reflexivity.
    + destruct (walked rest) as [l e]. cbn [fst existsb]. now rewrite Hno.
Qed.

(** X16. What FindEVTFiles and FindSFLFiles answer, for every sequence
    of calls by WalkDir. The walk goes on until a call with an error and no
    entry (the root that could not be examined): that error is the answer's
    error, and there is no other; a call with an error and an entry (a
    directory that could not be read) is passed over. The files are the
    paths, in the order of the walk, of the entries visited without error
    that are not directories and whose names the patterns accept. Neither
    function panics unless WalkDir makes a call with no error and no
    entry. *)
Theorem X16_find_files (visits : list visit) :
  FindEVTFiles visits
  = (if existsb no_entry (fst (walked visits)) then None
     else Some (map walkPath (filter is_evt (fst (walked visits))), snd (walked visits)))
  /\ FindSFLFiles visits
     = (if existsb no_entry (fst (walked visits)) then None
        else Some (map walkPath (filter is_sfl (fst (walked visits))), snd (walked visits))).
Proof.
  split; [apply WalkDir_evt | apply WalkDir_sfl].
Qed.

Lemma walked_incl visits : incl (fst (walked visits)) visits.
Proof.
  induction visits as [| v rest IH]; cbn [walked]; [easy |].
  destruct (walkErr v), (d v); try (intros x []);
    destruct (walked rest) as [l e]; cbn [fst] in *;
    intros x [<- | Hx]; [now left | right; now apply IH | now left | right; now apply IH
                         | now left | right; now apply IH].
Qed.

Lemma NoDup_map_eq {A B : Type} (f : A -> B) (l : list A) x y :
  NoDup (map f l) -> In x l -> In y l -> f x = f y -> x = y.
Proof.
  induction l as [| a l IH]; cbn [map]; [easy |].
  intros Hnd Hx Hy Hf. inversion Hnd as [| ? ? Hnotin Hnd']; subst.
  destruct Hx as [<- | Hx], Hy as [<- | Hy]; [reflexivity | | | now apply IH].
  - exfalso. apply Hnotin. rewrite Hf. now apply in_map.
  - exfalso. apply Hnotin. rewrite <- Hf. now apply in_map.
Qed.

Lemma evt_not_sfl v : is_evt v = true -> is_sfl v = false.
Proof.
  unfold is_evt, is_sfl. destruct (walkErr v); [discriminate |].
  destruct (d v) as [entry |]; [| discriminate].
  destruct (fs.IsDir entry); [discriminate |]. cbn [negb andb].
  destruct (accepts_exclusive (fs.Name entry)) as (_ & H2 & H3).
  intros H. apply orb_true_iff in H as [H | H]; [exact (H2 H) | exact (H3 H)].
Qed.

(** X17. EVT files and SFL files are told apart by their names: no name
    is accepted by two of the three patterns, so in a walk that visits no
    path twice without error, no path is answered both by FindEVTFiles and
    by FindSFLFiles. *)
Theorem X17_evt_sfl_disjoint visits evtFiles err1 sflFiles err2 :
  NoDup (map walkPath (filter without_error visits)) ->
  FindEVTFiles visits = Some (evtFiles, err1) ->
  FindSFLFiles visits = Some (sflFiles, err2) ->
  forall p, In p evtFiles -> ~ In p sflFiles.
Proof.
  intros Hnd He Hs p Hpe Hps.
  unfold FindEVTFiles in He. unfold FindSFLFiles in Hs.
  rewrite WalkDir_evt in He. rewrite WalkDir_sfl in Hs.
  destruct (existsb no_entry (fst (walked visits))); [discriminate |].
  injection He as <- _. injection Hs as <- _. cbn [app] in *.
  apply in_map_iff in Hpe as (v & Hv & Hin). apply in_map_iff in Hps as (v' & Hv' & Hin').
  apply filter_In in Hin as [Hin Hevt]. apply filter_In in Hin' as [Hin' Hsfl].
  assert (v = v').
  { apply (NoDup_map_eq walkPath (filter without_error visits));
      [exact Hnd | | | congruence]; apply filter_In; (split; [now apply walked_incl |]).
    - unfold is_evt in Hevt. unfold without_error. now destruct (walkErr v).
    - unfold is_sfl in Hsfl. unfold without_error. now destruct (walkErr v'). }
  subst v'. rewrite (evt_not_sfl v Hevt) in Hsfl. discriminate.
Qed.

(** The walk of the cruise directory: two EVT files, one SFL file, and
    the directory that cannot be read fails neither scan. *)
Lemma X17_evt_sfl_disjoint_witness :
  FindEVTFiles cruise_walk
  = Some ([ "/cruise/2021-05-01T10-00-00+00-00";
            "/cruise/2021-05-01T10-03-00+00-00.gz" ]%string, None)
  /\ FindSFLFiles cruise_walk
     = Some ([ "/cruise/2021-05-01T10-00-00+00-00.sfl" ]%string, None)
  /\ ~ In "/cruise/2021-05-01T10-00-00+00-00"%string
         [ "/cruise/2021-05-01T10-00-00+00-00.sfl"%string ].
Proof.
  assert (He : FindEVTFiles cruise_walk
               = Some ([ "/cruise/2021-05-01T10-00-00+00-00";
                         "/cruise/2021-05-01T10-03-00+00-00.gz" ]%string, None))
    by (vm_compute; reflexivity).
  assert (Hs : FindSFLFiles cruise_walk
               = Some ([ "/cruise/2021-05-01T10-00-00+00-00.sfl" ]%string, None))
    by (vm_compute; reflexivity).
  split; [exact He | split; [exact Hs |]].
  apply (X17_evt_sfl_disjoint cruise_walk _ _ _ _ ltac:(vm_compute; repeat constructor;
           cbn; intuition discriminate) He Hs).
  now left.
Defined.

(** ** The time of a file name *)

Lemma substring_whole s : substring 0 (String.length s) s = s.
Proof. induction s as [| c s IH]; cbn; [reflexivity | now rewrite IH]. Qed.

(** On a name of 19 characters and a zone, the regular expression sees
    the 19 characters only. *)
Lemma FindStringSubmatch_zone stamp rest :
  String.length stamp = 19%nat ->
  zone_like rest = true ->
  FindStringSubmatch (stamp ++ rest) = FindStringSubmatch stamp.
Proof.
  intros Hlen Hrest.
  do 19 (destruct stamp as [| ? stamp]; [discriminate |]).
  destruct stamp; [| discriminate]. clear Hlen.
  unfold zone_like in Hrest.
  apply andb_true_iff in Hrest as [Hpoint Hlf]. apply negb_true_iff in Hlf.
  unfold FindStringSubmatch.
  cbn [append slice slice_from substring String.length Nat.sub].
  assert (Hnone : substring 0 0 rest = EmptyString) by now destruct rest.
  rewrite Hnone, Nat.sub_0_r, substring_whole. cbn [String.length append].
  match goal with |- (if ?b then _ else _) = _ => destruct b end; [reflexivity |].
  cbn [list_ascii_of_string existsb].
  destruct rest as [| c r]; [reflexivity |].
  destruct (Ascii.eqb_spec c ".") as [-> | Hne]; [discriminate |].
  assert (Hc : match c with
               | "."%char => false
               | _ => true
               end = true)
    by (destruct c as [[] [] [] [] [] [] [] []]; try reflexivity; congruence).
  destruct c as [[] [] [] [] [] [] [] []]; try discriminate Hc; now rewrite Hlf.
Qed.

(** X18. timeFromFilename reads the time of a file from the first 19
    characters of its base name and takes it as UTC: what follows them (a
    zone designator, an extension), as long as it does not start with a
    point and holds no line feed, and the directory of the file change
    neither the time nor whether there is an error. *)
Theorem X18_timeFromFilename_ignores_zone fn1 fn2 stamp rest1 rest2 :
  String.length stamp = 19%nat ->
  filepath.Base fn1 = (stamp ++ rest1)%string ->
  filepath.Base fn2 = (stamp ++ rest2)%string ->
  zone_like rest1 = true ->
  zone_like rest2 = true ->
  fst (timeFromFilename fn1) = fst (timeFromFilename fn2)
  /\ (snd (timeFromFilename fn1) = None <-> snd (timeFromFilename fn2) = None).
Proof.
  intros Hlen Hb1 Hb2 Hr1 Hr2. unfold timeFromFilename.
  rewrite Hb1, Hb2, !FindStringSubmatch_zone by assumption.
  destruct (FindStringSubmatch stamp) as [[[s1 s2] s3] |].
  - split; reflexivity.
  - cbn [fst snd]. split; [reflexivity | split; discriminate].
Qed.

(** A file of 10:00:00 with the zone +00-00 and a file of another
    directory with the zone -07-00 and an extension have the same time. *)
Lemma X18_timeFromFilename_ignores_zone_witness :
  timeFromFilename "/cruise/2021-05-01T10-00-00+00-00"
  = (time.Date 2021 5 1 10 0 0 0, None)
  /\ fst (timeFromFilename "/other/2021-05-01T10-00-00-07-00.sfl")
     = time.Date 2021 5 1 10 0 0 0.
Proof.
  split; [vm_compute; reflexivity |].
  destruct (X18_timeFromFilename_ignores_zone
              "/cruise/2021-05-01T10-00-00+00-00" "/other/2021-05-01T10-00-00-07-00.sfl"
              "2021-05-01T10-00-00" "+00-00" "-07-00.sfl"
              eq_refl eq_refl eq_refl eq_refl eq_refl) as [Ht _].
  rewrite <- Ht. vm_compute. reflexivity.
Defined.
